(** * A todo store behind a query and command service

    Shallow embedding of the repository's persistence layer
    ([TodoDatabase], src/database.ts), of its service layer ([TodoService],
    src/todo-service.ts) and of three tools of the protocol adapter
    ([update_todo], [list_todos] and [search_todos] in src/mcp-server.ts).

    Conventions of the embedding.
    - A string is the sequence of the bytes of its UTF-8 encoding, which is
      what SQLite stores and compares; it is assumed well formed, free of
      NUL bytes and shorter than the 10^9 bytes the engine accepts for a
      value.  Where JavaScript looks at characters (trimming, sorting) the
      bytes are grouped into characters again.
    - A JavaScript value that may be [undefined] or [null] keeps that
      distinction ([js]); an object key that may be missing keeps it too
      ([prop]).
    - A method that can throw returns a [result]; a method that writes the
      table returns the new table next to its result.
    - The clock ([new Date().toISOString()]) and the identifier generator
      ([crypto.randomUUID()]) are read once per call in the source; the
      value read is an explicit argument here.
    - SQL leaves the order of rows with equal sort keys to the engine.  The
      statements that sort take the engine's choice as an argument (a
      [Sqlite.plan]), and what is proved of them holds for every choice. *)

From Stdlib Require Import Bool List String Ascii NArith ZArith Arith Lia.
From Stdlib Require Import Sorted Permutation.
Import ListNotations.

Local Open Scope list_scope.
Local Open Scope string_scope.

(* ===================================================================== *)
(** ** Bytes, characters and the string primitives of JavaScript *)
(* ===================================================================== *)

Module Js.

Definition code (c : ascii) : N := N_of_ascii c.

(** A string given by the numeric values of its bytes. *)
Definition bytes (l : list N) : string :=
  string_of_list_ascii (map ascii_of_N l).

Definition dquote : ascii := "034"%char.
Definition backslash : ascii := "092"%char.

(** A continuation byte of UTF-8 has the form 10xxxxxx. *)
Definition is_cont (c : ascii) : bool :=
  ((128 <=? code c) && (code c <? 192))%N.

Definition starts_with_cont (s : string) : bool :=
  match s with
  | String c _ => is_cont c
  | EmptyString => false
  end.

(** The characters of a string: every byte that is not a continuation byte
    opens a new character. *)
Fixpoint chars (s : string) : list string :=
  match s with
  | EmptyString => []
  | String c r =>
      match chars r with
      | h :: t =>
          if starts_with_cont h then String c h :: t
          else String c EmptyString :: h :: t
      | [] => [String c EmptyString]
      end
  end.

Definition join (l : list string) : string := fold_right append EmptyString l.

(** ECMAScript's WhiteSpace and LineTerminator code points, as UTF-8:
    U+0009..U+000D, U+0020, U+00A0, U+1680, U+2000..U+200A, U+2028, U+2029,
    U+202F, U+205F, U+3000, U+FEFF. *)
Definition whitespace : list string :=
  map bytes
    [ [9]; [10]; [11]; [12]; [13]; [32]; [194; 160]; [225; 154; 128];
      [226; 128; 128]; [226; 128; 129]; [226; 128; 130]; [226; 128; 131];
      [226; 128; 132]; [226; 128; 133]; [226; 128; 134]; [226; 128; 135];
      [226; 128; 136]; [226; 128; 137]; [226; 128; 138]; [226; 128; 168];
      [226; 128; 169]; [226; 128; 175]; [226; 129; 159]; [227; 128; 128];
      [239; 187; 191] ]%N.

Definition is_ws (ch : string) : bool := existsb (String.eqb ch) whitespace.

Fixpoint dropWhile {A : Type} (f : A -> bool) (l : list A) : list A :=
  match l with
  | [] => []
  | x :: l' => if f x then dropWhile f l' else l
  end.

(** [String.prototype.trim]: whitespace characters are removed from both
    ends. *)
Definition trim (s : string) : string :=
  join (rev (dropWhile is_ws (rev (dropWhile is_ws (chars s))))).

(** Truthiness of a string: every string but the empty one. *)
Definition truthy (s : string) : bool := negb (s =? "")%string.

(** [!s.trim()]. *)
Definition blank (s : string) : bool := negb (truthy (trim s)).

(** A string made of whitespace characters only (possibly none). *)
Definition whitespace_only (s : string) : Prop :=
  Forall (fun ch => is_ws ch = true) (chars s).

(** [s.includes(t)]: [t] occurs in [s] as a contiguous run. *)
Fixpoint includes (s t : string) : bool :=
  prefix t s ||
  match s with
  | EmptyString => false
  | String _ r => includes r t
  end.

(** A value that may also be [undefined] or [null]. *)
Inductive js (A : Type) : Type :=
  | undefined : js A
  | null : js A
  | val : A -> js A.
Arguments undefined {A}.
Arguments null {A}.
Arguments val {A} _.

(** A key of an object literal: missing, or present with a value that may
    itself be [undefined]. *)
Inductive prop (A : Type) : Type :=
  | missing : prop A
  | present : option A -> prop A.
Arguments missing {A}.
Arguments present {A} _.

(** Reading a key: a missing key reads as [undefined] ([None]). *)
Definition read {A : Type} (p : prop A) : option A :=
  match p with
  | missing => None
  | present v => v
  end.

(** [x || null] on an optional string. *)
Definition or_null (x : js string) : option string :=
  match x with
  | val s => if truthy s then Some s else None
  | _ => None
  end.

(** What is thrown. [Error] is a plain [new Error(message)] of the service,
    [SqliteError] comes from the database driver, [SyntaxError] from
    [JSON.parse] and [TypeError] from reading a property of [undefined]. *)
Inductive exn : Type :=
  | Error (message : string)
  | SqliteError (message : string)
  | SyntaxError
  | TypeError.

Inductive result (A : Type) : Type :=
  | Ok : A -> result A
  | Throw : exn -> result A.
Arguments Ok {A} _.
Arguments Throw {A} _.

Definition bind {A B : Type} (r : result A) (k : A -> result B) : result B :=
  match r with
  | Ok a => k a
  | Throw e => Throw e
  end.

Fixpoint mapM {A B : Type} (f : A -> result B) (l : list A) : result (list B) :=
  match l with
  | [] => Ok []
  | x :: l' =>
      bind (f x) (fun y => bind (mapM f l') (fun ys => Ok (y :: ys)))
  end.

Fixpoint filterM {A : Type} (f : A -> result bool) (l : list A)
  : result (list A) :=
  match l with
  | [] => Ok []
  | x :: l' =>
      bind (f x) (fun b =>
      bind (filterM f l') (fun ys => Ok (if b then x :: ys else ys)))
  end.

(** The default order of [Array.prototype.sort]: strings compare by UTF-16
    code units.  On UTF-8 bytes this is the byte order except that the
    characters U+E000..U+FFFF (lead bytes 0xEE, 0xEF) come after the
    characters beyond U+FFFF (lead bytes 0xF0..0xF4), which UTF-16 writes
    with surrogates 0xD800..0xDFFF. *)
Definition unit_rank (c : ascii) : N :=
  if ((code c =? 238) || (code c =? 239))%N then (code c + 32)%N else code c.

(** Lexicographic comparison of two strings under a ranking of their
    bytes; a proper prefix comes first. *)
Fixpoint lex_compare (rank : ascii -> N) (s t : string) : comparison :=
  match s, t with
  | EmptyString, EmptyString => Eq
  | EmptyString, String _ _ => Lt
  | String _ _, EmptyString => Gt
  | String c s', String d t' =>
      match (rank c ?= rank d)%N with
      | Eq => lex_compare rank s' t'
      | o => o
      end
  end.

Definition sort_compare (s t : string) : comparison :=
  lex_compare unit_rank s t.

Definition sort_leb (s t : string) : bool :=
  match sort_compare s t with Gt => false | _ => true end.

Definition sort_lt (s t : string) : Prop := sort_compare s t = Lt.

(** A stable sort, used for [Array.prototype.sort] and for [ORDER BY]. *)
Fixpoint insert_by {A : Type} (le : A -> A -> bool) (x : A) (l : list A)
  : list A :=
  match l with
  | [] => [x]
  | y :: l' => if le x y then x :: l else y :: insert_by le x l'
  end.

Fixpoint sort_by {A : Type} (le : A -> A -> bool) (l : list A) : list A :=
  match l with
  | [] => []
  | x :: l' => insert_by le x (sort_by le l')
  end.

End Js.

(* ===================================================================== *)
(** ** JSON text of a list of strings *)
(* ===================================================================== *)

Module JSON.
Import Js.

Definition hex_digit (n : N) : ascii :=
  if (n <? 10)%N then ascii_of_N (48 + n) else ascii_of_N (87 + n).

(** The escape of one byte inside a JSON string (QuoteJSONString): the
    short escapes, [\u00xx] for the other control characters, and the byte
    itself otherwise. *)
Definition escape (c : ascii) : string :=
  let n := code c in
  if (n =? 8)%N then "\b"
  else if (n =? 9)%N then "\t"
  else if (n =? 10)%N then "\n"
  else if (n =? 12)%N then "\f"
  else if (n =? 13)%N then "\r"
  else if (n =? 34)%N then String backslash (String dquote EmptyString)
  else if (n =? 92)%N then String backslash (String backslash EmptyString)
  else if (n <? 32)%N then
    "\u00" ++ String (hex_digit (n / 16)) (String (hex_digit (n mod 16)) EmptyString)
  else String c EmptyString.

Fixpoint escape_all (s : string) : string :=
  match s with
  | EmptyString => EmptyString
  | String c r => escape c ++ escape_all r
  end.

Definition quote (s : string) : string :=
  String dquote (escape_all s ++ String dquote EmptyString).

Fixpoint elements (l : list string) : string :=
  match l with
  | [] => EmptyString
  | [x] => quote x
  | x :: l' => quote x ++ "," ++ elements l'
  end.

(** [JSON.stringify(l)] for an array of strings, no indentation. *)
Definition stringify (l : list string) : string := "[" ++ elements l ++ "]".

Definition hex_value (c : ascii) : option N :=
  let n := code c in
  if ((48 <=? n) && (n <=? 57))%N then Some (n - 48)%N
  else if ((97 <=? n) && (n <=? 102))%N then Some (n - 87)%N
  else if ((65 <=? n) && (n <=? 70))%N then Some (n - 55)%N
  else None.

(** The UTF-8 bytes of a code unit written as [\uxxxx] that is a character
    by itself; a surrogate is none. *)
Definition utf8_encode (u : N) : option string :=
  if (u <? 128)%N then Some (bytes [u])
  else if (u <? 2048)%N then Some (bytes [192 + u / 64; 128 + u mod 64]%N)
  else if ((55296 <=? u) && (u <? 57344))%N then None
  else Some (bytes [224 + u / 4096; 128 + (u / 64) mod 64; 128 + u mod 64]%N).

(** The two halves of a surrogate pair, and the UTF-8 bytes of the
    character the pair writes, which lies beyond U+FFFF. *)
Definition is_high (u : N) : bool := ((55296 <=? u) && (u <? 56320))%N.
Definition is_low (u : N) : bool := ((56320 <=? u) && (u <? 57344))%N.

Definition utf8_pair (hi lo : N) : string :=
  let cp := (65536 + (hi - 55296) * 1024 + (lo - 56320))%N in
  bytes [240 + cp / 262144; 128 + (cp / 4096) mod 64;
         128 + (cp / 64) mod 64; 128 + cp mod 64]%N.

Definition unescape (e : ascii) : option ascii :=
  let n := code e in
  if (n =? 34)%N then Some dquote
  else if (n =? 92)%N then Some backslash
  else if (n =? 47)%N then Some "/"%char
  else if (n =? 98)%N then Some (ascii_of_N 8)
  else if (n =? 102)%N then Some (ascii_of_N 12)
  else if (n =? 110)%N then Some (ascii_of_N 10)
  else if (n =? 114)%N then Some (ascii_of_N 13)
  else if (n =? 116)%N then Some (ascii_of_N 9)
  else None.

Definition hex4 (a b c d : ascii) : option N :=
  match hex_value a, hex_value b, hex_value c, hex_value d with
  | Some x, Some y, Some z, Some w => Some (((x * 16 + y) * 16 + z) * 16 + w)%N
  | _, _, _, _ => None
  end.

Definition prepend (p : string) (r : option (string * string))
  : option (string * string) :=
  match r with
  | Some (body, rest) => Some (p ++ body, rest)
  | None => None
  end.

(** Reads a JSON string from just after its opening quote: the decoded
    string and what follows the closing quote.  Two escapes [\uxxxx] that
    write a surrogate pair give one character.  A surrogate escape that
    is not part of a pair gives a string that is not well formed, which
    the embedding has no value for: such a text is read as if it did not
    parse. *)
Fixpoint parse_string_body (s : string) : option (string * string) :=
  match s with
  | EmptyString => None
  | String c r =>
      if (c =? dquote)%char then Some (EmptyString, r)
      else if (c =? backslash)%char then
        match r with
        | EmptyString => None
        | String e r1 =>
            if (e =? "u")%char then
              match r1 with
              | String h1 (String h2 (String h3 (String h4 r2))) =>
                  match hex4 h1 h2 h3 h4 with
                  | Some u =>
                      if is_high u then
                        match r2 with
                        | String b (String v (String l1 (String l2
                            (String l3 (String l4 r3))))) =>
                            if ((b =? backslash) && (v =? "u"))%char then
                              match hex4 l1 l2 l3 l4 with
                              | Some w =>
                                  if is_low w then
                                    prepend (utf8_pair u w)
                                      (parse_string_body r3)
                                  else None
                              | None => None
                              end
                            else None
                        | _ => None
                        end
                      else
                        match utf8_encode u with
                        | Some p => prepend p (parse_string_body r2)
                        | None => None
                        end
                  | None => None
                  end
              | _ => None
              end
            else
              match unescape e with
              | Some d => prepend (String d EmptyString) (parse_string_body r1)
              | None => None
              end
        end
      else if (code c <? 32)%N then None
      else prepend (String c EmptyString) (parse_string_body r)
  end.

Definition is_json_ws (c : ascii) : bool :=
  ((code c =? 32) || (code c =? 9) || (code c =? 10) || (code c =? 13))%N.

Fixpoint skip_ws (s : string) : string :=
  match s with
  | EmptyString => EmptyString
  | String c r => if is_json_ws c then skip_ws r else s
  end.

(** The elements of an array from its first element on; [fuel] bounds the
    number of elements. *)
Fixpoint parse_elements (fuel : nat) (s : string) : option (list string) :=
  match fuel with
  | O => None
  | S fuel' =>
      match s with
      | EmptyString => None
      | String c r =>
          if (c =? dquote)%char then
            match parse_string_body r with
            | None => None
            | Some (x, rest) =>
                match skip_ws rest with
                | EmptyString => None
                | String d rest' =>
                    if (d =? ",")%char then
                      option_map (cons x)
                        (parse_elements fuel' (skip_ws rest'))
                    else if (d =? "]")%char then
                      if (skip_ws rest' =? "")%string then Some [x] else None
                    else None
                end
            end
          else None
      end
  end.

(** [JSON.parse(text)] where the text is an array of strings.  [None]
    stands for a text on which [JSON.parse] throws a SyntaxError, and also
    for the texts of other JSON values, which the table never holds. *)
Definition parse (text : string) : option (list string) :=
  match skip_ws text with
  | EmptyString => None
  | String c r =>
      if (c =? "[")%char then
        match skip_ws r with
        | EmptyString => None
        | String d r' =>
            if (d =? "]")%char then
              if (skip_ws r' =? "")%string then Some [] else None
            else parse_elements (String.length text) (skip_ws r)
        end
      else None
  end.

End JSON.

(* ===================================================================== *)
(** ** The SQL operators the statements use *)
(* ===================================================================== *)

Module Sqlite.
Import Js.

(** ASCII case folding, the only folding of the built-in LIKE. *)
Definition to_lower (c : ascii) : ascii :=
  if ((65 <=? code c) && (code c <=? 90))%N then ascii_of_N (code c + 32)
  else c.

(** Two bytes agree under LIKE when equal, or when both are ASCII and equal
    after folding. *)
Definition like_eq (c d : ascii) : bool :=
  (c =? d)%char ||
  ((code c <? 128)%N && (code d <? 128)%N && (to_lower c =? to_lower d)%char).

Fixpoint skip_cont (s : string) : string :=
  match s with
  | EmptyString => EmptyString
  | String c r => if is_cont c then skip_cont r else s
  end.

(** Steps over one character: a lead byte takes its continuation bytes
    along. *)
Definition next_char (s : string) : option string :=
  match s with
  | EmptyString => None
  | String c r => Some (if (192 <=? code c)%N then skip_cont r else r)
  end.

(** [text LIKE pattern] without an ESCAPE clause: [%] stands for any run of
    characters, [_] for exactly one character, every other byte for itself
    up to ASCII case. *)
Fixpoint like (pattern : string) : string -> bool :=
  match pattern with
  | EmptyString => fun text => (text =? "")%string
  | String c p =>
      if (c =? "%")%char then
        fix star (text : string) : bool :=
          (negb (starts_with_cont text) && like p text) ||
          match text with
          | EmptyString => false
          | String _ r => star r
          end
      else if (c =? "_")%char then
        fun text =>
          match next_char text with
          | Some r => like p r
          | None => false
          end
      else
        fun text =>
          match text with
          | EmptyString => false
          | String d r => like_eq c d && like p r
          end
  end.

(** The built-in LIKE refuses a pattern of more than 50000 bytes
    (SQLITE_MAX_LIKE_PATTERN_LENGTH): the call fails with the error
    [LIKE or GLOB pattern too complex], whatever the text. *)
Definition like_pattern_limit : N := 50000.

Definition too_long (pattern : string) : bool :=
  (like_pattern_limit <? N.of_nat (String.length pattern))%N.

(** Comparison of TEXT values under the BINARY collation: byte by byte, a
    proper prefix first. *)
Definition text_lt (a b : string) : bool := (a <? b)%string.
Definition text_le (a b : string) : bool := (a <=? b)%string.

(** [ORDER BY] settles the order of rows with different keys only.  Rows
    with equal keys come out in the order in which the engine met them,
    and that depends on the plan it prepared for the statement: an index
    read backwards meets the newest row first, a scan of the table the
    oldest.  A [plan] stands for that choice: [visit] is the order in
    which a statement, named with its parameters by a [Q], meets the rows
    of a table.  All that is known of it is that it rearranges them. *)
Record plan (Q A : Type) : Type := {
  visit : Q -> list A -> list A;
  visit_perm : forall q rows, Permutation (visit q rows) rows
}.
Arguments visit {Q A} _ _ _.
Arguments visit_perm {Q A} _ _ _.

(** The plan that meets the rows in table order for every statement. *)
Definition scan {Q A : Type} : plan Q A :=
  {| visit := fun _ rows => rows;
     visit_perm := fun _ rows => Permutation_refl rows |}.

(** [ORDER BY key ASC] and [ORDER BY key DESC] over rows whose key is not
    NULL; rows with equal keys stay in the order in which they are
    given, which is the order in which the plan met them. *)
Definition order_by_asc {A : Type} (key : A -> string) (rows : list A)
  : list A :=
  sort_by (fun a b => text_le (key a) (key b)) rows.

Definition order_by_desc {A : Type} (key : A -> string) (rows : list A)
  : list A :=
  sort_by (fun a b => text_le (key b) (key a)) rows.

(** [SELECT DISTINCT]: the first occurrence of every value is kept. *)
Fixpoint distinct (l : list string) : list string :=
  match l with
  | [] => []
  | x :: l' =>
      x :: filter (fun y => negb (y =? x)%string) (distinct l')
  end.

End Sqlite.

(* ===================================================================== *)
(** ** The declared types (src/types.ts) *)
(* ===================================================================== *)

Module Todo.
Import Js.
(** [description], [priority] and [dueDate] read [null] from a NULL
    column; [completed], [tags] and the optional fields can be [undefined]
    in an object built by spreading. *)
Record t : Type := mk {
  id : string;
  title : string;
  description : js string;
  completed : option bool;
  priority : js string;
  dueDate : js string;
  tags : option (list string);
  createdAt : string;
  updatedAt : string
}.
End Todo.

Module CreateTodoInput.
(** An optional key that is missing and one that holds [undefined] read the
    same wherever this input is used: [None]. *)
Record t : Type := mk {
  title : string;
  description : option string;
  priority : option string;
  dueDate : option string;
  tags : option (list string)
}.
End CreateTodoInput.

Module UpdateTodoInput.
Import Js.
Record t : Type := mk {
  title : prop string;
  description : prop string;
  completed : prop bool;
  priority : prop string;
  dueDate : prop string;
  tags : prop (list string)
}.

(** The object literal [{}]. *)
Definition empty : t := mk missing missing missing missing missing missing.
End UpdateTodoInput.

Module TodoFilter.
Record t : Type := mk {
  completed : option bool;
  priority : option string;
  tag : option string;
  dueBefore : option string;
  dueAfter : option string
}.
End TodoFilter.

(* ===================================================================== *)
(** ** The table and its access layer (src/database.ts) *)
(* ===================================================================== *)

Module Row.
(** A row of [todos]: [id], [title], [created_at] and [updated_at] always
    hold a text, [completed] holds an integer, and the other columns hold
    a text or NULL ([None]). *)
Record t : Type := mk {
  id : string;
  title : string;
  description : option string;
  completed : Z;
  priority : option string;
  due_date : option string;
  tags : option string;
  created_at : string;
  updated_at : string
}.
End Row.

Module TodoDatabase.
Import Js.

(** The rows in the order of their insertion. *)
Definition table : Type := list Row.t.

Definition has_id (id : string) (row : Row.t) : bool :=
  (Row.id row =? id)%string.

(** [SELECT * FROM todos WHERE id = ?], first row. *)
Definition select_by_id (id : string) (db : table) : option Row.t :=
  find (has_id id) db.

Definition of_column (c : option string) : js string :=
  match c with
  | Some s => val s
  | None => null
  end.

Definition of_optional (c : option string) : js string :=
  match c with
  | Some s => val s
  | None => undefined
  end.

(** Binding a string parameter: the driver binds [undefined] and [null] as
    NULL. *)
Definition bind_text (x : js string) : option string :=
  match x with
  | val s => Some s
  | _ => None
  end.

(** [x ? 1 : 0]. *)
Definition bind_flag (x : option bool) : Z :=
  match x with
  | Some true => 1%Z
  | _ => 0%Z
  end.

(** [JSON.stringify(x)], which is [undefined] on [undefined]. *)
Definition bind_tags (x : option (list string)) : option string :=
  option_map JSON.stringify x.

(** [row.tags || '[]']. *)
Definition tags_text (c : option string) : string :=
  match c with
  | Some s => if truthy s then s else "[]"
  | None => "[]"
  end.

Definition rowToTodo (row : Row.t) : result Todo.t :=
  match JSON.parse (tags_text (Row.tags row)) with
  | None => Throw SyntaxError
  | Some l =>
      Ok {| Todo.id := Row.id row;
            Todo.title := Row.title row;
            Todo.description := of_column (Row.description row);
            Todo.completed := Some (negb (Row.completed row =? 0)%Z);
            Todo.priority := of_column (Row.priority row);
            Todo.dueDate := of_column (Row.due_date row);
            Todo.tags := Some l;
            Todo.createdAt := Row.created_at row;
            Todo.updatedAt := Row.updated_at row |}
  end.

Definition createTodo (input : CreateTodoInput.t) (uuid now : string)
  (db : table) : result Todo.t * table :=
  let todo :=
    {| Todo.id := uuid;
       Todo.title := CreateTodoInput.title input;
       Todo.description := of_optional (CreateTodoInput.description input);
       Todo.completed := Some false;
       Todo.priority :=
         val (match CreateTodoInput.priority input with
              | Some p => if truthy p then p else "medium"
              | None => "medium"
              end);
       Todo.dueDate := of_optional (CreateTodoInput.dueDate input);
       Todo.tags :=
         Some (match CreateTodoInput.tags input with
               | Some l => l
               | None => []
               end);
       Todo.createdAt := now;
       Todo.updatedAt := now |} in
  match select_by_id uuid db with
  | Some _ => (Throw (SqliteError "UNIQUE constraint failed: todos.id"), db)
  | None =>
      (Ok todo,
       (db ++ [ {| Row.id := Todo.id todo;
                   Row.title := Todo.title todo;
                   Row.description := or_null (Todo.description todo);
                   Row.completed := bind_flag (Todo.completed todo);
                   Row.priority := bind_text (Todo.priority todo);
                   Row.due_date := or_null (Todo.dueDate todo);
                   Row.tags := bind_tags (Todo.tags todo);
                   Row.created_at := Todo.createdAt todo;
                   Row.updated_at := Todo.updatedAt todo |} ])%list)
  end.

Definition getTodoById (id : string) (db : table) : result (option Todo.t) :=
  match select_by_id id db with
  | None => Ok None
  | Some row => bind (rowToTodo row) (fun todo => Ok (Some todo))
  end.

(** The conditions pushed for a filter, each with its parameter bound.  A
    comparison with NULL is not true, so a NULL column fails it. *)
Definition conditions (filter : option TodoFilter.t)
  : list (Row.t -> bool) :=
  match filter with
  | None => []
  | Some f =>
      (match TodoFilter.completed f with
       | Some b =>
           [fun row => (Row.completed row =? (if b then 1 else 0))%Z]
       | None => []
       end ++
       match TodoFilter.priority f with
       | Some p =>
           if truthy p then
             [fun row =>
                match Row.priority row with
                | Some q => (q =? p)%string
                | None => false
                end]
           else []
       | None => []
       end ++
       match TodoFilter.dueBefore f with
       | Some b =>
           if truthy b then
             [fun row =>
                match Row.due_date row with
                | Some d => Sqlite.text_le d b
                | None => false
                end]
           else []
       | None => []
       end ++
       match TodoFilter.dueAfter f with
       | Some a =>
           if truthy a then
             [fun row =>
                match Row.due_date row with
                | Some d => Sqlite.text_le a d
                | None => false
                end]
           else []
       | None => []
       end ++
       match TodoFilter.tag f with
       | Some t =>
           if truthy t then
             [fun row =>
                match Row.tags row with
                | Some text =>
                    Sqlite.like
                      ("%" ++ String dquote (t ++ String dquote "%")) text
                | None => false
                end]
           else []
       | None => []
       end)%list
  end.

(** [WHERE c1 AND c2 AND ...]; no condition selects every row. *)
Definition where_all (cs : list (Row.t -> bool)) (row : Row.t) : bool :=
  forallb (fun c => c row) cs.

(** The two statements that return several rows in a sorted order, with
    their parameters. *)
Inductive statement : Type :=
  | select_todos (filter : option TodoFilter.t)
  | select_overdue (now : string).

Definition plan : Type := Sqlite.plan statement Row.t.

(** The pattern bound for a tag. *)
Definition tag_pattern (t : string) : string :=
  "%" ++ String dquote (t ++ String dquote "%").

Definition without_tag (f : TodoFilter.t) : TodoFilter.t :=
  {| TodoFilter.completed := TodoFilter.completed f;
     TodoFilter.priority := TodoFilter.priority f;
     TodoFilter.tag := None;
     TodoFilter.dueBefore := TodoFilter.dueBefore f;
     TodoFilter.dueAfter := TodoFilter.dueAfter f |}.

(** Whether the statement fails on the pattern of the tag.  [tags LIKE ?]
    is the last condition of the WHERE clause, so LIKE is called for the
    rows that passed the conditions before it, NULL [tags] included, and
    the first call with a pattern that is too long fails the statement;
    with no such row LIKE is never called. *)
Definition refused (filter : option TodoFilter.t) (db : table) : bool :=
  match filter with
  | Some f =>
      match TodoFilter.tag f with
      | Some t =>
          truthy t && Sqlite.too_long (tag_pattern t) &&
          existsb (where_all (conditions (Some (without_tag f)))) db
      | None => false
      end
  | None => false
  end.

Section Queries.

(** The engine's plans, which settle the order of rows with equal keys. *)
Variable engine : plan.

(** The rows [stmt.all(...params)] returns for the statement built from
    the filter, when the statement does not fail. *)
Definition select_rows (filter : option TodoFilter.t) (db : table)
  : list Row.t :=
  Sqlite.order_by_desc Row.created_at
    (List.filter (where_all (conditions filter))
       (Sqlite.visit engine (select_todos filter) db)).

Definition getAllTodos (filter : option TodoFilter.t) (db : table)
  : result (list Todo.t) :=
  if refused filter db then
    Throw (SqliteError "LIKE or GLOB pattern too complex")
  else mapM rowToTodo (select_rows filter db).

End Queries.

(** The value a key has in [{...existing, ...input}]. *)
Definition spread {A : Type} (old : option A) (p : prop A) : option A :=
  match p with
  | missing => old
  | present v => v
  end.

Definition spread_js {A : Type} (old : js A) (p : prop A) : js A :=
  match p with
  | missing => old
  | present None => undefined
  | present (Some v) => val v
  end.

Definition updateTodo (id : string) (input : UpdateTodoInput.t)
  (now : string) (db : table) : result (option Todo.t) * table :=
  match getTodoById id db with
  | Throw e => (Throw e, db)
  | Ok None => (Ok None, db)
  | Ok (Some existing) =>
      match spread (Some (Todo.title existing)) (UpdateTodoInput.title input) with
      | None =>
          (Throw (SqliteError "NOT NULL constraint failed: todos.title"), db)
      | Some title' =>
          let updated :=
            {| Todo.id := Todo.id existing;
               Todo.title := title';
               Todo.description :=
                 spread_js (Todo.description existing)
                   (UpdateTodoInput.description input);
               Todo.completed :=
                 spread (Todo.completed existing)
                   (UpdateTodoInput.completed input);
               Todo.priority :=
                 spread_js (Todo.priority existing)
                   (UpdateTodoInput.priority input);
               Todo.dueDate :=
                 spread_js (Todo.dueDate existing)
                   (UpdateTodoInput.dueDate input);
               Todo.tags :=
                 spread (Todo.tags existing) (UpdateTodoInput.tags input);
               Todo.createdAt := Todo.createdAt existing;
               Todo.updatedAt := now |} in
          (Ok (Some updated),
           map (fun row =>
                  if has_id id row then
                    {| Row.id := Row.id row;
                       Row.title := Todo.title updated;
                       Row.description := or_null (Todo.description updated);
                       Row.completed := bind_flag (Todo.completed updated);
                       Row.priority := bind_text (Todo.priority updated);
                       Row.due_date := or_null (Todo.dueDate updated);
                       Row.tags := bind_tags (Todo.tags updated);
                       Row.created_at := Row.created_at row;
                       Row.updated_at := Todo.updatedAt updated |}
                  else row) db)
      end
  end.

(** [DELETE FROM todos WHERE id = ?]; true when a row went. *)
Definition deleteTodo (id : string) (db : table) : bool * table :=
  (existsb (has_id id) db, List.filter (fun row => negb (has_id id row)) db).

Definition getCompletedTodos (engine : plan) (db : table)
  : result (list Todo.t) :=
  getAllTodos engine (Some (TodoFilter.mk (Some true) None None None None)) db.

Definition getPendingTodos (engine : plan) (db : table)
  : result (list Todo.t) :=
  getAllTodos engine (Some (TodoFilter.mk (Some false) None None None None)) db.

Definition getTodosByPriority (engine : plan) (priority : string) (db : table)
  : result (list Todo.t) :=
  getAllTodos engine
    (Some (TodoFilter.mk None (Some priority) None None None)) db.

Definition getTodosByTag (engine : plan) (tag : string) (db : table)
  : result (list Todo.t) :=
  getAllTodos engine (Some (TodoFilter.mk None None (Some tag) None None)) db.

(** [completed = 0 AND due_date IS NOT NULL AND due_date < ?]. *)
Definition overdue_row (now : string) (row : Row.t) : bool :=
  (Row.completed row =? 0)%Z &&
  match Row.due_date row with
  | Some d => Sqlite.text_lt d now
  | None => false
  end.

Definition due_key (row : Row.t) : string :=
  match Row.due_date row with
  | Some d => d
  | None => ""
  end.

(** The rows the overdue statement returns. *)
Definition overdue_rows (engine : plan) (now : string) (db : table)
  : list Row.t :=
  Sqlite.order_by_asc due_key
    (List.filter (overdue_row now)
       (Sqlite.visit engine (select_overdue now) db)).

Definition getOverdueTodos (engine : plan) (now : string) (db : table)
  : result (list Todo.t) :=
  mapM rowToTodo (overdue_rows engine now db).

(** [Set.prototype.add]: insertion order, no second copy. *)
Definition set_add (s : list string) (x : string) : list string :=
  if existsb (String.eqb x) s then s else (s ++ [x])%list.

(** The column values read by
    [SELECT DISTINCT tags FROM todos WHERE tags IS NOT NULL AND tags != '[]'],
    here in table order; the sort that ends [getAllTags] makes the order
    in which they are read immaterial. *)
Definition tag_texts (db : table) : list string :=
  Sqlite.distinct
    (flat_map (fun row =>
                 match Row.tags row with
                 | Some text => if (text =? "[]")%string then [] else [text]
                 | None => []
                 end) db).

(** The loop over the rows read: the tags of every text that parses are
    added, a text that does not parse is skipped. *)
Definition collect (texts allTags : list string) : list string :=
  fold_left
    (fun allTags text =>
       match JSON.parse (tags_text (Some text)) with
       | Some tags => fold_left set_add tags allTags
       | None => allTags
       end) texts allTags.

Definition getAllTags (db : table) : list string :=
  sort_by sort_leb (collect (tag_texts db) []).

End TodoDatabase.

(* ===================================================================== *)
(** ** The service (src/todo-service.ts) *)
(* ===================================================================== *)

Module TodoService.
Import Js.

(** A JavaScript number that counts: a natural number, or NaN. *)
Inductive number : Type :=
  | Num (n : nat)
  | NaN.

(** An object used as a table of counters, keys in insertion order. *)
Definition counters : Type := list (string * number).

Fixpoint get (k : string) (o : counters) : option number :=
  match o with
  | [] => None
  | (k', v) :: o' => if (k' =? k)%string then Some v else get k o'
  end.

(** [o[k]++]: a counter goes up by one; a key that is not there reads
    [undefined], and [undefined + 1] is NaN. *)
Fixpoint increment (k : string) (o : counters) : counters :=
  match o with
  | [] => [(k, NaN)]
  | (k', v) :: o' =>
      if (k' =? k)%string then
        (k', match v with Num n => Num (S n) | NaN => NaN end) :: o'
      else (k', v) :: increment k o'
  end.

(** The property key a priority is converted to. *)
Definition key_of (p : js string) : string :=
  match p with
  | val s => s
  | null => "null"
  | undefined => "undefined"
  end.

Record Stats : Type := mkStats {
  total : nat;
  completed : nat;
  pending : nat;
  overdue : nat;
  byPriority : counters
}.

Definition is_completed (todo : Todo.t) : bool :=
  match Todo.completed todo with
  | Some b => b
  | None => false
  end.

Definition valid_priority (p : string) : bool :=
  existsb (String.eqb p) ["low"; "medium"; "high"].

(** [tags.filter(tag => tag.trim()).map(tag => tag.trim())]. *)
Definition clean_tags (l : list string) : list string :=
  map trim (List.filter (fun tag => truthy (trim tag)) l).

Definition not_found (id : string) : exn :=
  Error ("Todo with ID " ++ id ++ " not found").

Section Service.

(** The plans of the database engine. *)
Variable engine : TodoDatabase.plan.

(** [String.prototype.toLowerCase], which follows the Unicode case
    tables. *)
Variable toLowerCase : string -> string.

(** Whether [new Date(s)] is a valid date, that is [!isNaN(d.getTime())];
    the accepted formats beyond ISO 8601 depend on the engine. *)
Variable valid_date : string -> bool.

(** [input.dueDate] is given and does not parse. *)
Definition bad_date (d : option string) : bool :=
  match d with
  | Some s => truthy s && negb (valid_date s)
  | None => false
  end.

(** [input.priority] is given and is none of the three values. *)
Definition bad_priority (p : option string) : bool :=
  match p with
  | Some s => truthy s && negb (valid_priority s)
  | None => false
  end.

Definition createTodo (input : CreateTodoInput.t) (uuid now : string)
  (db : TodoDatabase.table) : result Todo.t * TodoDatabase.table :=
  if blank (CreateTodoInput.title input) then
    (Throw (Error "Todo title is required"), db)
  else if bad_date (CreateTodoInput.dueDate input) then
    (Throw (Error "Invalid due date format"), db)
  else if bad_priority (CreateTodoInput.priority input) then
    (Throw (Error "Priority must be low, medium, or high"), db)
  else
    TodoDatabase.createTodo
      {| CreateTodoInput.title := trim (CreateTodoInput.title input);
         CreateTodoInput.description :=
           option_map trim (CreateTodoInput.description input);
         CreateTodoInput.priority := CreateTodoInput.priority input;
         CreateTodoInput.dueDate := CreateTodoInput.dueDate input;
         CreateTodoInput.tags :=
           Some (match CreateTodoInput.tags input with
                 | Some l => clean_tags l
                 | None => []
                 end) |}
      uuid now db.

Definition getTodoById (id : string) (db : TodoDatabase.table)
  : result (option Todo.t) :=
  if blank id then Throw (Error "Todo ID is required")
  else TodoDatabase.getTodoById id db.

Definition getAllTodos (filter : option TodoFilter.t)
  (db : TodoDatabase.table) : result (list Todo.t) :=
  TodoDatabase.getAllTodos engine filter db.

(** The copy [updateData] of the input after its three adjustments. *)
Definition updateData (input : UpdateTodoInput.t) : UpdateTodoInput.t :=
  {| UpdateTodoInput.title :=
       match UpdateTodoInput.title input with
       | present (Some t) => present (Some (if truthy t then trim t else t))
       | p => p
       end;
     UpdateTodoInput.description :=
       match UpdateTodoInput.description input with
       | present (Some d) => present (Some (trim d))
       | p => p
       end;
     UpdateTodoInput.completed := UpdateTodoInput.completed input;
     UpdateTodoInput.priority := UpdateTodoInput.priority input;
     UpdateTodoInput.dueDate := UpdateTodoInput.dueDate input;
     UpdateTodoInput.tags :=
       match UpdateTodoInput.tags input with
       | present (Some l) => present (Some (clean_tags l))
       | p => p
       end |}.

Definition updateTodo (id : string) (input : UpdateTodoInput.t)
  (now : string) (db : TodoDatabase.table)
  : result Todo.t * TodoDatabase.table :=
  if blank id then (Throw (Error "Todo ID is required"), db)
  else
    match TodoDatabase.getTodoById id db with
    | Throw e => (Throw e, db)
    | Ok None => (Throw (not_found id), db)
    | Ok (Some _) =>
        if match read (UpdateTodoInput.title input) with
           | Some t => blank t
           | None => false
           end
        then (Throw (Error "Todo title cannot be empty"), db)
        else if bad_date (read (UpdateTodoInput.dueDate input)) then
          (Throw (Error "Invalid due date format"), db)
        else if bad_priority (read (UpdateTodoInput.priority input)) then
          (Throw (Error "Priority must be low, medium, or high"), db)
        else
          match TodoDatabase.updateTodo id (updateData input) now db with
          | (Throw e, db') => (Throw e, db')
          | (Ok None, db') =>
              (Throw (Error ("Failed to update todo with ID " ++ id)), db')
          | (Ok (Some updated), db') => (Ok updated, db')
          end
    end.

Definition deleteTodo (id : string) (db : TodoDatabase.table)
  : result bool * TodoDatabase.table :=
  if blank id then (Throw (Error "Todo ID is required"), db)
  else
    match TodoDatabase.getTodoById id db with
    | Throw e => (Throw e, db)
    | Ok None => (Throw (not_found id), db)
    | Ok (Some _) =>
        let (deleted, db') := TodoDatabase.deleteTodo id db in
        (Ok deleted, db')
    end.

(** The object literal [{ completed: true }]. *)
Definition completed_true : UpdateTodoInput.t :=
  {| UpdateTodoInput.title := missing;
     UpdateTodoInput.description := missing;
     UpdateTodoInput.completed := present (Some true);
     UpdateTodoInput.priority := missing;
     UpdateTodoInput.dueDate := missing;
     UpdateTodoInput.tags := missing |}.

Definition completeTodo (id : string) (now : string)
  (db : TodoDatabase.table) : result Todo.t * TodoDatabase.table :=
  updateTodo id completed_true now db.

(** The object literal [{ completed: false }]. *)
Definition completed_false : UpdateTodoInput.t :=
  {| UpdateTodoInput.title := missing;
     UpdateTodoInput.description := missing;
     UpdateTodoInput.completed := present (Some false);
     UpdateTodoInput.priority := missing;
     UpdateTodoInput.dueDate := missing;
     UpdateTodoInput.tags := missing |}.

Definition uncompleteTodo (id : string) (now : string)
  (db : TodoDatabase.table) : result Todo.t * TodoDatabase.table :=
  updateTodo id completed_false now db.

Definition getCompletedTodos (db : TodoDatabase.table)
  : result (list Todo.t) :=
  TodoDatabase.getCompletedTodos engine db.

Definition getPendingTodos (db : TodoDatabase.table)
  : result (list Todo.t) :=
  TodoDatabase.getPendingTodos engine db.

Definition getTodosByPriority (priority : string) (db : TodoDatabase.table)
  : result (list Todo.t) :=
  TodoDatabase.getTodosByPriority engine priority db.

Definition getTodosByTag (tag : string) (db : TodoDatabase.table)
  : result (list Todo.t) :=
  if blank tag then Throw (Error "Tag is required")
  else TodoDatabase.getTodosByTag engine (trim tag) db.

Definition getOverdueTodos (now : string) (db : TodoDatabase.table)
  : result (list Todo.t) :=
  TodoDatabase.getOverdueTodos engine now db.

Definition getAllTags (db : TodoDatabase.table) : list string :=
  TodoDatabase.getAllTags db.

Definition getStats (now : string) (db : TodoDatabase.table) : result Stats :=
  bind (getAllTodos None db) (fun allTodos =>
  bind (getOverdueTodos now db) (fun overdueTodos =>
    let completed := List.length (List.filter is_completed allTodos) in
    let pending := List.length allTodos - completed in
    let byPriority :=
      fold_left (fun acc todo => increment (key_of (Todo.priority todo)) acc)
        allTodos [("low", Num 0); ("medium", Num 0); ("high", Num 0)] in
    Ok {| total := List.length allTodos;
          completed := completed;
          pending := pending;
          overdue := List.length overdueTodos;
          byPriority := byPriority |})).

(** The test a todo passes in [searchTodos]; [||] stops at the first
    operand that holds, and reading [some] of [undefined] throws. *)
Definition matches (searchTerm : string) (todo : Todo.t) : result bool :=
  if includes (toLowerCase (Todo.title todo)) searchTerm then Ok true
  else if match Todo.description todo with
          | val d => includes (toLowerCase d) searchTerm
          | _ => false
          end
  then Ok true
  else
    match Todo.tags todo with
    | Some tags =>
        Ok (existsb (fun tag => includes (toLowerCase tag) searchTerm) tags)
    | None => Throw TypeError
    end.

Definition searchTodos (query : string) (db : TodoDatabase.table)
  : result (list Todo.t) :=
  if blank query then getAllTodos None db
  else
    bind (getAllTodos None db) (fun allTodos =>
      let searchTerm := trim (toLowerCase query) in
      filterM (matches searchTerm) allTodos).

End Service.
End TodoService.

(* ===================================================================== *)
(** ** Three tools of the protocol adapter (src/mcp-server.ts) *)
(* ===================================================================== *)

Module McpServer.
Import Js.

(** The handler of [update_todo] destructures its arguments and builds the
    object [{ title, description, completed, priority, dueDate, tags }]:
    all six keys are present, and an argument the request left out holds
    [undefined]. *)
Definition update_todo_input (title description : option string)
  (completed : option bool) (priority dueDate : option string)
  (tags : option (list string)) : UpdateTodoInput.t :=
  {| UpdateTodoInput.title := present title;
     UpdateTodoInput.description := present description;
     UpdateTodoInput.completed := present completed;
     UpdateTodoInput.priority := present priority;
     UpdateTodoInput.dueDate := present dueDate;
     UpdateTodoInput.tags := present tags |}.

(** The todos the tool [list_todos] reports: the filtered listing cut to
    its first [limit] entries by [todos.slice(0, limit)].  The schema lets
    through a number from 1 to 100, of which [slice] uses the integer
    part: that is [limit] here.  The text the handler then prints for each
    todo is left out. *)
Definition list_todos (engine : TodoDatabase.plan) (completed : option bool)
  (priority tag : option string) (limit : nat) (db : TodoDatabase.table)
  : result (list Todo.t) :=
  bind (TodoService.getAllTodos engine
          (Some (TodoFilter.mk completed priority tag None None)) db)
    (fun todos => Ok (firstn limit todos)).

(** The todos the tool [search_todos] reports. *)
Definition search_todos (engine : TodoDatabase.plan)
  (toLowerCase : string -> string) (query : string) (limit : nat)
  (db : TodoDatabase.table) : result (list Todo.t) :=
  bind (TodoService.searchTodos engine toLowerCase query db)
    (fun todos => Ok (firstn limit todos)).

End McpServer.

(* ===================================================================== *)
(** ** The properties, in the words of the specification *)
(* ===================================================================== *)

Module Spec.
Import Js.

(** [t] is a substring of [s]. *)
Definition occurs_in (t s : string) : Prop := exists a b, s = a ++ t ++ b.

Definition count {A : Type} (f : A -> bool) (l : list A) : nat :=
  List.length (List.filter f l).

(** The test of the overdue statement, read on a todo: not completed, a
    due date present, and the text of that due date before the text of
    [now] in the order of the table.  Whether that is the order of the
    instants depends on how the texts are written: see [past_due]. *)
Definition text_overdue (now : string) (todo : Todo.t) : bool :=
  match Todo.completed todo, Todo.dueDate todo with
  | Some false, val d => Sqlite.text_lt d now
  | _, _ => false
  end.

Definition is_done (todo : Todo.t) : bool :=
  match Todo.completed todo with
  | Some true => true
  | _ => false
  end.

Definition has_priority (p : string) (todo : Todo.t) : bool :=
  match Todo.priority todo with
  | val q => (q =? p)%string
  | _ => false
  end.

(** A search hit: the term is a substring of the lowercased title, or of
    the lowercased description when there is one, or of the lowercased
    form of some tag. *)
Definition search_hit (lower : string -> string) (term : string)
  (todo : Todo.t) : Prop :=
  occurs_in term (lower (Todo.title todo)) \/
  (exists d, Todo.description todo = val d /\ occurs_in term (lower d)) \/
  (exists tags tag,
     Todo.tags todo = Some tags /\ In tag tags /\
     occurs_in term (lower tag)).

(** The same test as a function. *)
Definition search_hitb (lower : string -> string) (term : string)
  (todo : Todo.t) : bool :=
  includes (lower (Todo.title todo)) term ||
  match Todo.description todo with
  | val d => includes (lower d) term
  | _ => false
  end ||
  match Todo.tags todo with
  | Some tags => existsb (fun tag => includes (lower tag) term) tags
  | None => false
  end.

(** Descending by the text of the creation time. *)
Definition created_ge (a b : Todo.t) : Prop :=
  Sqlite.text_le (Todo.createdAt b) (Todo.createdAt a) = true.

(** *** Instants *)

(** A reading of the calendar and the clock. *)
Record moment : Type := at_moment {
  year : Z;
  month : Z;
  day : Z;
  hour : Z;
  minute : Z;
  second : Z;
  milli : Z
}.

Definition leap (y : Z) : bool :=
  ((y mod 4 =? 0) && (negb (y mod 100 =? 0) || (y mod 400 =? 0)))%Z.

Definition days_in_month (y m : Z) : Z :=
  (if m =? 2 then (if leap y then 29 else 28)
   else if (m =? 4) || (m =? 6) || (m =? 9) || (m =? 11) then 30
   else 31)%Z.

(** A reading that exists in the Gregorian calendar, with a year of four
    digits. *)
Definition valid (t : moment) : bool :=
  ((0 <=? year t) && (year t <=? 9999) &&
   (1 <=? month t) && (month t <=? 12) &&
   (1 <=? day t) && (day t <=? days_in_month (year t) (month t)) &&
   (0 <=? hour t) && (hour t <=? 23) &&
   (0 <=? minute t) && (minute t <=? 59) &&
   (0 <=? second t) && (second t <=? 59) &&
   (0 <=? milli t) && (milli t <=? 999))%Z.

(** The days from 1 January of the year 0 to 1 January of the year [y]:
    365 a year, and one more for every leap year before [y]. *)
Definition days_before_year (y : Z) : Z :=
  (365 * y + (y + 3) / 4 - (y + 99) / 100 + (y + 399) / 400)%Z.

(** The days from 1 January to the first of the month [m]. *)
Definition days_before_month (y m : Z) : Z :=
  (nth (Z.to_nat (m - 1))
     [0; 31; 59; 90; 120; 151; 181; 212; 243; 273; 304; 334] 0 +
   (if leap y && (2 <? m) then 1 else 0))%Z.

(** The days from 1 January 1970, which is day 719528 counted from
    1 January of the year 0. *)
Definition epoch_day (y m d : Z) : Z :=
  (days_before_year y + days_before_month y m + (d - 1) - 719528)%Z.

(** The instant of a reading taken as UTC, in milliseconds since
    1970-01-01T00:00:00.000Z: the time value of a [Date]. *)
Definition time (t : moment) : Z :=
  ((((epoch_day (year t) (month t) (day t) * 24 + hour t) * 60 + minute t)
    * 60 + second t) * 1000 + milli t)%Z.

Definition digit_char (d : Z) : ascii := ascii_of_N (48 + Z.to_N d).

Definition pad2 (n : Z) : string :=
  String (digit_char (n / 10)) (String (digit_char (n mod 10)) "").

Definition pad3 (n : Z) : string :=
  String (digit_char (n / 100)) (pad2 (n mod 100)).

Definition pad4 (n : Z) : string :=
  String (digit_char (n / 1000)) (pad3 (n mod 1000)).

(** [Date.prototype.toISOString] for a year of four digits:
    [YYYY-MM-DDTHH:mm:ss.sssZ]. *)
Definition toISOString (t : moment) : string :=
  pad4 (year t) ++ "-" ++ pad2 (month t) ++ "-" ++ pad2 (day t) ++ "T" ++
  pad2 (hour t) ++ ":" ++ pad2 (minute t) ++ ":" ++ pad2 (second t) ++ "." ++
  pad3 (milli t) ++ "Z".

Definition digit (c : ascii) : option Z :=
  if ((48 <=? code c) && (code c <=? 57))%N then Some (Z.of_N (code c) - 48)%Z
  else None.

(** Reads a number of exactly [width] digits. *)
Fixpoint number (width : nat) (acc : Z) (s : string) : option (Z * string) :=
  match width with
  | O => Some (acc, s)
  | S width' =>
      match s with
      | String c r =>
          match digit c with
          | Some d => number width' (acc * 10 + d)%Z r
          | None => None
          end
      | EmptyString => None
      end
  end.

Definition expect (c : ascii) (s : string) : option string :=
  match s with
  | String d r => if (d =? c)%char then Some r else None
  | EmptyString => None
  end.

(** The offset from UTC that ends a date-time, in minutes: [Z], [+HH:mm]
    or [-HH:mm]. *)
Definition zone (s : string) : option Z :=
  match s with
  | String c r =>
      if (c =? "Z")%char then (if (r =? "")%string then Some 0%Z else None)
      else if ((c =? "+") || (c =? "-"))%char then
        match number 2 0 r with
        | Some (h, r1) =>
            match expect ":" r1 with
            | Some r2 =>
                match number 2 0 r2 with
                | Some (m, r3) =>
                    if ((r3 =? "")%string && (h <=? 23)%Z && (m <=? 59)%Z)
                    then Some (if (c =? "+")%char then h * 60 + m
                               else - (h * 60 + m))%Z
                    else None
                | None => None
                end
            | None => None
            end
        | None => None
        end
      else None
  | EmptyString => None
  end.

(** The clock part after the [T]: [HH:mm], [HH:mm:ss] or [HH:mm:ss.sss],
    then the offset. *)
Definition read_clock (s : string) : option (Z * Z * Z * Z * Z) :=
  match number 2 0 s with
  | Some (h, s1) =>
      match expect ":" s1 with
      | Some s2 =>
          match number 2 0 s2 with
          | Some (mi, s3) =>
              match expect ":" s3 with
              | Some s4 =>
                  match number 2 0 s4 with
                  | Some (sec, s5) =>
                      match expect "." s5 with
                      | Some s6 =>
                          match number 3 0 s6 with
                          | Some (ms, s7) =>
                              option_map (fun off => (h, mi, sec, ms, off))
                                (zone s7)
                          | None => None
                          end
                      | None =>
                          option_map (fun off => (h, mi, sec, 0%Z, off))
                            (zone s5)
                      end
                  | None => None
                  end
              | None =>
                  option_map (fun off => (h, mi, 0%Z, 0%Z, off)) (zone s3)
              end
          | None => None
          end
      | None => None
      end
  | None => None
  end.

(** The reading and the offset written by a text in the date-time format
    of ECMAScript: [YYYY-MM-DD] alone, which stands for midnight UTC, or
    [YYYY-MM-DDT] followed by a clock part and an offset.  Other texts
    that [Date] accepts have no reading here; among them are the texts
    without an offset, which [Date] takes as local time. *)
Definition read_date (s : string) : option (moment * Z) :=
  match number 4 0 s with
  | Some (y, s1) =>
      match expect "-" s1 with
      | Some s2 =>
          match number 2 0 s2 with
          | Some (mo, s3) =>
              match expect "-" s3 with
              | Some s4 =>
                  match number 2 0 s4 with
                  | Some (d, s5) =>
                      match s5 with
                      | EmptyString => Some (at_moment y mo d 0 0 0 0, 0%Z)
                      | String c s6 =>
                          if (c =? "T")%char then
                            match read_clock s6 with
                            | Some (h, mi, sec, ms, off) =>
                                Some (at_moment y mo d h mi sec ms, off)
                            | None => None
                            end
                          else None
                      end
                  | None => None
                  end
              | None => None
              end
          | None => None
          end
      | None => None
      end
  | None => None
  end.

(** The instant a text denotes, in milliseconds since the epoch: the
    reading is local to the offset, so the offset is taken off. *)
Definition instant (s : string) : option Z :=
  match read_date s with
  | Some (t, off) =>
      if valid t then Some (time t - off * 60000)%Z else None
  | None => None
  end.

(** A text in the form the clock writes: what [toISOString] gives for the
    instant it denotes. *)
Definition normal (s : string) : bool :=
  match read_date s with
  | Some (t, off) => valid t && (off =? 0)%Z && (toISOString t =? s)%string
  | None => false
  end.

(** The date of a reading as the clock writes it: [YYYY-MM-DD]. *)
Definition date_text (t : moment) : string :=
  pad4 (year t) ++ "-" ++ pad2 (month t) ++ "-" ++ pad2 (day t).

Definition midnight (t : moment) : bool :=
  ((hour t =? 0) && (minute t =? 0) && (second t =? 0) && (milli t =? 0))%Z.

(** A text that is a date alone, [YYYY-MM-DD], the other form in which
    the tools document a due date: [Date] reads it as midnight UTC of
    that day. *)
Definition date_only (s : string) : bool :=
  match read_date s with
  | Some (t, off) =>
      valid t && (off =? 0)%Z && midnight t && (date_text t =? s)%string
  | None => false
  end.

Definition earlier (a b : string) : bool :=
  match instant a, instant b with
  | Some x, Some y => (x <? y)%Z
  | _, _ => false
  end.

Definition not_later (a b : string) : bool :=
  match instant a, instant b with
  | Some x, Some y => (x <=? y)%Z
  | _, _ => false
  end.

(** Overdue at the instant [now]: not completed, a due date present, and
    the instant of that due date strictly earlier than [now]. *)
Definition past_due (now : string) (todo : Todo.t) : bool :=
  match Todo.completed todo, Todo.dueDate todo with
  | Some false, val d => earlier d now
  | _, _ => false
  end.



(** A table whose creation times and due dates are all in the form the
    clock writes. *)
Definition stamped_row (row : Row.t) : bool :=
  normal (Row.created_at row) &&
  match Row.due_date row with
  | Some d => normal d
  | None => true
  end.

Definition stamped (db : TodoDatabase.table) : Prop :=
  forallb stamped_row db = true.

(** Lexicographic combination of two comparisons. *)
Definition and_then (c k : comparison) : comparison :=
  match c with
  | Eq => k
  | o => o
  end.

(** The comparison of two readings field by field, from the year down. *)
Definition fields_compare (a b : moment) : comparison :=
  and_then (year a ?= year b)%Z
    (and_then (month a ?= month b)%Z
       (and_then (day a ?= day b)%Z
          (and_then (hour a ?= hour b)%Z
             (and_then (minute a ?= minute b)%Z
                (and_then (second a ?= second b)%Z
                   (milli a ?= milli b)%Z))))).

(** *** Records *)

(** The tag list a row stores: the list whose JSON text, as
    [JSON.stringify] writes it, is in the [tags] column, or no tag for a
    NULL column. *)
Definition tags_stored (row : Row.t) (tags : list string) : Prop :=
  Row.tags row = Some (JSON.stringify tags) \/
  (Row.tags row = None /\ tags = []).

(** The record a row stores: column by column, with [null] for a NULL
    text, [completed] for a column that is not 0, and the tag list the
    row stores. *)
Definition record_of (row : Row.t) (todo : Todo.t) : Prop :=
  Todo.id todo = Row.id row /\
  Todo.title todo = Row.title row /\
  Todo.description todo =
    match Row.description row with Some d => val d | None => null end /\
  Todo.completed todo = Some (negb (Row.completed row =? 0)%Z) /\
  Todo.priority todo =
    match Row.priority row with Some p => val p | None => null end /\
  Todo.dueDate todo =
    match Row.due_date row with Some d => val d | None => null end /\
  (forall tags, tags_stored row tags -> Todo.tags todo = Some tags) /\
  Todo.createdAt todo = Row.created_at row /\
  Todo.updatedAt todo = Row.updated_at row.

(** [all] holds the record of every row of the table, once each, in
    some order. *)
Definition lists_records (db : TodoDatabase.table) (all : list Todo.t)
  : Prop :=
  exists rows, Permutation rows db /\ Forall2 record_of rows all.

(** A tag whose pattern LIKE accepts: the pattern is the tag and four
    more bytes, and may have 50000. *)
Definition short (tag : string) : bool :=
  (N.of_nat (String.length tag) <=? 49996)%N.

(** A filter whose tag, if it has one, is short. *)
Definition short_tag (filter : option TodoFilter.t) : bool :=
  match filter with
  | Some f =>
      match TodoFilter.tag f with
      | Some t => short t
      | None => true
      end
  | None => true
  end.


(** A tag of printable ASCII characters other than the double quote and
    the backslash: JSON writes it as it is. *)
Definition plain_char (c : ascii) : bool :=
  ((32 <=? code c) && (code c <? 127) &&
   negb (code c =? 34) && negb (code c =? 92))%N.

Definition plain_tag (tag : string) : bool :=
  forallb plain_char (list_ascii_of_string tag).

(** Every row of the table converts to a todo: its [tags] column is NULL
    or holds the JSON text of an array of strings. *)
Definition readable_row (row : Row.t) : bool :=
  match TodoDatabase.rowToTodo row with
  | Ok _ => true
  | Throw _ => false
  end.

Definition readable (db : TodoDatabase.table) : Prop :=
  forallb readable_row db = true.

(** The tables the service reaches from the empty one. *)
Inductive reachable (valid_date : string -> bool)
  : TodoDatabase.table -> Prop :=
  | reach_empty : reachable valid_date []
  | reach_create (input : CreateTodoInput.t) (uuid now : string)
      (db : TodoDatabase.table) :
      reachable valid_date db ->
      reachable valid_date
        (snd (TodoService.createTodo valid_date input uuid now db))
  | reach_update (id : string) (input : UpdateTodoInput.t) (now : string)
      (db : TodoDatabase.table) :
      reachable valid_date db ->
      reachable valid_date
        (snd (TodoService.updateTodo valid_date id input now db))
  | reach_delete (id : string) (db : TodoDatabase.table) :
      reachable valid_date db ->
      reachable valid_date (snd (TodoService.deleteTodo id db)).

(** No row of the table has the identifier [id]. *)
Definition unknown (id : string) (db : TodoDatabase.table) : Prop :=
  forall row, In row db -> Row.id row <> id.

(** A todo as it reads back from the row written for it: an optional text
    that was [undefined] or empty is [null]. *)
Definition as_stored (todo : Todo.t) : Todo.t :=
  {| Todo.id := Todo.id todo;
     Todo.title := Todo.title todo;
     Todo.description := TodoDatabase.of_column (or_null (Todo.description todo));
     Todo.completed := Todo.completed todo;
     Todo.priority := Todo.priority todo;
     Todo.dueDate := TodoDatabase.of_column (or_null (Todo.dueDate todo));
     Todo.tags := Todo.tags todo;
     Todo.createdAt := Todo.createdAt todo;
     Todo.updatedAt := Todo.updatedAt todo |}.

(** A text as the service stores it after trimming: not empty, and with
    nothing left to trim. *)
Definition clean_text (s : string) : bool :=
  truthy s && (trim s =? s)%string.

(** What the service writes into a row: a clean title; a description that
    is NULL or clean; 0 or 1 in [completed]; a due date that is NULL or not
    empty; and in [tags] NULL or the JSON text, exactly as [stringify]
    writes it, of a list of clean tags. *)
Definition sound_row (row : Row.t) : bool :=
  clean_text (Row.title row) &&
  match Row.description row with
  | Some d => clean_text d
  | None => true
  end &&
  ((Row.completed row =? 0)%Z || (Row.completed row =? 1)%Z) &&
  match Row.due_date row with
  | Some d => truthy d
  | None => true
  end &&
  match Row.tags row with
  | Some text =>
      match JSON.parse text with
      | Some tags =>
          (JSON.stringify tags =? text)%string && forallb clean_text tags
      | None => false
      end
  | None => true
  end.

Definition sound (db : TodoDatabase.table) : Prop :=
  forallb sound_row db = true.

(** The same on the todo read from a row. *)
Definition sound_todo (todo : Todo.t) : bool :=
  clean_text (Todo.title todo) &&
  match Todo.description todo with
  | val d => clean_text d
  | null => true
  | undefined => false
  end &&
  match Todo.completed todo with
  | Some _ => true
  | None => false
  end &&
  match Todo.priority todo with
  | undefined => false
  | _ => true
  end &&
  match Todo.dueDate todo with
  | val d => truthy d
  | null => true
  | undefined => false
  end &&
  match Todo.tags todo with
  | Some tags => forallb clean_text tags
  | None => false
  end.

(** A todo whose row, once written, is sound: a clean title, a description
    that is clean unless it is missing or empty, and clean tags if any. *)
Definition writable (todo : Todo.t) : bool :=
  clean_text (Todo.title todo) &&
  match Todo.description todo with
  | val d => negb (truthy d) || clean_text d
  | _ => true
  end &&
  match Todo.tags todo with
  | Some tags => forallb clean_text tags
  | None => true
  end.

(** A todo as it reads back from the row an UPDATE wrote for it. *)
Definition read_back (todo : Todo.t) : Todo.t :=
  {| Todo.id := Todo.id todo;
     Todo.title := Todo.title todo;
     Todo.description := TodoDatabase.of_column (or_null (Todo.description todo));
     Todo.completed :=
       Some (negb (TodoDatabase.bind_flag (Todo.completed todo) =? 0)%Z);
     Todo.priority :=
       TodoDatabase.of_column (TodoDatabase.bind_text (Todo.priority todo));
     Todo.dueDate := TodoDatabase.of_column (or_null (Todo.dueDate todo));
     Todo.tags :=
       Some (match Todo.tags todo with
             | Some tags => tags
             | None => []
             end);
     Todo.createdAt := Todo.createdAt todo;
     Todo.updatedAt := Todo.updatedAt todo |}.

(** The conditions of a filter other than its tag, on a todo. *)
Definition passes (filter : TodoFilter.t) (todo : Todo.t) : bool :=
  match TodoFilter.completed filter with
  | Some b =>
      match Todo.completed todo with
      | Some c => Bool.eqb c b
      | None => false
      end
  | None => true
  end &&
  match TodoFilter.priority filter with
  | Some p => if truthy p then has_priority p todo else true
  | None => true
  end &&
  match TodoFilter.dueBefore filter with
  | Some b =>
      if truthy b then
        match Todo.dueDate todo with
        | val d => Sqlite.text_le d b
        | _ => false
        end
      else true
  | None => true
  end &&
  match TodoFilter.dueAfter filter with
  | Some a =>
      if truthy a then
        match Todo.dueDate todo with
        | val d => Sqlite.text_le a d
        | _ => false
        end
      else true
  | None => true
  end.

(** Not completed. *)
Definition is_open (todo : Todo.t) : bool :=
  match Todo.completed todo with
  | Some false => true
  | _ => false
  end.

(** The todo [todo] with its [completed] and [updatedAt] replaced. *)
Definition with_flag (todo : Todo.t) (flag : bool) (now : string) : Todo.t :=
  {| Todo.id := Todo.id todo;
     Todo.title := Todo.title todo;
     Todo.description := Todo.description todo;
     Todo.completed := Some flag;
     Todo.priority := Todo.priority todo;
     Todo.dueDate := Todo.dueDate todo;
     Todo.tags := Todo.tags todo;
     Todo.createdAt := Todo.createdAt todo;
     Todo.updatedAt := now |}.

(** The filter has no tag, or an empty one, which the query ignores. *)
Definition no_tag (filter : TodoFilter.t) : bool :=
  match TodoFilter.tag filter with
  | Some t => negb (truthy t)
  | None => true
  end.

(** A group of bytes that [chars] returns: one byte, then continuation
    bytes only. *)
Fixpoint all_cont (s : string) : bool :=
  match s with
  | EmptyString => true
  | String c r => is_cont c && all_cont r
  end.

Definition group (g : string) : bool :=
  match g with
  | EmptyString => false
  | String _ r => all_cont r
  end.

(** A list of groups in which every group but the first opens with a byte
    that is not a continuation byte. *)
Definition grouped (l : list string) : Prop :=
  Forall (fun g => group g = true) l /\
  Forall (fun g => starts_with_cont g = false) (tl l).

(** The characters [trim] keeps. *)
Definition trimmed_chars (s : string) : list string :=
  rev (dropWhile is_ws (rev (dropWhile is_ws (chars s)))).

End Spec.

(* ===================================================================== *)
(** ** A small table, built by the service itself *)
(* ===================================================================== *)

Module Examples.
Import Js.

(** A date parser that accepts every text, and the lowercase of ASCII
    text: enough to run the service on the inputs below. *)
Definition any_date (s : string) : bool := true.

Definition ascii_lower (s : string) : string :=
  string_of_list_ascii (map Sqlite.to_lower (list_ascii_of_string s)).

(** A date parser that accepts the texts with a reading in the date-time
    format of ECMAScript, all of which [Date] accepts. *)
Definition iso_date (s : string) : bool :=
  match Spec.instant s with
  | Some _ => true
  | None => false
  end.

(** One choice of plans, of the kind the engine makes with the indexes
    of the schema: the statement without a WHERE clause reads the index
    on [created_at] backwards and so meets the newest row first; every
    other statement is taken to meet the rows in table order, as one
    that finds its rows through the index of an equality does. *)
Definition observed : TodoDatabase.plan :=
  {| Sqlite.visit := fun q rows =>
       match q with
       | TodoDatabase.select_todos None => rev rows
       | _ => rows
       end;
     Sqlite.visit_perm := fun q rows =>
       match q as q0 return
         Permutation
           match q0 with
           | TodoDatabase.select_todos None => rev rows
           | _ => rows
           end rows
       with
       | TodoDatabase.select_todos None =>
           Permutation_sym (Permutation_rev rows)
       | _ => Permutation_refl rows
       end |}.

Definition monday : string := "2026-03-02T09:00:00.000Z".
Definition tuesday : string := "2026-03-03T09:00:00.000Z".
Definition wednesday : string := "2026-03-04T09:00:00.000Z".
Definition thursday : string := "2026-03-05T09:00:00.000Z".
Definition friday : string := "2026-03-06T09:00:00.000Z".

(** A tag of three characters: a, a double quote, b. *)
Definition quoted_tag : string := String "a" (String dquote "b").

Definition groceries : CreateTodoInput.t :=
  {| CreateTodoInput.title := "Buy groceries";
     CreateTodoInput.description := None;
     CreateTodoInput.priority := None;
     CreateTodoInput.dueDate := None;
     CreateTodoInput.tags := Some ["Work"; "health"] |}.

Definition review : CreateTodoInput.t :=
  {| CreateTodoInput.title := "Review docs";
     CreateTodoInput.description := Some "Read the protocol docs";
     CreateTodoInput.priority := Some "high";
     CreateTodoInput.dueDate := Some "2026-03-03T12:00:00.000Z";
     CreateTodoInput.tags := Some ["work"] |}.

Definition exercise : CreateTodoInput.t :=
  {| CreateTodoInput.title := "Exercise";
     CreateTodoInput.description := Some " ";
     CreateTodoInput.priority := Some "low";
     CreateTodoInput.dueDate := None;
     CreateTodoInput.tags := Some ["abc"; quoted_tag] |}.

Definition title_only : CreateTodoInput.t :=
  {| CreateTodoInput.title := " Call the bank ";
     CreateTodoInput.description := None;
     CreateTodoInput.priority := None;
     CreateTodoInput.dueDate := None;
     CreateTodoInput.tags := None |}.

Definition db1 : TodoDatabase.table :=
  snd (TodoService.createTodo any_date groceries "id-1" monday []).

Definition db2 : TodoDatabase.table :=
  snd (TodoService.createTodo any_date review "id-2" tuesday db1).

Definition db3 : TodoDatabase.table :=
  snd (TodoService.createTodo any_date exercise "id-3" wednesday db2).

(** The todo returned by the third creation. *)
Definition created_exercise : Todo.t :=
  {| Todo.id := "id-3";
     Todo.title := "Exercise";
     Todo.description := val "";
     Todo.completed := Some false;
     Todo.priority := val "low";
     Todo.dueDate := undefined;
     Todo.tags := Some ["abc"; quoted_tag];
     Todo.createdAt := wednesday;
     Todo.updatedAt := wednesday |}.

(** The same todo as a fetch reads it. *)
Definition created_exercise_stored : Todo.t :=
  {| Todo.id := "id-3";
     Todo.title := "Exercise";
     Todo.description := null;
     Todo.completed := Some false;
     Todo.priority := val "low";
     Todo.dueDate := null;
     Todo.tags := Some ["abc"; quoted_tag];
     Todo.createdAt := wednesday;
     Todo.updatedAt := wednesday |}.

(** The second todo once completed, on Thursday. *)
Definition completed_review : Todo.t :=
  {| Todo.id := "id-2";
     Todo.title := "Review docs";
     Todo.description := val "Read the protocol docs";
     Todo.completed := Some true;
     Todo.priority := val "high";
     Todo.dueDate := val "2026-03-03T12:00:00.000Z";
     Todo.tags := Some ["work"];
     Todo.createdAt := tuesday;
     Todo.updatedAt := thursday |}.

(** The filter [{ completed: false, priority: "low" }]. *)
Definition open_and_low : TodoFilter.t :=
  TodoFilter.mk (Some false) (Some "low") None None None.

(** The table after the second todo was completed. *)
Definition db4 : TodoDatabase.table :=
  snd (TodoService.completeTodo any_date "id-2" thursday db3).

(** A tab, a space and a no-break space. *)
Definition blank_id : string := bytes [9; 32; 194; 160]%N.

(** A row to fall back on when reading the head of a table. *)
Definition no_row : Row.t :=
  Row.mk "" "" None 0 None None None "" "".

Definition by_tag (tag : string) : option TodoFilter.t :=
  Some (TodoFilter.mk None None (Some tag) None None).

(** The request [update_todo {id, title, priority, tags}]: description,
    completed and dueDate are left out. *)
Definition retitle : UpdateTodoInput.t :=
  McpServer.update_todo_input (Some "Review the docs") None None
    (Some "high") None (Some ["work"]).

(** The request [update_todo {id, completed: true}]. *)
Definition only_completed : UpdateTodoInput.t :=
  McpServer.update_todo_input None None (Some true) None None None.

(** The table after the deletion of the second todo. *)
Definition db_without_review : TodoDatabase.table :=
  snd (TodoService.deleteTodo "id-2" db3).

(** The todo the request [retitle] returns on Friday, and the table it
    leaves. *)
Definition retitled : Todo.t :=
  {| Todo.id := "id-2";
     Todo.title := "Review the docs";
     Todo.description := undefined;
     Todo.completed := None;
     Todo.priority := val "high";
     Todo.dueDate := undefined;
     Todo.tags := Some ["work"];
     Todo.createdAt := tuesday;
     Todo.updatedAt := friday |}.

Definition db5 : TodoDatabase.table :=
  snd (TodoService.updateTodo any_date "id-2" retitle friday db4).

(** Two todos whose due dates carry an offset from UTC: the first is due
    at 05:00 UTC on Friday, the second at 06:00 UTC. *)
Definition flight : CreateTodoInput.t :=
  {| CreateTodoInput.title := "Check in";
     CreateTodoInput.description := None;
     CreateTodoInput.priority := None;
     CreateTodoInput.dueDate := Some "2026-03-06T10:00:00+05:00";
     CreateTodoInput.tags := None |}.

Definition call : CreateTodoInput.t :=
  {| CreateTodoInput.title := "Call back";
     CreateTodoInput.description := None;
     CreateTodoInput.priority := None;
     CreateTodoInput.dueDate := Some "2026-03-06T01:00:00-05:00";
     CreateTodoInput.tags := None |}.

Definition db6 : TodoDatabase.table :=
  snd (TodoService.createTodo iso_date call "id-5" thursday
         (snd (TodoService.createTodo iso_date flight "id-4" wednesday []))).

(** The two todos as a listing reads them. *)
Definition stored_flight : Todo.t :=
  {| Todo.id := "id-4";
     Todo.title := "Check in";
     Todo.description := null;
     Todo.completed := Some false;
     Todo.priority := val "medium";
     Todo.dueDate := val "2026-03-06T10:00:00+05:00";
     Todo.tags := Some [];
     Todo.createdAt := wednesday;
     Todo.updatedAt := wednesday |}.

Definition stored_call : Todo.t :=
  {| Todo.id := "id-5";
     Todo.title := "Call back";
     Todo.description := null;
     Todo.completed := Some false;
     Todo.priority := val "medium";
     Todo.dueDate := val "2026-03-06T01:00:00-05:00";
     Todo.tags := Some [];
     Todo.createdAt := thursday;
     Todo.updatedAt := thursday |}.

Definition seven : string := "2026-03-06T07:00:00.000Z".

(** A todo whose due date is a date alone, the table that holds it, the
    todo as a listing reads it, and the midnight that opens its day. *)
Definition rent : CreateTodoInput.t :=
  {| CreateTodoInput.title := "Pay rent";
     CreateTodoInput.description := None;
     CreateTodoInput.priority := None;
     CreateTodoInput.dueDate := Some "2026-03-06";
     CreateTodoInput.tags := None |}.

Definition db8 : TodoDatabase.table :=
  snd (TodoService.createTodo iso_date rent "id-6" monday []).

Definition stored_rent : Todo.t :=
  {| Todo.id := "id-6";
     Todo.title := "Pay rent";
     Todo.description := null;
     Todo.completed := Some false;
     Todo.priority := val "medium";
     Todo.dueDate := val "2026-03-06";
     Todo.tags := Some [];
     Todo.createdAt := monday;
     Todo.updatedAt := monday |}.

Definition friday_midnight : string := "2026-03-06T00:00:00.000Z".

(** Three todos created within the same millisecond. *)
Definition first : CreateTodoInput.t :=
  CreateTodoInput.mk "First" None None None None.
Definition second : CreateTodoInput.t :=
  CreateTodoInput.mk "Second" None None None None.
Definition third : CreateTodoInput.t :=
  CreateTodoInput.mk "Third" None None None None.

Definition db7 : TodoDatabase.table :=
  snd (TodoService.createTodo any_date third "t-3" monday
         (snd (TodoService.createTodo any_date second "t-2" monday
                 (snd (TodoService.createTodo any_date first "t-1" monday
                         []))))).

(** A tag of 49997 bytes, one more than LIKE accepts in a pattern with
    the four bytes around it. *)
Definition long_tag : string :=
  string_of_list_ascii (repeat "a"%char (N.to_nat 49997)).

End Examples.

(* ===================================================================== *)
(** ** Facts about the string primitives *)
(* ===================================================================== *)

Module JsFacts.
Import Js.

Lemma append_nil_r (s : string) : s ++ "" = s.
Proof. induction s as [|c s IH]; simpl; [reflexivity | now rewrite IH]. Qed.

Lemma append_assoc (a b c : string) : (a ++ b) ++ c = a ++ (b ++ c).
Proof. induction a as [|x a IH]; simpl; [reflexivity | now rewrite IH]. Qed.

Lemma append_eq_nil (a b : string) : a ++ b = "" -> a = "" /\ b = "".
Proof. destruct a; simpl; [auto | discriminate]. Qed.

(** *** Characters *)

Lemma chars_not_empty (s : string) : Forall (fun ch => ch <> "") (chars s).
Proof.
  induction s as [|c s IH]; simpl; [constructor|].
  destruct (chars s) as [|h t]; [repeat constructor; discriminate|].
  inversion IH; subst.
  destruct (starts_with_cont h); constructor; try discriminate; auto.
Qed.

Lemma join_chars (s : string) : join (chars s) = s.
Proof.
  induction s as [|c s IH]; simpl; [reflexivity|].
  destruct (chars s) as [|h t]; simpl in *; [now subst|].
  destruct (starts_with_cont h); simpl; now rewrite IH.
Qed.

Lemma join_eq_nil (l : list string) :
  Forall (fun ch => ch <> "") l -> join l = "" -> l = [].
Proof.
  destruct 1 as [|x l Hx _]; [reflexivity|]; simpl; intros H.
  apply append_eq_nil in H. now destruct H.
Qed.

(** *** Dropping a prefix *)

Lemma dropWhile_nil {A : Type} (f : A -> bool) (l : list A) :
  dropWhile f l = [] <-> Forall (fun x => f x = true) l.
Proof.
  induction l as [|x l IH]; simpl.
  - split; constructor.
  - destruct (f x) eqn:E.
    + rewrite IH. split; [now constructor | now inversion 1].
    + split; [discriminate | inversion 1; congruence].
Qed.

Lemma dropWhile_In {A : Type} (f : A -> bool) (l : list A) (x : A) :
  In x (dropWhile f l) -> In x l.
Proof.
  induction l as [|y l IH]; simpl; [auto|].
  destruct (f y); simpl; auto.
Qed.

Lemma dropWhile_all {A : Type} (f : A -> bool) (l : list A) :
  Forall (fun x => f x = true) (dropWhile f l) ->
  Forall (fun x => f x = true) l.
Proof.
  induction l as [|y l IH]; simpl; [auto|].
  destruct (f y) eqn:E; [now constructor; auto|].
  inversion 1; congruence.
Qed.

(** *** Trimming *)

Lemma trim_empty_iff (s : string) : trim s = "" <-> whitespace_only s.
Proof.
  unfold trim, whitespace_only. split.
  - intros H. apply join_eq_nil in H.
    + assert (H1 : dropWhile is_ws (rev (dropWhile is_ws (chars s))) = []).
      { rewrite <- (rev_involutive (dropWhile _ _)), H. reflexivity. }
      apply dropWhile_nil in H1. apply dropWhile_all.
      apply Forall_rev in H1. now rewrite rev_involutive in H1.
    + apply Forall_rev. rewrite Forall_forall. intros x Hx.
      apply dropWhile_In, in_rev, dropWhile_In in Hx.
      pose proof (chars_not_empty s) as Hne.
      rewrite Forall_forall in Hne. now apply Hne.
  - intros H. apply dropWhile_nil in H. now rewrite H.
Qed.

Lemma blank_iff (s : string) : blank s = true <-> whitespace_only s.
Proof.
  rewrite <- trim_empty_iff. unfold blank, truthy.
  rewrite negb_involutive. apply String.eqb_eq.
Qed.

Lemma blank_false_iff (s : string) : blank s = false <-> ~ whitespace_only s.
Proof.
  rewrite <- blank_iff. destruct (blank s); split; congruence.
Qed.

Lemma not_whitespace_only (s : string) :
  blank s = false -> ~ whitespace_only s.
Proof. apply blank_false_iff. Qed.

Lemma whitespace_only_blank (s : string) :
  blank s = true -> whitespace_only s.
Proof. apply blank_iff. Qed.

(** *** Occurrence of a substring *)

Lemma prefix_iff (t s : string) :
  prefix t s = true <-> exists b, s = t ++ b.
Proof.
  revert s; induction t as [|c t IH]; intros s; simpl.
  - destruct s; split; eauto.
  - destruct s as [|d s]; simpl.
    + split; [discriminate | intros [b Hb]; discriminate].
    + destruct (ascii_dec c d) as [->|Hne].
      * rewrite IH. split; intros [b Hb]; exists b; congruence.
      * split; [discriminate | intros [b Hb]; congruence].
Qed.

(** [includes s t] holds exactly when [s] is [a ++ t ++ b] for some [a]
    and [b]. *)
Lemma includes_iff (s t : string) :
  includes s t = true <-> exists a b, s = a ++ t ++ b.
Proof.
  induction s as [|c s IH].
  - cbn [includes]. rewrite orb_false_r, prefix_iff. split.
    + intros [b Hb]. now exists "", b.
    + intros [a [b Hab]]. symmetry in Hab.
      apply append_eq_nil in Hab as [-> Hab]. exists b. now simpl.
  - cbn [includes]. rewrite orb_true_iff, IH, prefix_iff. split.
    + intros [[b Hb]|[a [b Hab]]].
      * now exists "", b.
      * exists (String c a), b. simpl. now rewrite Hab.
    + intros [a [b Hab]]. destruct a as [|x a]; simpl in Hab.
      * left. now exists b.
      * right. exists a, b. congruence.
Qed.

End JsFacts.

(* ===================================================================== *)
(** ** Orders on strings and the stable sort *)
(* ===================================================================== *)

Module OrderFacts.
Import Js.

Section Lex.
Variable rank : ascii -> N.
Hypothesis rank_inj : forall c d, rank c = rank d -> c = d.

Lemma lex_compare_antisym (s t : string) :
  lex_compare rank s t = CompOpp (lex_compare rank t s).
Proof.
  revert t; induction s as [|c s IH]; intros [|d t]; simpl; auto.
  rewrite (N.compare_antisym (rank c) (rank d)).
  destruct (rank c ?= rank d)%N; simpl; auto.
Qed.

Lemma lex_compare_eq (s t : string) : lex_compare rank s t = Eq -> s = t.
Proof using rank_inj.
  revert t; induction s as [|c s IH]; intros [|d t]; simpl;
    try discriminate; auto.
  destruct (rank c ?= rank d)%N eqn:E; try discriminate.
  intros H. apply N.compare_eq in E. apply rank_inj in E.
  f_equal; auto.
Qed.

Lemma lex_compare_refl (s : string) : lex_compare rank s s = Eq.
Proof.
  induction s as [|c s IH]; simpl; auto. now rewrite N.compare_refl.
Qed.

Lemma lex_le_trans (a b c : string) :
  lex_compare rank a b <> Gt -> lex_compare rank b c <> Gt ->
  lex_compare rank a c <> Gt.
Proof.
  revert b c; induction a as [|x a IH]; intros [|y b] [|z c]; simpl;
    try congruence.
  destruct (N.compare_spec (rank x) (rank y)) as [Hxy|Hxy|Hxy];
    destruct (N.compare_spec (rank y) (rank z)) as [Hyz|Hyz|Hyz];
    try congruence; intros Hab Hbc.
  - rewrite Hxy, Hyz, N.compare_refl. eauto.
  - assert (Hxz : (rank x < rank z)%N) by lia.
    apply N.compare_lt_iff in Hxz. rewrite Hxz. discriminate.
  - assert (Hxz : (rank x < rank z)%N) by lia.
    apply N.compare_lt_iff in Hxz. rewrite Hxz. discriminate.
  - assert (Hxz : (rank x < rank z)%N) by lia.
    apply N.compare_lt_iff in Hxz. rewrite Hxz. discriminate.
Qed.

Lemma lex_lt_trans (a b c : string) :
  lex_compare rank a b = Lt -> lex_compare rank b c = Lt ->
  lex_compare rank a c = Lt.
Proof using rank_inj.
  intros Hab Hbc.
  destruct (lex_compare rank a c) eqn:E; auto.
  - apply lex_compare_eq in E. subst c.
    rewrite lex_compare_antisym, Hab in Hbc. discriminate.
  - exfalso. apply (lex_le_trans a b c); congruence.
Qed.
End Lex.

Lemma code_inj (c d : ascii) : code c = code d -> c = d.
Proof.
unfold code. intros H.
rewrite <- (ascii_N_embedding c), <- (ascii_N_embedding d). now rewrite H.
Qed.

Lemma unit_rank_inj (c d : ascii) : unit_rank c = unit_rank d -> c = d.
Proof.
unfold unit_rank. intros H. apply code_inj.
assert (Hc : (code c < 256)%N) by apply N_ascii_bounded.
assert (Hd : (code d < 256)%N) by apply N_ascii_bounded.
destruct ((code c =? 238) || (code c =? 239))%N eqn:Ec;
  destruct ((code d =? 238) || (code d =? 239))%N eqn:Ed;
  rewrite ?orb_true_iff, ?orb_false_iff, ?N.eqb_eq, ?N.eqb_neq in *; lia.
Qed.

Lemma string_compare_lex (s t : string) :
String.compare s t = lex_compare code s t.
Proof.
revert t; induction s as [|c s IH]; intros [|d t]; simpl; auto.
unfold Ascii.compare, code. rewrite IH. reflexivity.
Qed.

(** The text order of the database is total and transitive. *)
Lemma text_le_total (a b : string) :
Sqlite.text_le a b = true \/ Sqlite.text_le b a = true.
Proof. apply String.leb_total. Qed.

Lemma text_le_trans (a b c : string) :
Sqlite.text_le a b = true -> Sqlite.text_le b c = true ->
Sqlite.text_le a c = true.
Proof.
unfold Sqlite.text_le, String.leb. rewrite !string_compare_lex.
intros Hab Hbc.
pose proof (lex_le_trans code a b c) as H.
destruct (lex_compare code a b); destruct (lex_compare code b c);
  destruct (lex_compare code a c); try discriminate; auto;
  exfalso; apply H; congruence.
Qed.

Lemma text_lt_le (a b : string) :
Sqlite.text_lt a b = true -> Sqlite.text_le a b = true.
Proof.
unfold Sqlite.text_lt, Sqlite.text_le, String.ltb, String.leb.
destruct (String.compare a b); auto.
Qed.

Lemma text_lt_irrefl (a : string) : Sqlite.text_lt a a = false.
Proof.
unfold Sqlite.text_lt, String.ltb.
now rewrite string_compare_lex, lex_compare_refl.
Qed.

(** The order of [sort] is total, transitive and antisymmetric. *)
Lemma sort_leb_total (a b : string) :
sort_leb a b = true \/ sort_leb b a = true.
Proof.
unfold sort_leb, sort_compare.
rewrite (lex_compare_antisym unit_rank b a).
destruct (lex_compare unit_rank a b); simpl; auto.
Qed.

Lemma sort_leb_trans (a b c : string) :
sort_leb a b = true -> sort_leb b c = true -> sort_leb a c = true.
Proof.
unfold sort_leb, sort_compare. intros Hab Hbc.
pose proof (lex_le_trans unit_rank a b c) as H.
destruct (lex_compare unit_rank a b); destruct (lex_compare unit_rank b c);
  destruct (lex_compare unit_rank a c); try discriminate; auto;
  exfalso; apply H; congruence.
Qed.

Lemma sort_leb_lt (a b : string) :
sort_leb a b = true -> a <> b -> sort_lt a b.
Proof.
unfold sort_leb, sort_lt, sort_compare. intros H Hne.
destruct (lex_compare unit_rank a b) eqn:E; try discriminate; auto.
apply (lex_compare_eq unit_rank unit_rank_inj) in E. contradiction.
Qed.

Lemma sort_lt_irrefl (a : string) : ~ sort_lt a a.
Proof.
unfold sort_lt, sort_compare. rewrite lex_compare_refl. discriminate.
Qed.

Lemma sort_lt_trans (a b c : string) :
sort_lt a b -> sort_lt b c -> sort_lt a c.
Proof. apply (lex_lt_trans unit_rank unit_rank_inj). Qed.

(** *** The sort returns a sorted rearrangement of its input *)

Section Sort.
Context {A : Type}.
Variable le : A -> A -> bool.
Hypothesis le_total : forall a b, le a b = true \/ le b a = true.
Hypothesis le_trans :
  forall a b c, le a b = true -> le b c = true -> le a c = true.

Lemma insert_by_perm (x : A) (l : list A) :
  Permutation (insert_by le x l) (x :: l).
Proof.
  induction l as [|y l IH]; simpl; [reflexivity|].
  destruct (le x y); [reflexivity|].
  rewrite IH. apply perm_swap.
Qed.

Lemma sort_by_perm (l : list A) : Permutation (sort_by le l) l.
Proof.
  induction l as [|x l IH]; simpl; [reflexivity|].
  rewrite insert_by_perm. now constructor.
Qed.

Lemma sort_by_In (l : list A) (x : A) : In x (sort_by le l) <-> In x l.
Proof.
  split; apply Permutation_in;
    [apply sort_by_perm | symmetry; apply sort_by_perm].
Qed.

Lemma insert_by_sorted (x : A) (l : list A) :
  StronglySorted (fun a b => le a b = true) l ->
  StronglySorted (fun a b => le a b = true) (insert_by le x l).
Proof using le_total le_trans.
  induction 1 as [|y l Hs IH Hy]; simpl.
  - repeat constructor.
  - destruct (le x y) eqn:E.
    + constructor; [now constructor|].
      constructor; [exact E|].
      rewrite Forall_forall in *. intros z Hz.
      apply (le_trans x y z); [exact E | now apply Hy].
    + constructor; [exact IH|].
      rewrite Forall_forall in *. intros z Hz.
      apply (Permutation_in _ (insert_by_perm x l)) in Hz.
      destruct Hz as [<-|Hz]; [|now apply Hy].
      destruct (le_total x y) as [H|H]; [congruence | exact H].
Qed.

Lemma sort_by_sorted (l : list A) :
  StronglySorted (fun a b => le a b = true) (sort_by le l).
Proof using le_total le_trans.
  induction l as [|x l IH]; simpl; [constructor|].
  now apply insert_by_sorted.
Qed.
End Sort.

(** Filtering commutes with counting through a rearrangement. *)
Lemma filter_length_perm {A : Type} (f : A -> bool) (l l' : list A) :
Permutation l l' ->
List.length (List.filter f l) = List.length (List.filter f l').
Proof.
induction 1; simpl; auto.
- destruct (f x); simpl; auto.
- destruct (f x), (f y); simpl; auto.
- congruence.
Qed.

Lemma filter_perm {A : Type} (f : A -> bool) (l l' : list A) :
Permutation l l' -> Permutation (List.filter f l) (List.filter f l').
Proof.
induction 1; simpl.
- constructor.
- destruct (f x); [now constructor | assumption].
- destruct (f x), (f y); try reflexivity; apply perm_swap.
- etransitivity; eassumption.
Qed.

(** *** When the keys differ, the sorted order is unique *)

Lemma text_le_antisym (a b : string) :
Sqlite.text_le a b = true -> Sqlite.text_le b a = true -> a = b.
Proof.
unfold Sqlite.text_le, String.leb. rewrite !string_compare_lex.
rewrite (lex_compare_antisym code b a).
destruct (lex_compare code a b) eqn:E; try discriminate.
intros _ _. apply (lex_compare_eq code code_inj) in E. exact E.
Qed.

Lemma sorted_perm_eq {A : Type} (R : A -> A -> Prop) (l : list A) :
forall l',
  (forall a b, In a l -> In b l -> R a b -> R b a -> a = b) ->
  StronglySorted R l -> StronglySorted R l' -> Permutation l l' -> l = l'.
Proof.
induction l as [|x l IH]; intros l' Hanti Hs Hs' Hp.
- apply Permutation_nil in Hp. now subst.
- destruct l' as [|y l'];
    [apply Permutation_sym, Permutation_nil in Hp; discriminate|].
  inversion Hs as [|? ? Hs1 Hx]; subst.
  inversion Hs' as [|? ? Hs1' Hy]; subst.
  rewrite Forall_forall in Hx, Hy.
  assert (E : x = y).
  { destruct (Permutation_in x Hp (in_eq x l)) as [E|Hin]; [now subst|].
    destruct (Permutation_in y (Permutation_sym Hp) (in_eq y l'))
      as [E|Hin']; [now subst|].
    apply Hanti; [now left | now right | now apply Hx | now apply Hy]. }
  subst y. f_equal. apply IH; auto.
  + intros a b Ha Hb. apply Hanti; now right.
  + eapply Permutation_cons_inv; eassumption.
Qed.

Lemma NoDup_map_In {A B : Type} (f : A -> B) (l : list A) (a b : A) :
NoDup (map f l) -> In a l -> In b l -> f a = f b -> a = b.
Proof.
induction l as [|x l IH]; simpl; [tauto|].
intros Hnd Ha Hb E. inversion Hnd as [|? ? Hx Hnd']; subst.
destruct Ha as [<-|Ha], Hb as [<-|Hb]; auto.
- exfalso. apply Hx. rewrite E. now apply in_map.
- exfalso. apply Hx. rewrite <- E. now apply in_map.
Qed.

Section Keys.
Context {A : Type}.
Variable key : A -> string.

Lemma order_desc_unique (l l' : list A) :
  NoDup (map key l) -> Permutation l l' ->
  Sqlite.order_by_desc key l = Sqlite.order_by_desc key l'.
Proof.
  intros Hnd Hp. unfold Sqlite.order_by_desc.
  apply (sorted_perm_eq
           (fun a b => Sqlite.text_le (key b) (key a) = true)).
  - intros a b Ha Hb H1 H2. apply sort_by_In in Ha, Hb.
    apply (NoDup_map_In key l a b Hnd Ha Hb).
    now apply text_le_antisym.
  - apply sort_by_sorted.
    + intros a b. apply text_le_total.
    + intros a b c H1 H2. eapply text_le_trans; eauto.
  - apply sort_by_sorted.
    + intros a b. apply text_le_total.
    + intros a b c H1 H2. eapply text_le_trans; eauto.
  - rewrite !sort_by_perm. exact Hp.
Qed.

Lemma order_asc_unique (l l' : list A) :
  NoDup (map key l) -> Permutation l l' ->
  Sqlite.order_by_asc key l = Sqlite.order_by_asc key l'.
Proof.
  intros Hnd Hp. unfold Sqlite.order_by_asc.
  apply (sorted_perm_eq
           (fun a b => Sqlite.text_le (key a) (key b) = true)).
  - intros a b Ha Hb H1 H2. apply sort_by_In in Ha, Hb.
    apply (NoDup_map_In key l a b Hnd Ha Hb).
    now apply text_le_antisym.
  - apply sort_by_sorted.
    + intros a b. apply text_le_total.
    + intros a b c. apply text_le_trans.
  - apply sort_by_sorted.
    + intros a b. apply text_le_total.
    + intros a b c. apply text_le_trans.
  - rewrite !sort_by_perm. exact Hp.
Qed.

End Keys.

End OrderFacts.

(* ===================================================================== *)
(** ** Reading back the JSON text that was written *)
(* ===================================================================== *)

Module JSONFacts.
Import Js JsFacts.

Lemma parse_string_body_escape (c : ascii) (rest : string) :
JSON.parse_string_body (JSON.escape c ++ rest) =
JSON.prepend (String c "") (JSON.parse_string_body rest).
Proof.
destruct c as [[] [] [] [] [] [] [] []]; reflexivity.
Qed.

Lemma parse_string_body_escape_all (s rest : string) :
JSON.parse_string_body (JSON.escape_all s ++ String dquote rest) =
Some (s, rest).
Proof.
induction s as [|c s IH]; [reflexivity|].
cbn [JSON.escape_all]. rewrite append_assoc, parse_string_body_escape, IH.
reflexivity.
Qed.

Lemma elements_cons (x y : string) (l : list string) :
JSON.elements (x :: y :: l) = JSON.quote x ++ "," ++ JSON.elements (y :: l).
Proof. reflexivity. Qed.

Lemma elements_head (x : string) (l : list string) (rest : string) :
exists r, JSON.elements (x :: l) ++ rest = String dquote r.
Proof.
destruct l; [|rewrite elements_cons]; unfold JSON.quote; simpl; eauto.
Qed.

Lemma parse_elements_elements (l : list string) :
forall (x : string) (fuel : nat),
  List.length (x :: l) <= fuel ->
  JSON.parse_elements fuel (JSON.elements (x :: l) ++ "]") = Some (x :: l).
Proof.
induction l as [|y l IH]; intros x fuel Hfuel;
  (destruct fuel as [|fuel]; [simpl in Hfuel; lia|]).
- cbn [JSON.elements JSON.quote JSON.parse_elements append].
  rewrite Ascii.eqb_refl, append_assoc. cbn [append].
  rewrite parse_string_body_escape_all.
  reflexivity.
- rewrite elements_cons.
  cbn [JSON.quote JSON.parse_elements append].
  rewrite Ascii.eqb_refl, !append_assoc. cbn [append].
  rewrite parse_string_body_escape_all.
  cbn [append JSON.skip_ws].
  replace (JSON.is_json_ws ",") with false by reflexivity.
  rewrite Ascii.eqb_refl.
  destruct (elements_head y l "]") as [r Hr].
  assert (Hskip : JSON.skip_ws (JSON.elements (y :: l) ++ "]") =
                  JSON.elements (y :: l) ++ "]").
  { rewrite Hr. reflexivity. }
  rewrite Hskip, IH; [reflexivity | simpl in *; lia].
Qed.

Lemma length_append (a b : string) :
String.length (a ++ b) = String.length a + String.length b.
Proof. induction a as [|c a IH]; simpl; auto. Qed.

Lemma elements_length (l : list string) :
List.length l <= String.length (JSON.elements l).
Proof.
induction l as [|x l IH]; [simpl; lia|].
destruct l as [|y l]; [simpl; lia|].
rewrite elements_cons. unfold JSON.quote.
cbn [String.length append List.length] in *.
rewrite !length_append. cbn [String.length]. lia.
Qed.

(** [JSON.parse(JSON.stringify(l))] is [l] for every list of strings. *)
Lemma parse_stringify (l : list string) :
JSON.parse (JSON.stringify l) = Some l.
Proof.
destruct l as [|x l]; [reflexivity|].
unfold JSON.parse, JSON.stringify.
cbn [append JSON.skip_ws].
replace (JSON.is_json_ws "[") with false by reflexivity.
rewrite Ascii.eqb_refl.
destruct (elements_head x l "]") as [r Hr]. rewrite Hr.
cbn [JSON.skip_ws].
replace (JSON.is_json_ws dquote) with false by reflexivity.
replace (dquote =? "]")%char with false by reflexivity.
rewrite <- Hr. apply parse_elements_elements.
cbn [String.length]. rewrite length_append.
pose proof (elements_length (x :: l)). lia.
Qed.

(** *** The fuel of the parser is never used up *)

Lemma skip_ws_length (s : string) :
  String.length (JSON.skip_ws s) <= String.length s.
Proof.
  induction s as [|c s IH]; simpl; [lia|].
  destruct (JSON.is_json_ws c); simpl; lia.
Qed.

Lemma prepend_Some (p : string) (r : option (string * string))
  (x rest : string) :
  JSON.prepend p r = Some (x, rest) ->
  exists body, r = Some (body, rest).
Proof.
  destruct r as [[body rest']|]; simpl; [|discriminate].
  intros [= _ <-]. eauto.
Qed.

Lemma parse_string_body_shorter (n : nat) :
  forall s x rest,
    String.length s <= n ->
    JSON.parse_string_body s = Some (x, rest) ->
    String.length rest < String.length s.
Proof.
  induction n as [|n IH]; intros s x rest Hn H.
  - destruct s; [discriminate | simpl in Hn; lia].
  - destruct s as [|c r]; [discriminate|].
    cbn [JSON.parse_string_body] in H. cbn [String.length] in *.
    destruct (c =? dquote)%char.
    { injection H as _ <-. lia. }
    destruct (c =? backslash)%char.
    + destruct r as [|e r1]; [discriminate|].
      cbn [String.length] in *.
      destruct (e =? "u")%char.
      * destruct r1 as [|h1 [|h2 [|h3 [|h4 r2]]]]; try discriminate.
        cbn [String.length] in *.
        destruct (JSON.hex4 h1 h2 h3 h4) as [u|]; [|discriminate].
        destruct (JSON.is_high u).
        -- destruct r2 as [|b [|v [|l1 [|l2 [|l3 [|l4 r3]]]]]];
             try discriminate.
           cbn [String.length] in *.
           destruct ((b =? backslash) && (v =? "u"))%char; [|discriminate].
           destruct (JSON.hex4 l1 l2 l3 l4) as [w|]; [|discriminate].
           destruct (JSON.is_low w); [|discriminate].
           apply prepend_Some in H as [body H].
           apply IH in H; lia.
        -- destruct (JSON.utf8_encode _); [|discriminate].
           apply prepend_Some in H as [body H].
           apply IH in H; lia.
      * destruct (JSON.unescape e); [|discriminate].
        apply prepend_Some in H as [body H].
        apply IH in H; lia.
    + destruct (code c <? 32)%N; [discriminate|].
      apply prepend_Some in H as [body H].
      apply IH in H; lia.
Qed.

(** Any two amounts of fuel above the length of the text give the same
    result: the length of the text, which [parse] passes, is enough. *)
Lemma parse_elements_fuel (fuel : nat) :
  forall fuel' s,
    String.length s < fuel -> String.length s < fuel' ->
    JSON.parse_elements fuel s = JSON.parse_elements fuel' s.
Proof.
  induction fuel as [|fuel IH]; intros fuel' s H H'; [lia|].
  destruct fuel' as [|fuel']; [lia|].
  destruct s as [|c r]; [reflexivity|].
  cbn [JSON.parse_elements String.length] in *.
  destruct (c =? dquote)%char; [|reflexivity].
  destruct (JSON.parse_string_body r) as [[x rest]|] eqn:E; [|reflexivity].
  apply (parse_string_body_shorter _ _ _ _ (le_n _)) in E.
  pose proof (skip_ws_length rest) as Hrest.
  destruct (JSON.skip_ws rest) as [|d rest']; [reflexivity|].
  cbn [String.length] in Hrest.
  pose proof (skip_ws_length rest') as Hrest'.
  destruct (d =? ",")%char; [|reflexivity].
  f_equal. apply IH; lia.
Qed.

Lemma stringify_not_empty (l : list string) :
truthy (JSON.stringify l) = true.
Proof. reflexivity. Qed.

End JSONFacts.

(* ===================================================================== *)
(** ** Trimming twice *)
(* ===================================================================== *)

Module TrimFacts.
Import Js JsFacts Spec.

Lemma all_cont_starts (g : string) :
  group g = true -> starts_with_cont g = true -> all_cont g = true.
Proof.
  destruct g as [|c r]; simpl; [discriminate|]. intros -> ->. reflexivity.
Qed.

Lemma chars_grouped (s : string) : grouped (chars s).
Proof.
  unfold grouped. induction s as [|c s [IH1 IH2]]; simpl.
  - split; constructor.
  - destruct (chars s) as [|h t]; simpl in *.
    + split; repeat constructor.
    + inversion IH1 as [|? ? Hh Ht]; subst.
      destruct (starts_with_cont h) eqn:E; simpl.
      * split; [|exact IH2]. constructor; [|exact Ht].
        simpl. now apply all_cont_starts.
      * split; [repeat constructor; auto|]. constructor; auto.
Qed.

Lemma grouped_tail (g : string) (l : list string) :
  grouped (g :: l) -> grouped l.
Proof.
  unfold grouped. simpl. intros [H1 H2]. inversion H1; subst.
  split; [assumption|]. destruct l; simpl; [constructor|].
  now inversion H2.
Qed.

Lemma grouped_dropWhile (f : string -> bool) (l : list string) :
  grouped l -> grouped (dropWhile f l).
Proof.
  induction l as [|g l IH]; simpl; intros H; [exact H|].
  destruct (f g); [|exact H]. apply IH. eapply grouped_tail; eauto.
Qed.

Lemma grouped_app_l (l l' : list string) : grouped (l ++ l')%list -> grouped l.
Proof.
  unfold grouped. intros [H1 H2]. apply Forall_app in H1 as [H1 _].
  split; [exact H1|]. destruct l as [|g l]; simpl in *; [constructor|].
  now apply Forall_app in H2 as [H2 _].
Qed.

(** Dropping from the end keeps a prefix. *)
Lemma dropWhile_suffix {A : Type} (f : A -> bool) (l : list A) :
  exists p, l = (p ++ dropWhile f l)%list.
Proof.
  induction l as [|x l [p Hp]]; simpl; [now exists []|].
  destruct (f x); [|now exists []].
  exists (x :: p). simpl. now f_equal.
Qed.

Lemma grouped_dropEnd (f : string -> bool) (l : list string) :
  grouped l -> grouped (rev (dropWhile f (rev l))).
Proof.
  intros H. destruct (dropWhile_suffix f (rev l)) as [p Hp].
  apply (f_equal (@rev string)) in Hp.
  rewrite rev_involutive, rev_app_distr in Hp. rewrite Hp in H.
  eapply grouped_app_l; eauto.
Qed.

(** Continuation bytes in front of a grouped text join its first group. *)
Lemma chars_cont_prefix (r : string) (l : list string) (rest : string) :
  all_cont r = true -> r <> "" ->
  chars rest = l -> Forall (fun g => starts_with_cont g = false) l ->
  chars (r ++ rest) = r :: l.
Proof.
  intros Hr Hne Hrest Hl. induction r as [|c r IH]; [contradiction|].
  simpl in Hr. apply andb_true_iff in Hr as [Hc Hr].
  cbn [append chars]. destruct r as [|d r].
  - cbn [append]. rewrite Hrest.
    destruct l as [|h t]; [reflexivity|].
    inversion Hl as [|? ? Hh _]; subst. now rewrite Hh.
  - rewrite IH by (auto; discriminate).
    cbn [starts_with_cont]. simpl in Hr.
    apply andb_true_iff in Hr as [Hd _]. now rewrite Hd.
Qed.

(** Joining groups and splitting into characters again gives the groups
    back. *)
Lemma chars_join (l : list string) : grouped l -> chars (join l) = l.
Proof.
  induction l as [|g l IH]; intros H; [reflexivity|].
  pose proof (grouped_tail _ _ H) as Hl. specialize (IH Hl).
  destruct H as [H1 H2]. inversion H1 as [|? ? Hg _]; subst.
  simpl in H2. destruct g as [|c r]; [discriminate|]. simpl in Hg.
  cbn [join fold_right append]. fold (join l). cbn [chars].
  destruct r as [|d r].
  - cbn [append]. rewrite IH. destruct l as [|h t]; [reflexivity|].
    inversion H2 as [|? ? Hh _]; subst. now rewrite Hh.
  - rewrite (chars_cont_prefix (String d r) l (join l)); auto;
      [|discriminate].
    cbn [starts_with_cont]. simpl in Hg.
    apply andb_true_iff in Hg as [Hd _]. now rewrite Hd.
Qed.

Lemma dropWhile_head {A : Type} (f : A -> bool) (l : list A) :
  match dropWhile f l with
  | [] => True
  | x :: _ => f x = false
  end.
Proof.
  induction l as [|x l IH]; simpl; [exact I|].
  destruct (f x) eqn:E; [exact IH | exact E].
Qed.

Lemma dropWhile_fixed {A : Type} (f : A -> bool) (l : list A) :
  match l with [] => True | x :: _ => f x = false end ->
  dropWhile f l = l.
Proof. destruct l as [|x l]; simpl; [reflexivity|]. now intros ->. Qed.

Lemma trimmed_chars_head (s : string) :
  match trimmed_chars s with
  | [] => True
  | x :: _ => is_ws x = false
  end.
Proof.
  unfold trimmed_chars.
  pose proof (dropWhile_head is_ws (chars s)) as Hhead.
  destruct (dropWhile_suffix is_ws (rev (dropWhile is_ws (chars s))))
    as [p Hp].
  apply (f_equal (@rev string)) in Hp.
  rewrite rev_involutive, rev_app_distr in Hp.
  destruct (rev (dropWhile is_ws (rev (dropWhile is_ws (chars s)))))
    as [|x t]; [exact I|].
  rewrite Hp in Hhead. exact Hhead.
Qed.

(** [trim] is idempotent. *)
Lemma trim_trim (s : string) : trim (trim s) = trim s.
Proof.
  unfold trim at 2. fold (trimmed_chars s).
  assert (Hg : grouped (trimmed_chars s)).
  { apply grouped_dropEnd, grouped_dropWhile, chars_grouped. }
  unfold trim. rewrite (chars_join _ Hg).
  rewrite (dropWhile_fixed is_ws (trimmed_chars s) (trimmed_chars_head s)).
  unfold trimmed_chars at 1. rewrite rev_involutive.
  rewrite (dropWhile_fixed is_ws
             (dropWhile is_ws (rev (dropWhile is_ws (chars s))))
             (dropWhile_head is_ws _)).
  reflexivity.
Qed.

(** A text that is not blank stays so when trimmed. *)
Lemma blank_trim (s : string) : blank (trim s) = blank s.
Proof. unfold blank. now rewrite trim_trim. Qed.

End TrimFacts.

(* ===================================================================== *)
(** ** The order of instants and the order of the texts the clock writes *)
(* ===================================================================== *)

Module TimeFacts.
Import Js Spec.

Local Open Scope Z_scope.

(** *** The calendar *)

Lemma year_step (y : Z) :
  days_before_year (y + 1) =
  days_before_year y + (if leap y then 366 else 365).
Proof.
  unfold days_before_year, leap.
  destruct (Z.eqb_spec (y mod 4) 0), (Z.eqb_spec (y mod 100) 0),
    (Z.eqb_spec (y mod 400) 0); cbn [andb orb negb];
    Z.div_mod_to_equations; lia.
Qed.

Lemma days_before_year_mono (x y : Z) :
  x <= y -> days_before_year x <= days_before_year y.
Proof. unfold days_before_year. intros H. Z.div_mod_to_equations. lia. Qed.

Lemma month_cases (m : Z) :
  1 <= m <= 12 ->
  m = 1 \/ m = 2 \/ m = 3 \/ m = 4 \/ m = 5 \/ m = 6 \/ m = 7 \/ m = 8 \/
  m = 9 \/ m = 10 \/ m = 11 \/ m = 12.
Proof. lia. Qed.

Ltac each_month H :=
  apply month_cases in H;
  destruct H as [-> | [-> | [-> | [-> | [-> | [-> | [-> | [-> | [-> | [->
                | [-> | ->]]]]]]]]]]].

Lemma month_start (y m : Z) :
  1 <= m <= 12 -> 0 <= days_before_month y m.
Proof.
  intros H. each_month H; unfold days_before_month; destruct (leap y);
    apply Z.leb_le; reflexivity.
Qed.

Lemma month_end (y m : Z) :
  1 <= m <= 12 ->
  days_before_month y m + days_in_month y m <=
  (if leap y then 366 else 365).
Proof.
  intros H. each_month H; unfold days_before_month, days_in_month;
    destruct (leap y); apply Z.leb_le; reflexivity.
Qed.

Lemma month_next (y m m' : Z) :
  1 <= m -> m < m' -> m' <= 12 ->
  days_before_month y m + days_in_month y m <= days_before_month y m'.
Proof.
  intros H1 H2 H3.
  assert (H : 1 <= m <= 12) by lia. assert (H' : 1 <= m' <= 12) by lia.
  each_month H; each_month H'; try lia;
    unfold days_before_month, days_in_month; destruct (leap y);
    apply Z.leb_le; reflexivity.
Qed.

Lemma valid_fields (t : moment) :
  valid t = true ->
  0 <= year t <= 9999 /\ 1 <= month t <= 12 /\
  1 <= day t <= days_in_month (year t) (month t) /\
  0 <= hour t <= 23 /\ 0 <= minute t <= 59 /\ 0 <= second t <= 59 /\
  0 <= milli t <= 999.
Proof.
  unfold valid. rewrite !andb_true_iff, !Z.leb_le. tauto.
Qed.

(** A later date is a later day. *)
Lemma epoch_day_year (y m d y' m' d' : Z) :
  1 <= m <= 12 -> 1 <= d <= days_in_month y m ->
  1 <= m' <= 12 -> 1 <= d' ->
  y < y' -> epoch_day y m d < epoch_day y' m' d'.
Proof.
  intros Hm Hd Hm' Hd' Hy. unfold epoch_day.
  pose proof (month_end y m Hm). pose proof (month_start y' m' Hm').
  pose proof (year_step y).
  pose proof (days_before_year_mono (y + 1) y' ltac:(lia)).
  destruct (leap y); lia.
Qed.

Lemma epoch_day_month (y m d m' d' : Z) :
  1 <= m -> d <= days_in_month y m -> m' <= 12 -> 1 <= d' ->
  m < m' -> epoch_day y m d < epoch_day y m' d'.
Proof.
  intros Hm Hd Hm' Hd' Hlt. unfold epoch_day.
  pose proof (month_next y m m' Hm Hlt Hm'). lia.
Qed.

(** *** Instants against readings *)

Lemma and_then_opp (c k : comparison) :
  CompOpp (and_then c k) = and_then (CompOpp c) (CompOpp k).
Proof. destruct c; reflexivity. Qed.

Lemma fields_compare_antisym (a b : moment) :
  fields_compare b a = CompOpp (fields_compare a b).
Proof.
  unfold fields_compare. rewrite !and_then_opp, <- !Z.compare_antisym.
  reflexivity.
Qed.

Lemma fields_compare_lt (a b : moment) :
  valid a = true -> valid b = true ->
  fields_compare a b = Lt -> time a < time b.
Proof.
  intros Ha Hb. apply valid_fields in Ha, Hb.
  destruct Ha as [Hy [Hm [Hd [Hh [Hmi [Hs Hms]]]]]].
  destruct Hb as [Hy' [Hm' [Hd' [Hh' [Hmi' [Hs' Hms']]]]]].
  unfold fields_compare, time.
  destruct (Z.compare_spec (year a) (year b)) as [Ey|Ly|Gy];
    cbn [and_then]; try discriminate.
  2:{ intros _.
      pose proof (epoch_day_year _ _ _ _ _ _ Hm Hd Hm' (proj1 Hd') Ly). lia. }
  destruct (Z.compare_spec (month a) (month b)) as [Em|Lm|Gm];
    cbn [and_then]; try discriminate.
  2:{ intros _. rewrite <- Ey in *.
      pose proof (epoch_day_month (year a) _ (day a) _ (day b)
                    (proj1 Hm) (proj2 Hd) (proj2 Hm') (proj1 Hd') Lm).
      lia. }
  assert (Hday : epoch_day (year b) (month b) (day b) =
                 epoch_day (year a) (month a) (day a) + (day b - day a)).
  { rewrite Ey, Em. unfold epoch_day. lia. }
  rewrite Hday.
  destruct (Z.compare_spec (day a) (day b)); cbn [and_then];
    try discriminate; [|intros _; lia].
  destruct (Z.compare_spec (hour a) (hour b)); cbn [and_then];
    try discriminate; [|intros _; lia].
  destruct (Z.compare_spec (minute a) (minute b)); cbn [and_then];
    try discriminate; [|intros _; lia].
  destruct (Z.compare_spec (second a) (second b)); cbn [and_then];
    try discriminate; [|intros _; lia].
  rewrite Z.compare_lt_iff. lia.
Qed.

Lemma fields_compare_eq (a b : moment) :
  fields_compare a b = Eq -> a = b.
Proof.
  unfold fields_compare. destruct a, b; cbn [year month day hour minute
                                              second milli].
  repeat match goal with
         | |- and_then (?x ?= ?y) _ = Eq -> _ =>
             destruct (Z.compare_spec x y); cbn [and_then];
             try discriminate
         end.
  rewrite Z.compare_eq_iff. intros; subst; reflexivity.
Qed.

Lemma time_compare (a b : moment) :
  valid a = true -> valid b = true ->
  (time a ?= time b) = fields_compare a b.
Proof.
  intros Ha Hb. destruct (fields_compare a b) eqn:E.
  - apply fields_compare_eq in E. subst. apply Z.compare_refl.
  - apply Z.compare_lt_iff. now apply fields_compare_lt.
  - apply Z.compare_gt_iff. apply fields_compare_lt; auto.
    now rewrite fields_compare_antisym, E.
Qed.

(** *** Texts against readings *)

Lemma compare_cons (c d : ascii) (r r' : string) :
  String.compare (String c r) (String d r') =
  match Ascii.compare c d with
  | Eq => String.compare r r'
  | o => o
  end.
Proof. reflexivity. Qed.

Lemma compare_same (c : ascii) (r r' : string) :
  String.compare (String c r) (String c r') = String.compare r r'.
Proof.
  rewrite compare_cons. unfold Ascii.compare. now rewrite N.compare_refl.
Qed.

Lemma compare_digit (x y : Z) :
  0 <= x <= 9 -> 0 <= y <= 9 ->
  Ascii.compare (digit_char x) (digit_char y) = (x ?= y).
Proof.
  intros Hx Hy. unfold Ascii.compare, digit_char.
  rewrite !N_ascii_embedding by lia.
  destruct (Z.compare_spec x y).
  - apply N.compare_eq_iff. lia.
  - apply N.compare_lt_iff. lia.
  - apply N.compare_gt_iff. lia.
Qed.

Lemma compare_digit_cons (x y : Z) (r r' : string) :
  0 <= x <= 9 -> 0 <= y <= 9 ->
  String.compare (String (digit_char x) r) (String (digit_char y) r') =
  and_then (x ?= y) (String.compare r r').
Proof.
  intros Hx Hy. rewrite compare_cons, compare_digit by assumption.
  now destruct (x ?= y).
Qed.

Ltac split_number :=
  repeat match goal with
         | |- context [and_then (?x ?= ?y) _] =>
             destruct (Z.compare_spec x y); cbn [and_then]
         end;
  try reflexivity; exfalso; Z.div_mod_to_equations; lia.

Lemma compare_pad2 (x y : Z) (r r' : string) :
  0 <= x <= 99 -> 0 <= y <= 99 ->
  String.compare (pad2 x ++ r) (pad2 y ++ r') =
  and_then (x ?= y) (String.compare r r').
Proof.
  intros Hx Hy. unfold pad2. cbn [append].
  rewrite !compare_digit_cons by (Z.div_mod_to_equations; lia).
  generalize (String.compare r r'). intros k. split_number.
Qed.

Lemma compare_pad3 (x y : Z) (r r' : string) :
  0 <= x <= 999 -> 0 <= y <= 999 ->
  String.compare (pad3 x ++ r) (pad3 y ++ r') =
  and_then (x ?= y) (String.compare r r').
Proof.
  intros Hx Hy. unfold pad3. cbn [append].
  rewrite compare_digit_cons by (Z.div_mod_to_equations; lia).
  rewrite compare_pad2 by (Z.div_mod_to_equations; lia).
  generalize (String.compare r r'). intros k. split_number.
Qed.

Lemma compare_pad4 (x y : Z) (r r' : string) :
  0 <= x <= 9999 -> 0 <= y <= 9999 ->
  String.compare (pad4 x ++ r) (pad4 y ++ r') =
  and_then (x ?= y) (String.compare r r').
Proof.
  intros Hx Hy. unfold pad4. cbn [append].
  rewrite compare_digit_cons by (Z.div_mod_to_equations; lia).
  rewrite compare_pad3 by (Z.div_mod_to_equations; lia).
  generalize (String.compare r r'). intros k. split_number.
Qed.

Lemma days_in_month_le (y m : Z) : days_in_month y m <= 31.
Proof.
  unfold days_in_month.
  destruct (m =? 2); [destruct (leap y); lia|].
  destruct ((m =? 4) || (m =? 6) || (m =? 9) || (m =? 11))%bool; lia.
Qed.

(** The texts of two readings compare as the readings do. *)
Lemma text_compare (a b : moment) :
  valid a = true -> valid b = true ->
  String.compare (toISOString a) (toISOString b) = fields_compare a b.
Proof.
  intros Ha Hb. apply valid_fields in Ha, Hb.
  destruct Ha as [Hy [Hm [Hd [Hh [Hmi [Hs Hms]]]]]].
  destruct Hb as [Hy' [Hm' [Hd' [Hh' [Hmi' [Hs' Hms']]]]]].
  pose proof (days_in_month_le (year a) (month a)).
  pose proof (days_in_month_le (year b) (month b)).
  unfold toISOString, fields_compare.
  rewrite compare_pad4 by lia. cbn [append]. rewrite compare_same.
  rewrite compare_pad2 by lia. cbn [append]. rewrite compare_same.
  rewrite compare_pad2 by lia. cbn [append]. rewrite compare_same.
  rewrite compare_pad2 by lia. cbn [append]. rewrite compare_same.
  rewrite compare_pad2 by lia. cbn [append]. rewrite compare_same.
  rewrite compare_pad2 by lia. cbn [append]. rewrite compare_same.
  rewrite compare_pad3 by lia. cbn [String.compare].
  now destruct (milli a ?= milli b).
Qed.

(** *** Texts in the form of the clock *)

Lemma normal_reading (s : string) :
  normal s = true ->
  exists t, valid t = true /\ s = toISOString t /\ instant s = Some (time t).
Proof.
  unfold normal, instant.
  destruct (read_date s) as [[t off]|]; [|discriminate].
  rewrite !andb_true_iff, Z.eqb_eq, String.eqb_eq.
  intros [[Hv ->] Hs]. exists t. rewrite Hv, Z.sub_0_r. auto.
Qed.

(** For texts in the form of the clock the order of the table is the
    order of the instants. *)
Lemma text_lt_earlier (a b : string) :
  normal a = true -> normal b = true ->
  Sqlite.text_lt a b = earlier a b.
Proof.
  intros Ha Hb.
  apply normal_reading in Ha as [ta [Va [Ea Ia]]].
  apply normal_reading in Hb as [tb [Vb [Eb Ib]]].
  unfold Sqlite.text_lt, String.ltb, earlier. rewrite Ia, Ib.
  rewrite Ea, Eb at 1. rewrite (text_compare ta tb Va Vb).
  rewrite <- (time_compare ta tb Va Vb). unfold Z.ltb.
  reflexivity.
Qed.


(** *** Dates alone *)

Lemma date_only_reading (s : string) :
  date_only s = true ->
  exists t, valid t = true /\ midnight t = true /\ s = date_text t /\
            instant s = Some (time t).
Proof.
  unfold date_only, instant.
  destruct (read_date s) as [[t off]|]; [|discriminate].
  rewrite !andb_true_iff, Z.eqb_eq, String.eqb_eq.
  intros [[[Hv ->] Hm] Hs]. exists t. rewrite Hv, Z.sub_0_r. auto.
Qed.

(** The text of a date against the text the clock writes: the dates
    decide, and on the same day the shorter text comes first. *)
Lemma date_text_compare (a b : moment) :
  valid a = true -> valid b = true ->
  String.compare (date_text a) (toISOString b) =
  and_then (year a ?= year b)
    (and_then (month a ?= month b) (and_then (day a ?= day b) Lt)).
Proof.
  intros Ha Hb. apply valid_fields in Ha, Hb.
  destruct Ha as [Hy [Hm [Hd _]]].
  destruct Hb as [Hy' [Hm' [Hd' _]]].
  pose proof (days_in_month_le (year a) (month a)).
  pose proof (days_in_month_le (year b) (month b)).
  unfold date_text, toISOString.
  rewrite compare_pad4 by lia. cbn [append]. rewrite compare_same.
  rewrite compare_pad2 by lia. cbn [append]. rewrite compare_same.
  rewrite <- (JsFacts.append_nil_r (pad2 (day a))).
  rewrite compare_pad2 by lia. reflexivity.
Qed.

(** A date alone is before a text of the clock, in the order of the
    table, exactly when its midnight is not later. *)
Lemma date_only_lt (d now : string) :
  date_only d = true -> normal now = true ->
  Sqlite.text_lt d now = not_later d now.
Proof.
  intros Hd Hn.
  apply date_only_reading in Hd as [ta [Va [Ma [Ea Ia]]]].
  apply normal_reading in Hn as [tb [Vb [Eb Ib]]].
  unfold Sqlite.text_lt, String.ltb, not_later. rewrite Ia, Ib.
  rewrite Ea, Eb at 1. rewrite (date_text_compare ta tb Va Vb).
  unfold Z.leb. rewrite (time_compare ta tb Va Vb). unfold fields_compare.
  unfold midnight in Ma. rewrite !andb_true_iff, !Z.eqb_eq in Ma.
  destruct Ma as [[[-> ->] ->] ->].
  apply valid_fields in Vb. destruct Vb as [_ [_ [_ [Hh [Hmi [Hs Hms]]]]]].
  destruct (year ta ?= year tb); cbn [and_then]; try reflexivity.
  destruct (month ta ?= month tb); cbn [and_then]; try reflexivity.
  destruct (day ta ?= day tb); cbn [and_then]; try reflexivity.
  destruct (Z.compare_spec 0 (hour tb)); cbn [and_then];
    try reflexivity; try lia.
  destruct (Z.compare_spec 0 (minute tb)); cbn [and_then];
    try reflexivity; try lia.
  destruct (Z.compare_spec 0 (second tb)); cbn [and_then];
    try reflexivity; try lia.
  destruct (Z.compare_spec 0 (milli tb)); try reflexivity; lia.
Qed.

End TimeFacts.

(* ===================================================================== *)
(** ** Facts about the access layer *)
(* ===================================================================== *)

Module DbFacts.
Import Js JsFacts OrderFacts JSONFacts.

(** *** Conversions that can throw, over a list *)

Lemma mapM_Forall2 {A B : Type} (f : A -> result B) (l : list A)
  (ys : list B) :
  mapM f l = Ok ys <-> Forall2 (fun x y => f x = Ok y) l ys.
Proof.
  revert ys; induction l as [|x l IH]; intros ys; simpl.
  - split; [intros [= <-]; constructor | inversion 1; reflexivity].
  - destruct (f x) as [y|e] eqn:E; simpl.
    + destruct (mapM f l) as [zs|e] eqn:E'; simpl.
      * split.
        -- intros [= <-]. constructor; [exact E | now apply IH].
        -- inversion 1 as [|? y' ? zs' Hy Hzs]; subst.
           apply IH in Hzs. congruence.
      * split; [discriminate|].
        inversion 1 as [|? y' ? zs' Hy Hzs]; subst.
        apply IH in Hzs. discriminate.
    + split; [discriminate | inversion 1; congruence].
Qed.

Lemma mapM_total {A B : Type} (f : A -> result B) (l : list A) :
  (forall x, In x l -> exists y, f x = Ok y) -> exists ys, mapM f l = Ok ys.
Proof.
  induction l as [|x l IH]; intros H; simpl; [eauto|].
  destruct (H x (or_introl eq_refl)) as [y ->].
  destruct IH as [ys ->]; [intros; apply H; now right|].
  simpl. eauto.
Qed.

Lemma Forall2_In_r {A B : Type} (P : A -> B -> Prop) l ys y :
  Forall2 P l ys -> In y ys -> exists x, In x l /\ P x y.
Proof.
  induction 1 as [|x y' l ys Hxy _ IH]; simpl; [tauto|].
  intros [<-|Hy]; [eauto|]. destruct (IH Hy) as [x' [? ?]]; eauto.
Qed.

Lemma Forall2_In_l {A B : Type} (P : A -> B -> Prop) l ys x :
  Forall2 P l ys -> In x l -> exists y, In y ys /\ P x y.
Proof.
  induction 1 as [|x' y l ys Hxy _ IH]; simpl; [tauto|].
  intros [<-|Hx]; [eauto|]. destruct (IH Hx) as [y' [? ?]]; eauto.
Qed.

Lemma Forall2_sorted {A B : Type} (P : A -> B -> Prop)
  (R : A -> A -> Prop) (R' : B -> B -> Prop) l ys :
  (forall x y x' y', P x y -> P x' y' -> R x x' -> R' y y') ->
  Forall2 P l ys -> StronglySorted R l -> StronglySorted R' ys.
Proof.
  intros HR. induction 1 as [|x y l ys Hxy Hl IH]; intros Hs;
    [constructor|].
  inversion Hs as [|? ? Hs' Hall]; subst.
  constructor; [auto|].
  rewrite Forall_forall in *. intros y' Hy'.
  destruct (Forall2_In_r _ _ _ _ Hl Hy') as [x' [Hx' Hp]]. eauto.
Qed.

Lemma Forall2_count {A B : Type} (P : A -> B -> Prop) (f : A -> bool)
  (g : B -> bool) l ys :
  (forall x y, P x y -> f x = g y) ->
  Forall2 P l ys -> Spec.count f l = Spec.count g ys.
Proof.
  intros Hfg. unfold Spec.count.
  induction 1 as [|x y l ys Hxy _ IH]; simpl; [reflexivity|].
  rewrite <- (Hfg x y Hxy). destruct (f x); simpl; congruence.
Qed.

Lemma Forall2_length_eq {A B : Type} (P : A -> B -> Prop) l ys :
  Forall2 P l ys -> List.length l = List.length ys.
Proof. induction 1; simpl; congruence. Qed.

(** *** Rows and the todos read from them *)

Lemma rowToTodo_fields (row : Row.t) (todo : Todo.t) :
  TodoDatabase.rowToTodo row = Ok todo ->
  exists l,
    JSON.parse (TodoDatabase.tags_text (Row.tags row)) = Some l /\
    todo =
    {| Todo.id := Row.id row;
       Todo.title := Row.title row;
       Todo.description := TodoDatabase.of_column (Row.description row);
       Todo.completed := Some (negb (Row.completed row =? 0)%Z);
       Todo.priority := TodoDatabase.of_column (Row.priority row);
       Todo.dueDate := TodoDatabase.of_column (Row.due_date row);
       Todo.tags := Some l;
       Todo.createdAt := Row.created_at row;
       Todo.updatedAt := Row.updated_at row |}.
Proof.
  unfold TodoDatabase.rowToTodo.
  destruct (JSON.parse _) as [l|]; [|discriminate].
  intros [= <-]. eauto.
Qed.

Lemma readable_row_iff (row : Row.t) :
  Spec.readable_row row = true <->
  exists todo, TodoDatabase.rowToTodo row = Ok todo.
Proof.
  unfold Spec.readable_row.
  destruct (TodoDatabase.rowToTodo row); split; eauto; try discriminate.
  intros [? ?]; discriminate.
Qed.

Lemma readable_In (db : TodoDatabase.table) (row : Row.t) :
  Spec.readable db -> In row db ->
  exists todo, TodoDatabase.rowToTodo row = Ok todo.
Proof.
  unfold Spec.readable. rewrite forallb_forall. intros H Hin.
  apply readable_row_iff. auto.
Qed.

(** The overdue test on a row and on the todo read from it agree. *)
Lemma overdue_row_todo (now : string) (row : Row.t) (todo : Todo.t) :
  TodoDatabase.rowToTodo row = Ok todo ->
  TodoDatabase.overdue_row now row = Spec.text_overdue now todo.
Proof.
  intros H. apply rowToTodo_fields in H as [l [_ ->]].
  unfold TodoDatabase.overdue_row, Spec.text_overdue; simpl.
  destruct (Row.completed row =? 0)%Z; simpl; [|reflexivity].
  destruct (Row.due_date row); reflexivity.
Qed.

(** The todo read from a row is the record the row stores. *)
Lemma rowToTodo_record (row : Row.t) (todo : Todo.t) :
  TodoDatabase.rowToTodo row = Ok todo -> Spec.record_of row todo.
Proof.
  intros H. apply rowToTodo_fields in H as [l [Hparse ->]].
  unfold Spec.record_of, TodoDatabase.of_column.
  cbn [Todo.id Todo.title Todo.description Todo.completed Todo.priority
       Todo.dueDate Todo.tags Todo.createdAt Todo.updatedAt].
  repeat split; try reflexivity.
  intros tags [Ht|[Ht ->]]; rewrite Ht in Hparse.
  - unfold TodoDatabase.tags_text in Hparse.
    rewrite stringify_not_empty, parse_stringify in Hparse. congruence.
  - cbv in Hparse. congruence.
Qed.

Lemma records_of_rows (rows : list Row.t) (todos : list Todo.t) :
  Forall2 (fun row todo => TodoDatabase.rowToTodo row = Ok todo) rows todos ->
  Forall2 Spec.record_of rows todos.
Proof.
  induction 1; constructor; auto using rowToTodo_record.
Qed.

(** *** The rows a statement returns *)

Lemma filter_true {A : Type} (l : list A) : List.filter (fun _ => true) l = l.
Proof. induction l; simpl; congruence. Qed.

Lemma select_rows_perm (engine : TodoDatabase.plan)
  (filter : option TodoFilter.t) (db : TodoDatabase.table) :
  Permutation (TodoDatabase.select_rows engine filter db)
    (List.filter (TodoDatabase.where_all (TodoDatabase.conditions filter)) db).
Proof.
  unfold TodoDatabase.select_rows, Sqlite.order_by_desc.
  rewrite sort_by_perm. apply filter_perm, Sqlite.visit_perm.
Qed.

Lemma select_rows_In (engine : TodoDatabase.plan)
  (filter : option TodoFilter.t) (db : TodoDatabase.table) (row : Row.t) :
  In row (TodoDatabase.select_rows engine filter db) <->
  In row db /\
  TodoDatabase.where_all (TodoDatabase.conditions filter) row = true.
Proof.
  rewrite <- filter_In.
  split; apply Permutation_in;
    [|symmetry]; apply select_rows_perm.
Qed.

Lemma select_rows_sorted (engine : TodoDatabase.plan)
  (filter : option TodoFilter.t) (db : TodoDatabase.table) :
  StronglySorted
    (fun a b : Row.t =>
       Sqlite.text_le (Row.created_at b) (Row.created_at a) = true)
    (TodoDatabase.select_rows engine filter db).
Proof.
  apply sort_by_sorted.
  - intros a b. apply text_le_total.
  - intros a b c H1 H2. eapply text_le_trans; eauto.
Qed.

Lemma select_all_perm (engine : TodoDatabase.plan) (db : TodoDatabase.table) :
  Permutation (TodoDatabase.select_rows engine None db) db.
Proof.
  rewrite select_rows_perm. cbn [TodoDatabase.conditions].
  unfold TodoDatabase.where_all. cbn [forallb]. now rewrite filter_true.
Qed.

Lemma overdue_rows_perm (engine : TodoDatabase.plan) (now : string)
  (db : TodoDatabase.table) :
  Permutation (TodoDatabase.overdue_rows engine now db)
    (List.filter (TodoDatabase.overdue_row now) db).
Proof.
  unfold TodoDatabase.overdue_rows, Sqlite.order_by_asc.
  rewrite sort_by_perm. apply filter_perm, Sqlite.visit_perm.
Qed.

Lemma overdue_rows_In (engine : TodoDatabase.plan) (now : string)
  (db : TodoDatabase.table) (row : Row.t) :
  In row (TodoDatabase.overdue_rows engine now db) <->
  In row db /\ TodoDatabase.overdue_row now row = true.
Proof.
  rewrite <- filter_In.
  split; apply Permutation_in;
    [|symmetry]; apply overdue_rows_perm.
Qed.


(** With no two rows of equal key, every plan returns the rows that a
    scan of the table returns. *)
Lemma NoDup_map_filter {A B : Type} (f : A -> B) (p : A -> bool)
  (l : list A) :
  NoDup (map f l) -> NoDup (map f (List.filter p l)).
Proof.
  induction l as [|x l IH]; simpl; [auto|].
  intros H. inversion H as [|? ? Hx Hnd]; subst.
  destruct (p x); simpl; [|auto].
  constructor; [|auto].
  intros Hin. apply Hx. apply in_map_iff in Hin as [y [E Hy]].
  apply filter_In in Hy as [Hy _]. rewrite <- E. now apply in_map.
Qed.

Lemma select_rows_scan (engine : TodoDatabase.plan)
  (filter : option TodoFilter.t) (db : TodoDatabase.table) :
  NoDup (map Row.created_at db) ->
  TodoDatabase.select_rows engine filter db =
  TodoDatabase.select_rows Sqlite.scan filter db.
Proof.
  intros Hnd. unfold TodoDatabase.select_rows. symmetry.
  apply order_desc_unique.
  - cbn [Sqlite.visit Sqlite.scan]. now apply NoDup_map_filter.
  - apply filter_perm. symmetry. apply Sqlite.visit_perm.
Qed.

Lemma getAllTodos_scan (engine : TodoDatabase.plan)
  (filter : option TodoFilter.t) (db : TodoDatabase.table) :
  NoDup (map Row.created_at db) ->
  TodoDatabase.getAllTodos engine filter db =
  TodoDatabase.getAllTodos Sqlite.scan filter db.
Proof.
  intros Hnd. unfold TodoDatabase.getAllTodos.
  now rewrite (select_rows_scan engine filter db Hnd).
Qed.

Lemma getOverdueTodos_scan (engine : TodoDatabase.plan) (now : string)
  (db : TodoDatabase.table) :
  NoDup (map TodoDatabase.due_key
           (List.filter (TodoDatabase.overdue_row now) db)) ->
  TodoDatabase.getOverdueTodos engine now db =
  TodoDatabase.getOverdueTodos Sqlite.scan now db.
Proof.
  intros Hnd. unfold TodoDatabase.getOverdueTodos, TodoDatabase.overdue_rows.
  f_equal. symmetry. apply order_asc_unique.
  - exact Hnd.
  - apply filter_perm. symmetry. apply Sqlite.visit_perm.
Qed.

(** *** The pattern of a tag *)

Lemma length_tag_pattern (t : string) :
  String.length (TodoDatabase.tag_pattern t) = 4 + String.length t.
Proof.
  unfold TodoDatabase.tag_pattern. cbn [append String.length].
  rewrite length_append. cbn [String.length]. lia.
Qed.

Lemma short_tag_accepted (filter : option TodoFilter.t)
  (db : TodoDatabase.table) :
  Spec.short_tag filter = true -> TodoDatabase.refused filter db = false.
Proof.
  unfold Spec.short_tag, Spec.short, TodoDatabase.refused.
  destruct filter as [f|]; [|reflexivity].
  destruct (TodoFilter.tag f) as [t|]; [|reflexivity].
  intros H. unfold Sqlite.too_long. rewrite length_tag_pattern.
  apply N.leb_le in H.
  replace (Sqlite.like_pattern_limit <? N.of_nat (4 + String.length t))%N
    with false; [now rewrite andb_false_r|].
  symmetry. apply N.ltb_ge. unfold Sqlite.like_pattern_limit. lia.
Qed.

(** *** The listing queries return *)

Lemma getAllTodos_rows (engine : TodoDatabase.plan)
  (filter : option TodoFilter.t) (db : TodoDatabase.table)
  (todos : list Todo.t) :
  TodoDatabase.getAllTodos engine filter db = Ok todos ->
  Forall2 (fun row todo => TodoDatabase.rowToTodo row = Ok todo)
    (TodoDatabase.select_rows engine filter db) todos.
Proof.
  unfold TodoDatabase.getAllTodos.
  destruct (TodoDatabase.refused filter db); [discriminate|].
  apply mapM_Forall2.
Qed.

Lemma getAllTodos_None (engine : TodoDatabase.plan) (db : TodoDatabase.table) :
  TodoDatabase.getAllTodos engine None db =
  mapM TodoDatabase.rowToTodo (TodoDatabase.select_rows engine None db).
Proof. reflexivity. Qed.

Lemma getAllTodos_total (engine : TodoDatabase.plan)
  (filter : option TodoFilter.t) (db : TodoDatabase.table) :
  Spec.readable db -> Spec.short_tag filter = true ->
  exists todos, TodoDatabase.getAllTodos engine filter db = Ok todos.
Proof.
  intros Hr Hshort. unfold TodoDatabase.getAllTodos.
  rewrite (short_tag_accepted filter db Hshort).
  apply mapM_total. intros row Hin.
  apply select_rows_In in Hin as [Hin _].
  eapply readable_In; eauto.
Qed.

Lemma getOverdueTodos_total (engine : TodoDatabase.plan) (now : string)
  (db : TodoDatabase.table) :
  Spec.readable db ->
  exists todos, TodoDatabase.getOverdueTodos engine now db = Ok todos.
Proof.
  intros Hr. apply mapM_total. intros row Hin.
  apply overdue_rows_In in Hin as [Hin _].
  eapply readable_In; eauto.
Qed.

(** Without a filter the listing is a rearrangement of the whole table. *)
Lemma getAllTodos_None_rows (engine : TodoDatabase.plan)
  (db : TodoDatabase.table) (todos : list Todo.t) :
  TodoDatabase.getAllTodos engine None db = Ok todos ->
  exists rows,
    Permutation rows db /\
    Forall2 (fun row todo => TodoDatabase.rowToTodo row = Ok todo) rows todos.
Proof.
  intros H. apply getAllTodos_rows in H.
  eexists; split; [|exact H]. apply select_all_perm.
Qed.

(** The full listing holds the record of every row. *)
Lemma getAllTodos_records (engine : TodoDatabase.plan)
  (db : TodoDatabase.table) (all : list Todo.t) :
  TodoDatabase.getAllTodos engine None db = Ok all ->
  Spec.lists_records db all.
Proof.
  intros H. apply getAllTodos_None_rows in H as [rows [Hperm H]].
  exists rows. split; [exact Hperm | now apply records_of_rows].
Qed.

End DbFacts.

(* ===================================================================== *)
(** ** The queries *)
(* ===================================================================== *)

Module QueryFacts.
Import Js JsFacts OrderFacts JSONFacts DbFacts.

Lemma listed_In (engine : TodoDatabase.plan) (db : TodoDatabase.table)
  (all : list Todo.t) (todo : Todo.t) :
  TodoDatabase.getAllTodos engine None db = Ok all ->
  (In todo all <->
   exists row, In row db /\ TodoDatabase.rowToTodo row = Ok todo).
Proof.
  intros H. apply getAllTodos_None_rows in H as [rows [Hperm Hall]]. split.
  - intros Hin. destruct (Forall2_In_r _ _ _ _ Hall Hin) as [row [Hrow Hto]].
    exists row. split; [|exact Hto]. eapply Permutation_in; eauto.
  - intros [row [Hrow Hto]].
    apply (Permutation_in _ (Permutation_sym Hperm)) in Hrow.
    destruct (Forall2_In_l _ _ _ _ Hall Hrow) as [todo' [Hin Hto']].
    congruence.
Qed.

(** *** Instants, on a table stamped by the clock *)

Lemma stamped_In (db : TodoDatabase.table) (row : Row.t) :
  Spec.stamped db -> In row db -> Spec.stamped_row row = true.
Proof. unfold Spec.stamped. rewrite forallb_forall. auto. Qed.


(** The test of the overdue statement is the comparison of the instants. *)
Lemma overdue_row_past_due (now : string) (row : Row.t) (todo : Todo.t) :
  Spec.stamped_row row = true -> Spec.normal now = true ->
  TodoDatabase.rowToTodo row = Ok todo ->
  TodoDatabase.overdue_row now row = Spec.past_due now todo.
Proof.
  intros Hrow Hnow Hto. apply rowToTodo_fields in Hto as [l [_ ->]].
  unfold TodoDatabase.overdue_row, Spec.past_due, Spec.stamped_row in *.
  cbn [Todo.completed Todo.dueDate].
  apply andb_true_iff in Hrow as [_ Hdue].
  destruct (Row.completed row =? 0)%Z; cbn [negb andb]; [|reflexivity].
  destruct (Row.due_date row) as [d|]; cbn [TodoDatabase.of_column];
    [|reflexivity].
  now apply TimeFacts.text_lt_earlier.
Qed.



End QueryFacts.

Module StatsFacts.
Import Js JsFacts OrderFacts JSONFacts DbFacts QueryFacts.

Lemma get_increment (k k' : string) (o : TodoService.counters) :
  TodoService.get k (TodoService.increment k' o) =
  if (k' =? k)%string then
    Some (match TodoService.get k o with
          | Some (TodoService.Num n) => TodoService.Num (S n)
          | _ => TodoService.NaN
          end)
  else TodoService.get k o.
Proof.
  induction o as [|[k0 v] o IH]; simpl.
  - destruct (k' =? k)%string; reflexivity.
  - destruct (k0 =? k')%string eqn:E0; simpl.
    + apply String.eqb_eq in E0. subst k0.
      destruct (k' =? k)%string; reflexivity.
    + destruct (k0 =? k)%string eqn:E1.
      * apply String.eqb_eq in E1. subst k0.
        rewrite String.eqb_sym, E0. reflexivity.
      * exact IH.
Qed.

(** A counter that holds a number ends at that number plus the number of
    todos whose priority converts to its key. *)
Lemma get_counted (k : string) (todos : list Todo.t) :
  forall (o : TodoService.counters) (n : nat),
    TodoService.get k o = Some (TodoService.Num n) ->
    TodoService.get k
      (fold_left
         (fun acc todo =>
            TodoService.increment (TodoService.key_of (Todo.priority todo)) acc)
         todos o) =
    Some (TodoService.Num
            (n + Spec.count
                   (fun todo =>
                      (TodoService.key_of (Todo.priority todo) =? k)%string)
                   todos)).
Proof.
  unfold Spec.count.
  induction todos as [|todo todos IH]; intros o n Hget; simpl.
  - rewrite Hget. f_equal. f_equal. lia.
  - destruct (TodoService.key_of (Todo.priority todo) =? k)%string eqn:E.
    + rewrite (IH _ (S n)).
      * simpl. f_equal. f_equal. lia.
      * rewrite get_increment, E, Hget. reflexivity.
    + rewrite (IH _ n); [reflexivity|].
      rewrite get_increment, E. exact Hget.
Qed.

Lemma key_of_priority (k : string) (todo : Todo.t) :
  k <> "null" -> k <> "undefined" ->
  (TodoService.key_of (Todo.priority todo) =? k)%string =
  Spec.has_priority k todo.
Proof.
  intros Hn Hu. unfold Spec.has_priority, TodoService.key_of.
  destruct (Todo.priority todo); try reflexivity;
    apply String.eqb_neq; congruence.
Qed.

Lemma count_ext {A : Type} (f g : A -> bool) (l : list A) :
  (forall x, f x = g x) -> Spec.count f l = Spec.count g l.
Proof.
  intros H. unfold Spec.count.
  induction l as [|x l IH]; simpl; [reflexivity|].
  rewrite H. destruct (g x); simpl; congruence.
Qed.

Lemma count_le {A : Type} (f : A -> bool) (l : list A) :
  Spec.count f l <= List.length l.
Proof. apply filter_length_le. Qed.

Lemma is_completed_done (todo : Todo.t) :
  TodoService.is_completed todo = Spec.is_done todo.
Proof.
  unfold TodoService.is_completed, Spec.is_done.
  destruct (Todo.completed todo) as [[]|]; reflexivity.
Qed.

(** The number of todos the overdue query returns is the number of todos
    of the full listing that pass its test. *)
Lemma overdue_count (engine : TodoDatabase.plan) (now : string)
  (db : TodoDatabase.table) (all todos : list Todo.t) :
  TodoDatabase.getAllTodos engine None db = Ok all ->
  TodoDatabase.getOverdueTodos engine now db = Ok todos ->
  List.length todos = Spec.count (Spec.text_overdue now) all.
Proof.
  intros Hall Htodos.
  apply getAllTodos_None_rows in Hall as [rows [Hperm Hall]].
  apply mapM_Forall2, Forall2_length_eq in Htodos. rewrite <- Htodos.
  rewrite <- (Forall2_count _ (TodoDatabase.overdue_row now) _ _ _
                (overdue_row_todo now) Hall).
  unfold Spec.count.
  rewrite (Permutation_length (overdue_rows_perm engine now db)).
  symmetry. now apply filter_length_perm.
Qed.

End StatsFacts.

Module TagFacts.
Import Js JsFacts OrderFacts JSONFacts DbFacts.

Lemma existsb_eqb_In (x : string) (s : list string) :
  existsb (String.eqb x) s = true <-> In x s.
Proof.
  rewrite existsb_exists. split.
  - intros [y [Hy E]]. apply String.eqb_eq in E. now subst.
  - intros H. exists x. split; [exact H | apply String.eqb_refl].
Qed.

Lemma set_add_In (s : list string) (x y : string) :
  In y (TodoDatabase.set_add s x) <-> In y s \/ y = x.
Proof.
  unfold TodoDatabase.set_add.
  destruct (existsb (String.eqb x) s) eqn:E.
  - apply existsb_eqb_In in E. split; [auto | intros [H| ->]; auto].
  - rewrite in_app_iff. simpl. intuition.
Qed.

Lemma set_add_NoDup (s : list string) (x : string) :
  NoDup s -> NoDup (TodoDatabase.set_add s x).
Proof.
  intros H. unfold TodoDatabase.set_add.
  destruct (existsb (String.eqb x) s) eqn:E; [exact H|].
  apply NoDup_app; [exact H | repeat constructor; auto |].
  intros y Hy [<-|[]].
  apply existsb_eqb_In in Hy. congruence.
Qed.

Lemma add_all_In (tags s : list string) (y : string) :
  In y (fold_left TodoDatabase.set_add tags s) <-> In y s \/ In y tags.
Proof.
  revert s; induction tags as [|x tags IH]; intros s; simpl; [tauto|].
  rewrite IH, set_add_In. intuition.
Qed.

Lemma add_all_NoDup (tags s : list string) :
  NoDup s -> NoDup (fold_left TodoDatabase.set_add tags s).
Proof.
  revert s; induction tags as [|x tags IH]; intros s H; simpl; auto.
  apply IH, set_add_NoDup, H.
Qed.

Lemma collect_In (texts s : list string) (y : string) :
  In y (TodoDatabase.collect texts s) <->
  In y s \/
  exists text tags,
    In text texts /\
    JSON.parse (TodoDatabase.tags_text (Some text)) = Some tags /\ In y tags.
Proof.
  unfold TodoDatabase.collect.
  revert s; induction texts as [|t texts IH]; intros s; cbn [fold_left].
  - split; [auto | intros [H|[? [? [[] _]]]]; exact H].
  - rewrite IH. clear IH. cbn [In].
    destruct (JSON.parse (TodoDatabase.tags_text (Some t))) as [tags|] eqn:E.
    + rewrite add_all_In. split.
      * intros [[H|H]|[text [l [H1 H2]]]]; eauto 8.
      * intros [H|[text [l [[<-|H1] [H2 H3]]]]]; eauto 8.
        left. right. congruence.
    + split.
      * intros [H|[text [l [H1 H2]]]]; eauto 8.
      * intros [H|[text [l [[<-|H1] [H2 H3]]]]]; eauto 8. congruence.
Qed.

Lemma collect_NoDup (texts s : list string) :
  NoDup s -> NoDup (TodoDatabase.collect texts s).
Proof.
  unfold TodoDatabase.collect.
  revert s; induction texts as [|t texts IH]; intros s H; cbn [fold_left];
    auto.
  apply IH. destruct (JSON.parse _); [now apply add_all_NoDup | exact H].
Qed.

Lemma distinct_In (l : list string) (x : string) :
  In x (Sqlite.distinct l) <-> In x l.
Proof.
  induction l as [|y l IH]; simpl; [tauto|].
  rewrite filter_In, IH. split.
  - intros [H|[H _]]; auto.
  - intros [H|H]; [now left|].
    destruct (String.eqb_spec x y) as [->|Hne]; [now left|].
    right. split; [exact H | reflexivity].
Qed.

Lemma tag_texts_In (db : TodoDatabase.table) (text : string) :
  In text (TodoDatabase.tag_texts db) <->
  exists row, In row db /\ Row.tags row = Some text /\ text <> "[]".
Proof.
  unfold TodoDatabase.tag_texts. rewrite distinct_In, in_flat_map. split.
  - intros [row [Hrow H]]. exists row. split; [exact Hrow|].
    destruct (Row.tags row) as [t|]; [|destruct H].
    destruct (String.eqb_spec t "[]"); [destruct H|].
    destruct H as [<-|[]]. auto.
  - intros [row [Hrow [Ht Hne]]]. exists row. split; [exact Hrow|].
    rewrite Ht. apply String.eqb_neq in Hne. rewrite Hne. now left.
Qed.

(** Sorted without a repetition is strictly sorted. *)
Lemma sorted_strict (l : list string) :
  NoDup l -> StronglySorted (fun a b => sort_leb a b = true) l ->
  StronglySorted sort_lt l.
Proof.
  induction 2 as [|x l Hs IH Hx]; [constructor|].
  inversion H as [|? ? Hnin Hnd]; subst.
  constructor; [auto|].
  rewrite Forall_forall in *. intros y Hy.
  apply sort_leb_lt; [auto|]. intros ->. contradiction.
Qed.

End TagFacts.

Module CommandFacts.
Import Js JsFacts OrderFacts JSONFacts DbFacts.

Lemma find_last {A : Type} (f : A -> bool) (l : list A) (x : A) :
  find f l = None -> f x = true -> find f (l ++ [x])%list = Some x.
Proof.
  induction l as [|y l IH]; simpl; intros Hnone Hx.
  - now rewrite Hx.
  - destruct (f y); [discriminate | auto].
Qed.

Lemma find_none_iff {A : Type} (f : A -> bool) (l : list A) :
  find f l = None <-> forall x, In x l -> f x = false.
Proof.
  induction l as [|y l IH]; simpl.
  - split; [intros _ x [] | reflexivity].
  - destruct (f y) eqn:E.
    + split; [discriminate|]. intros H. specialize (H y (or_introl eq_refl)).
      congruence.
    + rewrite IH. split.
      * intros H x [<-|Hx]; auto.
      * intros H x Hx. apply H. now right.
Qed.

(** No row with the identifier, said with [select_by_id]. *)
Lemma unknown_select (id : string) (db : TodoDatabase.table) :
  Spec.unknown id db <-> TodoDatabase.select_by_id id db = None.
Proof.
  unfold Spec.unknown, TodoDatabase.select_by_id. rewrite find_none_iff.
  unfold TodoDatabase.has_id.
  split; intros H row Hrow; specialize (H row Hrow).
  - now apply String.eqb_neq.
  - now apply String.eqb_neq in H.
Qed.

(** The row written for a todo reads back as [Spec.as_stored] of it. *)
Lemma written_row_reads_back (todo : Todo.t) (tags : list string) (c : bool) :
  Todo.tags todo = Some tags ->
  Todo.completed todo = Some c ->
  (exists p, Todo.priority todo = val p) ->
  TodoDatabase.rowToTodo
    {| Row.id := Todo.id todo;
       Row.title := Todo.title todo;
       Row.description := or_null (Todo.description todo);
       Row.completed := TodoDatabase.bind_flag (Todo.completed todo);
       Row.priority := TodoDatabase.bind_text (Todo.priority todo);
       Row.due_date := or_null (Todo.dueDate todo);
       Row.tags := TodoDatabase.bind_tags (Todo.tags todo);
       Row.created_at := Todo.createdAt todo;
       Row.updated_at := Todo.updatedAt todo |} = Ok (Spec.as_stored todo).
Proof.
  intros Htags Hc [p Hp]. unfold TodoDatabase.rowToTodo, Spec.as_stored.
  cbn [Row.tags Row.id Row.title Row.description Row.completed Row.priority
       Row.due_date Row.created_at Row.updated_at].
  rewrite Htags, Hc, Hp. cbn [TodoDatabase.bind_tags option_map].
  unfold TodoDatabase.tags_text. rewrite stringify_not_empty, parse_stringify.
  destruct c; reflexivity.
Qed.

(** What [createTodo] of the access layer returns and writes. *)
Lemma db_createTodo_ok (input : CreateTodoInput.t) (uuid now : string)
  (db db' : TodoDatabase.table) (todo : Todo.t) :
  TodoDatabase.createTodo input uuid now db = (Ok todo, db') ->
  TodoDatabase.select_by_id uuid db = None /\
  Todo.id todo = uuid /\
  TodoDatabase.getTodoById uuid db' = Ok (Some (Spec.as_stored todo)).
Proof.
  unfold TodoDatabase.createTodo.
  destruct (TodoDatabase.select_by_id uuid db) eqn:Hsel; [discriminate|].
  intros [= <- <-]. split; [reflexivity|]. split; [reflexivity|].
  unfold TodoDatabase.getTodoById, TodoDatabase.select_by_id.
  rewrite (find_last _ _ _ Hsel);
    [|unfold TodoDatabase.has_id; apply String.eqb_refl].
  match goal with
  | |- bind (TodoDatabase.rowToTodo ?row) _ = Ok (Some (Spec.as_stored ?t)) =>
      change row with
        {| Row.id := Todo.id t;
           Row.title := Todo.title t;
           Row.description := or_null (Todo.description t);
           Row.completed := TodoDatabase.bind_flag (Todo.completed t);
           Row.priority := TodoDatabase.bind_text (Todo.priority t);
           Row.due_date := or_null (Todo.dueDate t);
           Row.tags := TodoDatabase.bind_tags (Todo.tags t);
           Row.created_at := Todo.createdAt t;
           Row.updated_at := Todo.updatedAt t |};
      erewrite (written_row_reads_back t)
  end; [reflexivity | reflexivity | reflexivity | eexists; reflexivity].
Qed.

(** The service passes a validated, normalized input on. *)
Lemma createTodo_ok (valid_date : string -> bool) (input : CreateTodoInput.t)
  (uuid now : string) (db db' : TodoDatabase.table) (todo : Todo.t) :
  TodoService.createTodo valid_date input uuid now db = (Ok todo, db') ->
  exists input',
    TodoDatabase.createTodo input' uuid now db = (Ok todo, db').
Proof.
  unfold TodoService.createTodo.
  destruct (blank _); [discriminate|].
  destruct (TodoService.bad_date _ _); [discriminate|].
  destruct (TodoService.bad_priority _); [discriminate|].
  eauto.
Qed.

(** A valid input and a fresh identifier: the creation succeeds. *)
Lemma createTodo_succeeds (valid_date : string -> bool)
  (input : CreateTodoInput.t) (uuid now : string) (db : TodoDatabase.table) :
  blank (CreateTodoInput.title input) = false ->
  TodoService.bad_date valid_date (CreateTodoInput.dueDate input) = false ->
  TodoService.bad_priority (CreateTodoInput.priority input) = false ->
  Spec.unknown uuid db ->
  exists todo db',
    TodoService.createTodo valid_date input uuid now db = (Ok todo, db').
Proof.
  intros Ht Hd Hp Hu. unfold TodoService.createTodo.
  rewrite Ht, Hd, Hp. unfold TodoDatabase.createTodo.
  apply unknown_select in Hu. rewrite Hu. eauto.
Qed.

End CommandFacts.

Module SearchFacts.
Import Js JsFacts DbFacts QueryFacts.

Lemma filterM_pure {A : Type} (f : A -> result bool) (g : A -> bool)
  (l : list A) :
  (forall x, In x l -> f x = Ok (g x)) -> filterM f l = Ok (List.filter g l).
Proof.
  induction l as [|x l IH]; intros H; simpl; [reflexivity|].
  rewrite (H x (or_introl eq_refl)), IH; [reflexivity|].
  intros y Hy. apply H. now right.
Qed.

Lemma matches_hit (lower : string -> string) (term : string) (todo : Todo.t)
  (tags : list string) :
  Todo.tags todo = Some tags ->
  TodoService.matches lower term todo = Ok (Spec.search_hitb lower term todo).
Proof.
  intros Htags. unfold TodoService.matches, Spec.search_hitb. rewrite Htags.
  destruct (includes (lower (Todo.title todo)) term); [reflexivity|].
  destruct (Todo.description todo) as [| |d]; try reflexivity.
  destruct (includes (lower d) term); reflexivity.
Qed.

Lemma hit_iff (lower : string -> string) (term : string) (todo : Todo.t) :
  Spec.search_hitb lower term todo = true <->
  Spec.search_hit lower term todo.
Proof.
  unfold Spec.search_hitb, Spec.search_hit, Spec.occurs_in.
  rewrite !orb_true_iff, includes_iff. split.
  - intros [[H|H]|H].
    + now left.
    + right; left. destruct (Todo.description todo) as [| |d];
        try discriminate.
      exists d. split; [reflexivity | now apply includes_iff].
    + right; right. destruct (Todo.tags todo) as [tags|]; [|discriminate].
      apply existsb_exists in H as [tag [Hin H]].
      exists tags, tag. repeat split; auto. now apply includes_iff.
  - intros [H|[[d [Hd H]]|[tags [tag [Htags [Hin H]]]]]].
    + now left; left.
    + left; right. rewrite Hd. now apply includes_iff.
    + right. rewrite Htags. apply existsb_exists.
      exists tag. split; [exact Hin | now apply includes_iff].
Qed.

Lemma listed_has_tags (engine : TodoDatabase.plan) (db : TodoDatabase.table)
  (all : list Todo.t) (todo : Todo.t) :
  TodoDatabase.getAllTodos engine None db = Ok all -> In todo all ->
  exists tags, Todo.tags todo = Some tags.
Proof.
  intros Hall Hin.
  apply (listed_In engine db all todo Hall) in Hin as [row [_ Hto]].
  apply rowToTodo_fields in Hto as [l [_ ->]]. exists l. reflexivity.
Qed.

End SearchFacts.

Module InvariantFacts.
Import Js JsFacts OrderFacts JSONFacts DbFacts CommandFacts.



(** *** The table stays readable *)






(** *** A todo that was fetched comes from a row *)

Lemma getTodoById_Some (id : string) (db : TodoDatabase.table)
  (todo : Todo.t) :
  TodoDatabase.getTodoById id db = Ok (Some todo) ->
  exists row,
    In row db /\ Row.id row = id /\ TodoDatabase.rowToTodo row = Ok todo.
Proof.
  unfold TodoDatabase.getTodoById, TodoDatabase.select_by_id.
  destruct (find (TodoDatabase.has_id id) db) as [row|] eqn:Hfind;
    [|discriminate].
  apply find_some in Hfind as [Hin Hid].
  destruct (TodoDatabase.rowToTodo row) as [t|] eqn:Hto; [|discriminate].
  intros [= <-]. exists row. repeat split; auto.
  now apply String.eqb_eq in Hid.
Qed.

End InvariantFacts.

Module LikeFacts.
Import Js JsFacts JSONFacts DbFacts.

(** The equations of [like], one for each kind of pattern byte. *)
Lemma like_percent (p text : string) :
  Sqlite.like (String "%" p) text =
  (negb (starts_with_cont text) && Sqlite.like p text) ||
  match text with
  | EmptyString => false
  | String _ r => Sqlite.like (String "%" p) r
  end.
Proof. destruct text; reflexivity. Qed.

Lemma like_byte (c : ascii) (p text : string) :
  (c =? "%")%char = false -> (c =? "_")%char = false ->
  Sqlite.like (String c p) text =
  match text with
  | EmptyString => false
  | String d r => Sqlite.like_eq c d && Sqlite.like p r
  end.
Proof. intros H1 H2. cbn [Sqlite.like]. now rewrite H1, H2. Qed.

Lemma like_underscore (p text : string) :
  Sqlite.like (String "_" p) text =
  match Sqlite.next_char text with
  | Some r => Sqlite.like p r
  | None => false
  end.
Proof. reflexivity. Qed.

Lemma like_percent_cons (p : string) (c : ascii) (text : string) :
  Sqlite.like (String "%" p) text = true ->
  Sqlite.like (String "%" p) (String c text) = true.
Proof. intros H. rewrite like_percent, H. apply orb_true_r. Qed.

Lemma like_percent_skip (p a text : string) :
  Sqlite.like (String "%" p) text = true ->
  Sqlite.like (String "%" p) (a ++ text) = true.
Proof.
  intros H. induction a as [|c a IH]; [exact H|].
  cbn [append]. now apply like_percent_cons.
Qed.

Lemma like_percent_here (p text : string) :
  starts_with_cont text = false -> Sqlite.like p text = true ->
  Sqlite.like (String "%" p) text = true.
Proof. intros Hc H. rewrite like_percent, Hc, H. reflexivity. Qed.

Lemma like_percent_all (text : string) : Sqlite.like "%" text = true.
Proof.
  induction text as [|c text IH]; [reflexivity|].
  now apply like_percent_cons.
Qed.

Lemma like_eq_refl (c : ascii) : Sqlite.like_eq c c = true.
Proof. unfold Sqlite.like_eq. now rewrite Ascii.eqb_refl. Qed.

Lemma plain_char_not_cont (c : ascii) :
  Spec.plain_char c = true -> is_cont c = false.
Proof.
  unfold Spec.plain_char, is_cont.
  rewrite !andb_true_iff, andb_false_iff, N.leb_le, N.ltb_lt, N.leb_gt.
  intros [[[H1 H2] _] _]. left. lia.
Qed.

Lemma plain_char_next (c : ascii) (r : string) :
  Spec.plain_char c = true -> Sqlite.next_char (String c r) = Some r.
Proof.
  unfold Spec.plain_char, Sqlite.next_char.
  rewrite !andb_true_iff, N.leb_le, N.ltb_lt.
  intros [[[H1 H2] _] _].
  destruct (192 <=? code c)%N eqn:E; [|reflexivity].
  apply N.leb_le in E. lia.
Qed.

(** A plain text, read as a pattern, matches itself. *)
Lemma like_self (t : string) :
  forall p s,
    Spec.plain_tag t = true -> starts_with_cont s = false ->
    Sqlite.like p s = true -> Sqlite.like (t ++ p) (t ++ s) = true.
Proof.
  unfold Spec.plain_tag.
  induction t as [|c t IH]; intros p s Hplain Hs H; [exact H|].
  cbn [list_ascii_of_string forallb] in Hplain.
  apply andb_true_iff in Hplain as [Hc Ht].
  specialize (IH p s Ht Hs H).
  assert (Hstart : starts_with_cont (t ++ s) = false).
  { destruct t as [|d t]; [exact Hs|].
    cbn [list_ascii_of_string forallb] in Ht.
    apply andb_true_iff in Ht as [Hd _].
    cbn [append starts_with_cont]. now apply plain_char_not_cont. }
  cbn [append].
  destruct (c =? "%")%char eqn:E1.
  - apply Ascii.eqb_eq in E1. subst c.
    apply like_percent_cons, like_percent_here; assumption.
  - destruct (c =? "_")%char eqn:E2.
    + apply Ascii.eqb_eq in E2. subst c.
      now rewrite like_underscore, (plain_char_next _ _ Hc).
    + now rewrite (like_byte c _ _ E1 E2), like_eq_refl.
Qed.

Lemma escape_plain (c : ascii) :
  Spec.plain_char c = true -> JSON.escape c = String c "".
Proof.
  destruct c as [[] [] [] [] [] [] [] []]; cbv; intros H;
    try reflexivity; discriminate.
Qed.

Lemma escape_all_plain (t : string) :
  Spec.plain_tag t = true -> JSON.escape_all t = t.
Proof.
  unfold Spec.plain_tag. induction t as [|c t IH]; [reflexivity|].
  cbn [list_ascii_of_string forallb JSON.escape_all].
  intros H. apply andb_true_iff in H as [Hc Ht].
  rewrite (escape_plain c Hc), (IH Ht). reflexivity.
Qed.

Lemma stringify_member (l : list string) (t : string) :
  In t l -> exists a b, JSON.stringify l = a ++ JSON.quote t ++ b.
Proof.
  unfold JSON.stringify. intros Hin.
  assert (H : exists a b, JSON.elements l = a ++ JSON.quote t ++ b).
  { induction l as [|x l IH]; [destruct Hin|].
    destruct Hin as [->|Hin].
    - exists "". destruct l as [|y l].
      + exists "". cbn [JSON.elements append]. now rewrite append_nil_r.
      + exists ("," ++ JSON.elements (y :: l)). now rewrite elements_cons.
    - destruct l as [|y l]; [destruct Hin|].
      destruct (IH Hin) as [a [b Hab]].
      exists (JSON.quote x ++ "," ++ a), b.
      rewrite elements_cons, Hab, !append_assoc. reflexivity. }
  destruct H as [a [b ->]].
  exists (String "[" a), (b ++ "]"). cbn [append].
  now rewrite !append_assoc.
Qed.

(** The condition of the tag filter holds on the JSON text of every list
    that holds the tag, when the tag is plain. *)
Lemma like_written_tags (tag : string) (tags : list string) :
  Spec.plain_tag tag = true -> In tag tags ->
  Sqlite.like ("%" ++ String dquote (tag ++ String dquote "%"))
    (JSON.stringify tags) = true.
Proof.
  intros Hplain Hin.
  destruct (stringify_member tags tag Hin) as [a [b ->]].
  cbn [append]. apply like_percent_skip.
  unfold JSON.quote. rewrite (escape_all_plain tag Hplain).
  cbn [append]. rewrite append_assoc. cbn [append].
  apply like_percent_here; [reflexivity|].
  rewrite like_byte, like_eq_refl by reflexivity. cbn [andb].
  apply like_self; [exact Hplain | reflexivity |].
  rewrite like_byte, like_eq_refl by reflexivity. cbn [andb].
  apply like_percent_all.
Qed.

End LikeFacts.

(* ===================================================================== *)
(** ** What the service writes *)
(* ===================================================================== *)

Module SoundFacts.
Import Js JsFacts JSONFacts DbFacts CommandFacts TrimFacts InvariantFacts.

Lemma blank_false_truthy (s : string) : blank s = false -> truthy s = true.
Proof.
  destruct s; [|reflexivity]. vm_compute. discriminate.
Qed.

Lemma clean_text_trim (s : string) :
  blank s = false -> Spec.clean_text (trim s) = true.
Proof.
  intros H. unfold Spec.clean_text. rewrite trim_trim, String.eqb_refl.
  unfold blank in H. apply negb_false_iff in H. now rewrite H.
Qed.

Lemma clean_text_truthy (s : string) :
  Spec.clean_text s = true -> truthy s = true.
Proof. unfold Spec.clean_text. now intros [H _]%andb_true_iff. Qed.

Lemma trim_empty_or_clean (s : string) :
  negb (truthy (trim s)) || Spec.clean_text (trim s) = true.
Proof.
  destruct (blank s) eqn:E.
  - unfold blank in E. now rewrite E.
  - rewrite (clean_text_trim s E). apply orb_true_r.
Qed.

Lemma clean_tags_clean (l : list string) :
  forallb Spec.clean_text (TodoService.clean_tags l) = true.
Proof.
  unfold TodoService.clean_tags. apply forallb_forall. intros x Hx.
  apply in_map_iff in Hx as [t [<- Ht]].
  apply filter_In in Ht as [_ Ht].
  apply clean_text_trim. unfold blank. now rewrite Ht.
Qed.

(** *** Sound rows and the todos read from them *)

Lemma sound_row_todo (row : Row.t) :
  Spec.sound_row row = true ->
  exists todo,
    TodoDatabase.rowToTodo row = Ok todo /\ Spec.sound_todo todo = true /\
    (Row.completed row = 0%Z \/ Row.completed row = 1%Z) /\
    Spec.read_back todo = todo.
Proof.
  unfold Spec.sound_row. rewrite !andb_true_iff, orb_true_iff, !Z.eqb_eq.
  intros [[[[Ht Hd] Hc] Hdue] Htags].
  unfold TodoDatabase.rowToTodo.
  assert (Hparse : exists tags,
            JSON.parse (TodoDatabase.tags_text (Row.tags row)) = Some tags /\
            forallb Spec.clean_text tags = true).
  { destruct (Row.tags row) as [text|]; [|exists []; split; reflexivity].
    destruct (JSON.parse text) as [tags|] eqn:E; [|discriminate].
    apply andb_true_iff in Htags as [Hs Hclean].
    apply String.eqb_eq in Hs. exists tags. split; [|exact Hclean].
    unfold TodoDatabase.tags_text. rewrite <- Hs.
    rewrite stringify_not_empty. apply parse_stringify. }
  destruct Hparse as [tags [-> Hclean]].
  eexists. split; [reflexivity|]. split; [|split; [exact Hc|]].
  - unfold Spec.sound_todo. cbn. rewrite Ht, Hclean.
    destruct (Row.description row); destruct (Row.due_date row);
      destruct (Row.priority row); cbn; rewrite ?Hd, ?Hdue; reflexivity.
  - unfold Spec.read_back. cbn. f_equal.
    + destruct (Row.description row) as [d|]; [|reflexivity].
      cbn. now rewrite (clean_text_truthy d Hd).
    + destruct Hc as [-> | ->]; reflexivity.
    + destruct (Row.priority row); reflexivity.
    + destruct (Row.due_date row) as [d|]; [|reflexivity].
      cbn. now rewrite Hdue.
Qed.

Lemma sound_In (db : TodoDatabase.table) (row : Row.t) :
  Spec.sound db -> In row db -> Spec.sound_row row = true.
Proof. unfold Spec.sound. rewrite forallb_forall. auto. Qed.

Lemma sound_readable (db : TodoDatabase.table) :
  Spec.sound db -> Spec.readable db.
Proof.
  intros H. unfold Spec.readable. apply forallb_forall. intros row Hrow.
  destruct (sound_row_todo row (sound_In db row H Hrow)) as [todo [Hto _]].
  apply readable_row_iff. eauto.
Qed.

Lemma sound_fetched (id : string) (db : TodoDatabase.table) (todo : Todo.t) :
  Spec.sound db -> TodoDatabase.getTodoById id db = Ok (Some todo) ->
  Spec.sound_todo todo = true /\ Spec.read_back todo = todo.
Proof.
  intros Hs Hget. apply getTodoById_Some in Hget as [row [Hin [_ Hto]]].
  destruct (sound_row_todo row (sound_In db row Hs Hin))
    as [todo' [Hto' [H1 [_ H2]]]].
  assert (todo' = todo) by congruence. subst. auto.
Qed.

(** *** The row written for a writable todo is sound *)

Lemma written_row_sound (todo : Todo.t) (id created : string) :
  Spec.writable todo = true ->
  Spec.sound_row
    {| Row.id := id;
       Row.title := Todo.title todo;
       Row.description := or_null (Todo.description todo);
       Row.completed := TodoDatabase.bind_flag (Todo.completed todo);
       Row.priority := TodoDatabase.bind_text (Todo.priority todo);
       Row.due_date := or_null (Todo.dueDate todo);
       Row.tags := TodoDatabase.bind_tags (Todo.tags todo);
       Row.created_at := created;
       Row.updated_at := Todo.updatedAt todo |} = true.
Proof.
  unfold Spec.writable, Spec.sound_row. intros H.
  apply andb_true_iff in H as [H Htags].
  apply andb_true_iff in H as [Ht Hd].
  cbn [Row.title Row.description Row.completed Row.due_date Row.tags].
  rewrite Ht. cbn [andb].
  assert (H1 : match or_null (Todo.description todo) with
               | Some d => Spec.clean_text d
               | None => true
               end = true).
  { destruct (Todo.description todo) as [| |d]; try reflexivity.
    cbn [or_null]. destruct (truthy d) eqn:E; [|reflexivity].
    cbn [negb orb] in Hd. exact Hd. }
  assert (H2 : match or_null (Todo.dueDate todo) with
               | Some d => truthy d
               | None => true
               end = true).
  { destruct (Todo.dueDate todo) as [| |d]; try reflexivity.
    cbn [or_null]. destruct (truthy d) eqn:E; [exact E | reflexivity]. }
  assert (H3 : ((TodoDatabase.bind_flag (Todo.completed todo) =? 0)%Z
                || (TodoDatabase.bind_flag (Todo.completed todo) =? 1)%Z)
               = true).
  { destruct (Todo.completed todo) as [[]|]; reflexivity. }
  rewrite H1, H2, H3. cbn [andb].
  destruct (Todo.tags todo) as [tags|]; [|reflexivity].
  cbn [TodoDatabase.bind_tags option_map].
  now rewrite parse_stringify, String.eqb_refl, Htags.
Qed.

(** *** The commands keep the table sound *)

Lemma sound_app (db db' : TodoDatabase.table) :
  Spec.sound (db ++ db')%list <-> Spec.sound db /\ Spec.sound db'.
Proof. unfold Spec.sound. rewrite forallb_app, andb_true_iff. reflexivity. Qed.

Lemma createTodo_sound (valid_date : string -> bool)
  (input : CreateTodoInput.t) (uuid now : string) (db : TodoDatabase.table) :
  Spec.sound db ->
  Spec.sound (snd (TodoService.createTodo valid_date input uuid now db)).
Proof.
  intros Hs. unfold TodoService.createTodo.
  destruct (blank (CreateTodoInput.title input)) eqn:Hb; [exact Hs|].
  destruct (TodoService.bad_date _ _); [exact Hs|].
  destruct (TodoService.bad_priority _); [exact Hs|].
  unfold TodoDatabase.createTodo.
  destruct (TodoDatabase.select_by_id uuid db); [exact Hs|].
  cbn [snd]. apply sound_app. split; [exact Hs|].
  unfold Spec.sound. cbn [forallb]. rewrite andb_true_r.
  match goal with
  | |- Spec.sound_row
         {| Row.id := _; Row.title := Todo.title ?t; Row.description := _;
            Row.completed := _; Row.priority := _; Row.due_date := _;
            Row.tags := _; Row.created_at := ?c; Row.updated_at := _ |} = _ =>
      apply (written_row_sound t uuid c)
  end.
  unfold Spec.writable.
  cbn [Todo.title Todo.description Todo.tags CreateTodoInput.title
       CreateTodoInput.description CreateTodoInput.tags].
  rewrite (clean_text_trim _ Hb). cbn [andb].
  apply andb_true_iff. split.
  - destruct (CreateTodoInput.description input) as [d|]; [|reflexivity].
    cbn. apply trim_empty_or_clean.
  - destruct (CreateTodoInput.tags input) as [l|]; [|reflexivity].
    apply clean_tags_clean.
Qed.

Lemma updateTodo_sound (valid_date : string -> bool) (id : string)
  (input : UpdateTodoInput.t) (now : string) (db : TodoDatabase.table) :
  Spec.sound db ->
  Spec.sound (snd (TodoService.updateTodo valid_date id input now db)).
Proof.
  intros Hs. unfold TodoService.updateTodo.
  destruct (blank id); [exact Hs|].
  destruct (TodoDatabase.getTodoById id db) as [[existing|]|e] eqn:Hget;
    try exact Hs.
  destruct (match read (UpdateTodoInput.title input) with
            | Some t => blank t
            | None => false
            end) eqn:Htitle; [exact Hs|].
  destruct (TodoService.bad_date _ _); [exact Hs|].
  destruct (TodoService.bad_priority _); [exact Hs|].
  unfold TodoDatabase.updateTodo. rewrite Hget.
  destruct (sound_fetched id db existing Hs Hget) as [He _].
  unfold Spec.sound_todo in He. rewrite !andb_true_iff in He.
  destruct He as [[[[[He1 He2] _] _] _] He6].
  destruct (TodoDatabase.spread (Some (Todo.title existing))
              (UpdateTodoInput.title (TodoService.updateData input)))
    as [title'|] eqn:Hspread; [|exact Hs].
  cbn [snd]. unfold Spec.sound in *. rewrite forallb_forall in *.
  intros row Hrow. apply in_map_iff in Hrow as [row0 [<- Hrow0]].
  destruct (TodoDatabase.has_id id row0); [|auto].
  match goal with
  | |- Spec.sound_row
         {| Row.id := ?i; Row.title := Todo.title ?t; Row.description := _;
            Row.completed := _; Row.priority := _; Row.due_date := _;
            Row.tags := _; Row.created_at := ?c; Row.updated_at := _ |} = _ =>
      apply (written_row_sound t i c)
  end.
  unfold Spec.writable, TodoService.updateData in *.
  cbn [Todo.title Todo.description Todo.tags UpdateTodoInput.title
       UpdateTodoInput.description UpdateTodoInput.tags] in *.
  rewrite !andb_true_iff. repeat split.
  - destruct (UpdateTodoInput.title input) as [|[t|]]; cbn in *.
    + injection Hspread as <-. exact He1.
    + injection Hspread as <-.
      rewrite (blank_false_truthy t Htitle). now apply clean_text_trim.
    + discriminate.
  - destruct (UpdateTodoInput.description input) as [|[d|]]; cbn.
    + destruct (Todo.description existing) as [| |d]; try reflexivity.
      rewrite He2. apply orb_true_r.
    + apply trim_empty_or_clean.
    + reflexivity.
  - destruct (UpdateTodoInput.tags input) as [|[l|]]; cbn.
    + destruct (Todo.tags existing); [exact He6 | reflexivity].
    + apply clean_tags_clean.
    + reflexivity.
Qed.

Lemma deleteTodo_sound (id : string) (db : TodoDatabase.table) :
  Spec.sound db -> Spec.sound (snd (TodoService.deleteTodo id db)).
Proof.
  intros Hs. unfold TodoService.deleteTodo.
  destruct (blank id); [exact Hs|].
  destruct (TodoDatabase.getTodoById id db) as [[existing|]|e];
    try exact Hs.
  cbn [TodoDatabase.deleteTodo snd].
  unfold Spec.sound in *. rewrite forallb_forall in *.
  intros row Hrow. apply filter_In in Hrow as [Hrow _]. auto.
Qed.

(** *** The identifiers stay distinct *)


Lemma createTodo_ids (valid_date : string -> bool)
  (input : CreateTodoInput.t) (uuid now : string) (db : TodoDatabase.table) :
  NoDup (map Row.id db) ->
  NoDup (map Row.id
           (snd (TodoService.createTodo valid_date input uuid now db))).
Proof.
  intros Hn. unfold TodoService.createTodo.
  destruct (blank _); [exact Hn|].
  destruct (TodoService.bad_date _ _); [exact Hn|].
  destruct (TodoService.bad_priority _); [exact Hn|].
  unfold TodoDatabase.createTodo.
  destruct (TodoDatabase.select_by_id uuid db) eqn:Hsel; [exact Hn|].
  cbn [snd]. rewrite map_app. cbn [map Row.id Todo.id].
  apply NoDup_app; [exact Hn | repeat constructor; auto |].
  intros x Hx [<-|[]]. apply unknown_select in Hsel.
  apply in_map_iff in Hx as [row [Hid Hrow]]. now apply (Hsel row).
Qed.

Lemma updateTodo_ids (valid_date : string -> bool) (id : string)
  (input : UpdateTodoInput.t) (now : string) (db : TodoDatabase.table) :
  map Row.id (snd (TodoService.updateTodo valid_date id input now db)) =
  map Row.id db.
Proof.
  unfold TodoService.updateTodo.
  destruct (blank id); [reflexivity|].
  destruct (TodoDatabase.getTodoById id db) as [[existing|]|e] eqn:Hget;
    try reflexivity.
  destruct (match read (UpdateTodoInput.title input) with
            | Some t => blank t
            | None => false
            end); [reflexivity|].
  destruct (TodoService.bad_date _ _); [reflexivity|].
  destruct (TodoService.bad_priority _); [reflexivity|].
  unfold TodoDatabase.updateTodo. rewrite Hget.
  destruct (TodoDatabase.spread _ _); [|reflexivity].
  cbn [snd]. rewrite map_map. apply map_ext. intros row.
  destruct (TodoDatabase.has_id id row); reflexivity.
Qed.

Lemma deleteTodo_ids (id : string) (db : TodoDatabase.table) :
  NoDup (map Row.id db) ->
  NoDup (map Row.id (snd (TodoService.deleteTodo id db))).
Proof.
  intros Hn. unfold TodoService.deleteTodo.
  destruct (blank id); [exact Hn|].
  destruct (TodoDatabase.getTodoById id db) as [[existing|]|e];
    try exact Hn.
  cbn [TodoDatabase.deleteTodo snd]. now apply NoDup_map_filter.
Qed.

End SoundFacts.

(* ===================================================================== *)
(** ** What a command leaves alone, and what a filter selects *)
(* ===================================================================== *)

Module FrameFacts.
Import Js JsFacts OrderFacts JSONFacts DbFacts QueryFacts CommandFacts.
Import InvariantFacts SoundFacts.

Lemma find_map {A : Type} (P : A -> bool) (f : A -> A) (l : list A) :
  (forall x, P (f x) = P x) -> find P (map f l) = option_map f (find P l).
Proof.
  intros H. induction l as [|x l IH]; simpl; [reflexivity|].
  rewrite H. destruct (P x); [reflexivity | exact IH].
Qed.

Lemma find_map_fixed {A : Type} (P : A -> bool) (f : A -> A) (l : list A) :
  (forall x, P (f x) = P x) -> (forall x, P x = true -> f x = x) ->
  find P (map f l) = find P l.
Proof.
  intros H1 H2. rewrite (find_map P f l H1).
  destruct (find P l) as [x|] eqn:E; [|reflexivity].
  apply find_some in E as [_ E]. simpl. now rewrite H2.
Qed.

Lemma find_app_other {A : Type} (P : A -> bool) (l : list A) (x : A) :
  P x = false -> find P (l ++ [x])%list = find P l.
Proof.
  intros H. induction l as [|y l IH]; simpl; [now rewrite H|].
  destruct (P y); [reflexivity | exact IH].
Qed.

Lemma has_id_other (id id' : string) (row : Row.t) :
  id' <> id -> TodoDatabase.has_id id' row = true ->
  TodoDatabase.has_id id row = false.
Proof.
  unfold TodoDatabase.has_id. intros Hne H. apply String.eqb_eq in H.
  apply String.eqb_neq. congruence.
Qed.

(** The row an UPDATE writes reads back as [Spec.read_back]. *)
Lemma updated_row_reads_back (todo : Todo.t) :
  TodoDatabase.rowToTodo
    {| Row.id := Todo.id todo;
       Row.title := Todo.title todo;
       Row.description := or_null (Todo.description todo);
       Row.completed := TodoDatabase.bind_flag (Todo.completed todo);
       Row.priority := TodoDatabase.bind_text (Todo.priority todo);
       Row.due_date := or_null (Todo.dueDate todo);
       Row.tags := TodoDatabase.bind_tags (Todo.tags todo);
       Row.created_at := Todo.createdAt todo;
       Row.updated_at := Todo.updatedAt todo |} = Ok (Spec.read_back todo).
Proof.
  unfold TodoDatabase.rowToTodo, Spec.read_back.
  cbn [Row.tags Row.id Row.title Row.description Row.completed Row.priority
       Row.due_date Row.created_at Row.updated_at].
  destruct (Todo.tags todo) as [tags|]; cbn [TodoDatabase.bind_tags option_map].
  - unfold TodoDatabase.tags_text.
    now rewrite stringify_not_empty, parse_stringify.
  - reflexivity.
Qed.

(** *** Filtering and the stable sort commute *)

Section FilterSort.
Context {A : Type}.
Variable le : A -> A -> bool.
Variable p : A -> bool.
Hypothesis le_trans :
  forall a b c, le a b = true -> le b c = true -> le a c = true.

Lemma insert_by_first (x : A) (l : list A) :
  Forall (fun z => le x z = true) l -> insert_by le x l = x :: l.
Proof. destruct 1 as [|z l Hz _]; simpl; [reflexivity | now rewrite Hz]. Qed.

Lemma filter_insert_by (x : A) (l : list A) :
  StronglySorted (fun a b => le a b = true) l ->
  List.filter p (insert_by le x l) =
  if p x then insert_by le x (List.filter p l) else List.filter p l.
Proof using le_trans.
  induction 1 as [|y l Hs IH Hy]; simpl.
  - destruct (p x); reflexivity.
  - destruct (le x y) eqn:E.
    + simpl. destruct (p x) eqn:Ex; [|reflexivity].
      destruct (p y) eqn:Ey; simpl; [now rewrite E|].
      symmetry. apply insert_by_first.
      rewrite Forall_forall in *. intros z Hz.
      apply filter_In in Hz as [Hz _]. eauto.
    + simpl. rewrite IH.
      destruct (p y) eqn:Ey; destruct (p x) eqn:Ex; simpl;
        rewrite ?E; reflexivity.
Qed.

Hypothesis le_total : forall a b, le a b = true \/ le b a = true.

Lemma filter_sort_by (l : list A) :
  List.filter p (sort_by le l) = sort_by le (List.filter p l).
Proof using le_trans le_total.
  induction l as [|x l IH]; simpl; [reflexivity|].
  rewrite filter_insert_by by now apply sort_by_sorted.
  rewrite IH. destruct (p x); reflexivity.
Qed.
End FilterSort.

Lemma mapM_filter {A B : Type} (f : A -> result B) (p : A -> bool)
  (q : B -> bool) (l : list A) (ys : list B) :
  mapM f l = Ok ys ->
  (forall x y, In x l -> f x = Ok y -> p x = q y) ->
  mapM f (List.filter p l) = Ok (List.filter q ys).
Proof.
  intros H. apply mapM_Forall2 in H.
  induction H as [|x y l ys Hxy _ IH]; intros Hpq; [reflexivity|].
  simpl. rewrite <- (Hpq x y (or_introl eq_refl) Hxy).
  assert (IH' : mapM f (List.filter p l) = Ok (List.filter q ys)).
  { apply IH. intros x' y' Hin. apply Hpq. now right. }
  destruct (p x); simpl; [rewrite Hxy, IH'|]; auto.
Qed.

Lemma order_desc_filter (p : Row.t -> bool) (db : TodoDatabase.table) :
  Sqlite.order_by_desc Row.created_at (List.filter p db) =
  List.filter p (Sqlite.order_by_desc Row.created_at db).
Proof.
  unfold Sqlite.order_by_desc. symmetry. apply filter_sort_by.
  - intros a b c H1 H2. eapply text_le_trans; eauto.
  - intros a b. apply text_le_total.
Qed.

(** On a sound row the conditions of a filter without a tag say what
    [Spec.passes] says on the todo. *)
Lemma where_all_passes (filter : TodoFilter.t) (row : Row.t) (todo : Todo.t) :
  Spec.no_tag filter = true ->
  Row.completed row = 0%Z \/ Row.completed row = 1%Z ->
  TodoDatabase.rowToTodo row = Ok todo ->
  TodoDatabase.where_all (TodoDatabase.conditions (Some filter)) row =
  Spec.passes filter todo.
Proof.
  intros Hno Hc Hto. apply rowToTodo_fields in Hto as [l [_ ->]].
  unfold TodoDatabase.where_all, TodoDatabase.conditions, Spec.passes,
    Spec.no_tag, Spec.has_priority in *.
  cbn [Todo.completed Todo.priority Todo.dueDate].
  rewrite !forallb_app.
  assert (Htag : forallb (fun c : Row.t -> bool => c row)
            match TodoFilter.tag filter with
            | Some t =>
                if truthy t
                then
                 [fun row0 : Row.t =>
                  match Row.tags row0 with
                  | Some text =>
                      Sqlite.like
                        ("%" ++ String dquote (t ++ String dquote "%")) text
                  | None => false
                  end]
                else []
            | None => []
            end = true).
  { destruct (TodoFilter.tag filter) as [t|]; [|reflexivity].
    apply negb_true_iff in Hno. now rewrite Hno. }
  rewrite Htag, !andb_true_r. rewrite <- !andb_assoc.
  f_equal; [|f_equal; [|f_equal]].
  - destruct (TodoFilter.completed filter) as [[]|]; cbn [forallb];
      rewrite ?andb_true_r; try reflexivity;
      destruct Hc as [-> | ->]; reflexivity.
  - destruct (TodoFilter.priority filter) as [q|]; [|reflexivity].
    destruct (truthy q); [|reflexivity]. cbn [forallb].
    rewrite andb_true_r. destruct (Row.priority row); reflexivity.
  - destruct (TodoFilter.dueBefore filter) as [b|]; [|reflexivity].
    destruct (truthy b); [|reflexivity]. cbn [forallb].
    rewrite andb_true_r. destruct (Row.due_date row); reflexivity.
  - destruct (TodoFilter.dueAfter filter) as [a|]; [|reflexivity].
    destruct (truthy a); [|reflexivity]. cbn [forallb].
    rewrite andb_true_r. destruct (Row.due_date row); reflexivity.
Qed.

(** Every listing comes in descending order of creation time. *)
Lemma getAllTodos_sorted (engine : TodoDatabase.plan)
  (filter : option TodoFilter.t) (db : TodoDatabase.table)
  (todos : list Todo.t) :
  TodoDatabase.getAllTodos engine filter db = Ok todos ->
  StronglySorted Spec.created_ge todos.
Proof.
  intros H. apply getAllTodos_rows in H.
  apply (Forall2_sorted _ _ _ _ _) with
    (2 := H) (3 := select_rows_sorted engine filter db).
  intros x y x' y' Hx Hx' Hle.
  apply rowToTodo_fields in Hx as [l [_ ->]].
  apply rowToTodo_fields in Hx' as [l' [_ ->]].
  exact Hle.
Qed.

(** *** Conversions along a rearrangement *)

Lemma Forall2_perm {A B : Type} (P : A -> B -> Prop) (l l' : list A) :
  Permutation l l' ->
  forall ys, Forall2 P l ys ->
  exists ys', Permutation ys ys' /\ Forall2 P l' ys'.
Proof.
  induction 1 as [|x l l' _ IH|x y l|l l' l'' _ IH1 _ IH2]; intros ys H.
  - inversion H; subst. exists []. split; constructor.
  - inversion H as [|? b ? bs Hb Hbs]; subst.
    destruct (IH bs Hbs) as [bs' [Hp Hf]].
    exists (b :: bs'). split; constructor; auto.
  - inversion H as [|? b ? bs Hb Hbs]; subst.
    inversion Hbs as [|? c ? cs Hc Hcs]; subst.
    exists (c :: b :: cs). split; [apply perm_swap|].
    repeat constructor; auto.
  - destruct (IH1 ys H) as [ys' [Hp Hf]].
    destruct (IH2 ys' Hf) as [ys'' [Hp' Hf']].
    exists ys''. split; [etransitivity; eassumption | exact Hf'].
Qed.

Lemma Forall2_functional {A B : Type} (f : A -> result B) (l : list A)
  (ys ys' : list B) :
  Forall2 (fun x y => f x = Ok y) l ys ->
  Forall2 (fun x y => f x = Ok y) l ys' -> ys = ys'.
Proof.
  intros H H'. apply mapM_Forall2 in H, H'. congruence.
Qed.

Lemma Forall2_filter {A B : Type} (P : A -> B -> Prop) (p : A -> bool)
  (q : B -> bool) (l : list A) (ys : list B) :
  Forall2 P l ys ->
  (forall x y, In x l -> P x y -> p x = q y) ->
  Forall2 P (List.filter p l) (List.filter q ys).
Proof.
  induction 1 as [|x y l ys Hxy _ IH]; intros Hpq; [constructor|].
  simpl. rewrite <- (Hpq x y (or_introl eq_refl) Hxy).
  assert (IH' : Forall2 P (List.filter p l) (List.filter q ys)).
  { apply IH. intros x' y' Hin. apply Hpq. now right. }
  destruct (p x); [constructor|]; auto.
Qed.

Lemma no_tag_accepted (filter : TodoFilter.t) (db : TodoDatabase.table) :
  Spec.no_tag filter = true -> TodoDatabase.refused (Some filter) db = false.
Proof.
  unfold Spec.no_tag, TodoDatabase.refused.
  destruct (TodoFilter.tag filter) as [t|]; [|reflexivity].
  intros H. apply negb_true_iff in H. now rewrite H.
Qed.


(** A filter without a tag, on a sound table: a rearrangement of the full
    listing with the todos that fail a condition removed. *)
Lemma filtered_listing (engine : TodoDatabase.plan) (filter : TodoFilter.t)
  (db : TodoDatabase.table) (all : list Todo.t) :
  Spec.sound db -> Spec.no_tag filter = true ->
  TodoDatabase.getAllTodos engine None db = Ok all ->
  exists listed,
    TodoDatabase.getAllTodos engine (Some filter) db = Ok listed /\
    Permutation listed (List.filter (Spec.passes filter) all).
Proof.
  intros Hs Hno Hall.
  assert (Hlisted : exists listed,
            mapM TodoDatabase.rowToTodo
              (TodoDatabase.select_rows engine (Some filter) db) = Ok listed).
  { apply mapM_total. intros row Hin.
    apply select_rows_In in Hin as [Hin _].
    eapply readable_In; eauto using sound_readable. }
  destruct Hlisted as [listed Hlisted]. exists listed.
  unfold TodoDatabase.getAllTodos at 1.
  rewrite (no_tag_accepted filter db Hno). split; [exact Hlisted|].
  apply getAllTodos_None_rows in Hall as [rows [Hperm Hall]].
  assert (Hf : Forall2
                 (fun row todo => TodoDatabase.rowToTodo row = Ok todo)
                 (List.filter
                    (TodoDatabase.where_all
                       (TodoDatabase.conditions (Some filter))) rows)
                 (List.filter (Spec.passes filter) all)).
  { apply Forall2_filter; [exact Hall|].
    intros row todo Hrow Hto.
    apply (Permutation_in _ Hperm) in Hrow.
    destruct (sound_row_todo row (sound_In db row Hs Hrow))
      as [_ [_ [_ [Hc _]]]].
    now apply where_all_passes. }
  assert (Hp : Permutation
                 (List.filter
                    (TodoDatabase.where_all
                       (TodoDatabase.conditions (Some filter))) rows)
                 (TodoDatabase.select_rows engine (Some filter) db)).
  { rewrite select_rows_perm. now apply filter_perm. }
  destruct (Forall2_perm _ _ _ Hp _ Hf) as [ys [Hpy Hfy]].
  apply mapM_Forall2 in Hlisted.
  rewrite (Forall2_functional _ _ _ _ Hlisted Hfy).
  now symmetry.
Qed.

(** A plan whose order is that of the table gives the filtered listing
    in the order of the full one. *)
Lemma filtered_listing_scan (filter : TodoFilter.t) (db : TodoDatabase.table)
  (all : list Todo.t) :
  Spec.sound db -> Spec.no_tag filter = true ->
  TodoDatabase.getAllTodos Sqlite.scan None db = Ok all ->
  TodoDatabase.getAllTodos Sqlite.scan (Some filter) db =
    Ok (List.filter (Spec.passes filter) all).
Proof.
  intros Hs Hno Hall. unfold TodoDatabase.getAllTodos.
  rewrite (no_tag_accepted filter db Hno).
  unfold TodoDatabase.select_rows. cbn [Sqlite.visit Sqlite.scan].
  rewrite order_desc_filter.
  rewrite getAllTodos_None in Hall.
  unfold TodoDatabase.select_rows in Hall.
  cbn [Sqlite.visit Sqlite.scan TodoDatabase.conditions] in Hall.
  unfold TodoDatabase.where_all in Hall at 1. cbn [forallb] in Hall.
  rewrite filter_true in Hall.
  apply (mapM_filter _ _ _ _ _ Hall).
  intros row todo Hrow Hto. apply sort_by_In in Hrow.
  destruct (sound_row_todo row (sound_In db row Hs Hrow))
    as [_ [_ [_ [Hc _]]]].
  now apply where_all_passes.
Qed.

(** With no two rows created at the same instant, every plan does. *)
Lemma filtered_listing_unique (engine : TodoDatabase.plan)
  (filter : TodoFilter.t) (db : TodoDatabase.table) (all : list Todo.t) :
  Spec.sound db -> Spec.no_tag filter = true ->
  NoDup (map Row.created_at db) ->
  TodoDatabase.getAllTodos engine None db = Ok all ->
  TodoDatabase.getAllTodos engine (Some filter) db =
    Ok (List.filter (Spec.passes filter) all).
Proof.
  intros Hs Hno Hnd Hall.
  rewrite (getAllTodos_scan engine None db Hnd) in Hall.
  rewrite (getAllTodos_scan engine (Some filter) db Hnd).
  now apply filtered_listing_scan.
Qed.

(** *** After an update *)

(** What the update of the access layer returns and writes, once the todo
    was found and the merged title is a text. *)
Lemma db_updateTodo_ok (id : string) (input : UpdateTodoInput.t)
  (now : string) (db db' : TodoDatabase.table) (updated : Todo.t) :
  TodoDatabase.updateTodo id input now db = (Ok (Some updated), db') ->
  TodoDatabase.getTodoById id db' = Ok (Some (Spec.read_back updated)) /\
  (forall id', id' <> id ->
     TodoDatabase.select_by_id id' db' = TodoDatabase.select_by_id id' db) /\
  List.length db' = List.length db.
Proof.
  unfold TodoDatabase.updateTodo.
  destruct (TodoDatabase.getTodoById id db) as [[existing|]|e] eqn:Hget;
    try discriminate.
  destruct (TodoDatabase.spread _ _) as [title'|]; [|discriminate].
  intros [= <- <-].
  pose proof Hget as Hrow. unfold TodoDatabase.getTodoById in Hrow.
  destruct (TodoDatabase.select_by_id id db) as [row0|] eqn:Hsel;
    [|discriminate].
  destruct (TodoDatabase.rowToTodo row0) as [t|] eqn:Hto; [|discriminate].
  cbn [bind] in Hrow. injection Hrow as ->.
  pose proof Hsel as Hfound. apply find_some in Hfound as [_ Hid0].
  apply rowToTodo_fields in Hto as [l [_ Hex]].
  split; [|split].
  - unfold TodoDatabase.getTodoById, TodoDatabase.select_by_id in *.
    rewrite find_map, Hsel.
    + cbn [option_map]. rewrite Hid0.
      match goal with
      | |- bind (TodoDatabase.rowToTodo ?row) _ = Ok (Some (Spec.read_back ?t)) =>
          replace row with
            {| Row.id := Todo.id t;
               Row.title := Todo.title t;
               Row.description := or_null (Todo.description t);
               Row.completed := TodoDatabase.bind_flag (Todo.completed t);
               Row.priority := TodoDatabase.bind_text (Todo.priority t);
               Row.due_date := or_null (Todo.dueDate t);
               Row.tags := TodoDatabase.bind_tags (Todo.tags t);
               Row.created_at := Todo.createdAt t;
               Row.updated_at := Todo.updatedAt t |}
            by (rewrite Hex; reflexivity)
      end.
      now rewrite updated_row_reads_back.
    + intros row. unfold TodoDatabase.has_id at 1 3.
      destruct (TodoDatabase.has_id id row); reflexivity.
  - intros id' Hne. unfold TodoDatabase.select_by_id.
    apply find_map_fixed.
    + intros row. unfold TodoDatabase.has_id at 1 3.
      destruct (TodoDatabase.has_id id row); reflexivity.
    + intros row Hrow'. now rewrite (has_id_other id id' row Hne Hrow').
  - apply length_map.
Qed.

(** The same through the service. *)
Lemma updateTodo_ok (valid_date : string -> bool) (id : string)
  (input : UpdateTodoInput.t) (now : string) (db db' : TodoDatabase.table)
  (updated : Todo.t) :
  TodoService.updateTodo valid_date id input now db = (Ok updated, db') ->
  blank id = false /\
  TodoDatabase.updateTodo id (TodoService.updateData input) now db =
    (Ok (Some updated), db').
Proof.
  unfold TodoService.updateTodo.
  destruct (blank id); [discriminate|].
  destruct (TodoDatabase.getTodoById id db) as [[existing|]|e];
    try discriminate.
  destruct (match read (UpdateTodoInput.title input) with
            | Some t => blank t
            | None => false
            end); [discriminate|].
  destruct (TodoService.bad_date _ _); [discriminate|].
  destruct (TodoService.bad_priority _); [discriminate|].
  destruct (TodoDatabase.updateTodo id (TodoService.updateData input) now db)
    as [[[u|]|e] d]; try discriminate.
  intros [= <- <-]. auto.
Qed.

Lemma select_getTodoById (id : string) (db db' : TodoDatabase.table) :
  TodoDatabase.select_by_id id db' = TodoDatabase.select_by_id id db ->
  TodoDatabase.getTodoById id db' = TodoDatabase.getTodoById id db.
Proof. unfold TodoDatabase.getTodoById. now intros ->. Qed.

(** Setting the flag alone: the update of [{ completed: flag }] returns
    the stored todo with the flag and the instant replaced, whenever the
    identifier is not blank and has a row that converts. *)
Lemma flag_update (valid_date : string -> bool) (id : string) (flag : bool)
  (now : string) (db : TodoDatabase.table) (existing : Todo.t) :
  blank id = false ->
  TodoDatabase.getTodoById id db = Ok (Some existing) ->
  exists db',
    TodoService.updateTodo valid_date id
      {| UpdateTodoInput.title := missing;
         UpdateTodoInput.description := missing;
         UpdateTodoInput.completed := present (Some flag);
         UpdateTodoInput.priority := missing;
         UpdateTodoInput.dueDate := missing;
         UpdateTodoInput.tags := missing |} now db =
    (Ok (Spec.with_flag existing flag now), db').
Proof.
  intros Hb Hget. unfold TodoService.updateTodo. rewrite Hb, Hget.
  cbn [UpdateTodoInput.title UpdateTodoInput.dueDate UpdateTodoInput.priority
       read TodoService.bad_date TodoService.bad_priority].
  unfold TodoDatabase.updateTodo. rewrite Hget.
  cbn [TodoService.updateData UpdateTodoInput.title
       UpdateTodoInput.description UpdateTodoInput.completed
       UpdateTodoInput.priority UpdateTodoInput.dueDate UpdateTodoInput.tags
       TodoDatabase.spread TodoDatabase.spread_js].
  eexists. reflexivity.
Qed.

Lemma read_back_with_flag (todo : Todo.t) (flag : bool) (now : string) :
  Spec.read_back todo = todo ->
  Spec.read_back (Spec.with_flag todo flag now) = Spec.with_flag todo flag now.
Proof.
  unfold Spec.read_back, Spec.with_flag. destruct todo; cbn.
  intros [= H1 H2 H3 H4 H5]. rewrite H1, H3, H4, H5.
  destruct flag; reflexivity.
Qed.

(** The two listings by completion, on a sound table. *)
Lemma filter_lists (engine : TodoDatabase.plan) (db : TodoDatabase.table) :
  Spec.sound db ->
  exists all done open,
    TodoDatabase.getAllTodos engine None db = Ok all /\
    TodoDatabase.getCompletedTodos engine db = Ok done /\
    TodoDatabase.getPendingTodos engine db = Ok open /\
    Permutation done (List.filter Spec.is_done all) /\
    Permutation open (List.filter Spec.is_open all) /\
    List.length done + List.length open = List.length all.
Proof.
  intros Hs.
  destruct (getAllTodos_total engine None db (sound_readable db Hs) eq_refl)
    as [all Hall].
  destruct (filtered_listing engine
              (TodoFilter.mk (Some true) None None None None) db all Hs
              eq_refl Hall) as [done [Hdone Hpd]].
  destruct (filtered_listing engine
              (TodoFilter.mk (Some false) None None None None) db all Hs
              eq_refl Hall) as [open [Hopen Hpo]].
  assert (Ed : List.filter
                 (Spec.passes (TodoFilter.mk (Some true) None None None None))
                 all = List.filter Spec.is_done all).
  { apply filter_ext. intros todo. unfold Spec.passes, Spec.is_done. cbn.
    destruct (Todo.completed todo) as [[]|]; reflexivity. }
  assert (Eo : List.filter
                 (Spec.passes (TodoFilter.mk (Some false) None None None None))
                 all = List.filter Spec.is_open all).
  { apply filter_ext. intros todo. unfold Spec.passes, Spec.is_open. cbn.
    destruct (Todo.completed todo) as [[]|]; reflexivity. }
  rewrite Ed in Hpd. rewrite Eo in Hpo.
  exists all, done, open. repeat split; auto.
  rewrite (Permutation_length Hpd), (Permutation_length Hpo).
  assert (Hsome : Forall (fun todo => exists c, Todo.completed todo = Some c)
                    all).
  { apply Forall_forall. intros todo Hin.
    apply (listed_In engine db all todo Hall) in Hin as [row [_ Hto]].
    apply rowToTodo_fields in Hto as [l [_ ->]]. cbn. eauto. }
  clear - Hsome. induction Hsome as [|todo all [c Hc] _ IH];
    [reflexivity|].
  cbn [List.filter]. unfold Spec.is_done at 1, Spec.is_open at 1.
  rewrite Hc. destruct c; cbn [List.length]; lia.
Qed.

Lemma StronglySorted_app_between {A : Type} (R : A -> A -> Prop)
  (l1 l2 : list A) :
  StronglySorted R (l1 ++ l2)%list ->
  forall a b, In a l1 -> In b l2 -> R a b.
Proof.
  induction l1 as [|x l1 IH]; simpl; intros Hs a b Ha Hb; [destruct Ha|].
  inversion Hs as [|? ? Hs' Hall]; subst.
  destruct Ha as [<-|Ha]; [|eauto].
  rewrite Forall_forall in Hall. apply Hall, in_or_app. now right.
Qed.

Lemma firstn_In {A : Type} (n : nat) (l : list A) (x : A) :
  In x (firstn n l) -> In x l.
Proof.
  intros H. rewrite <- (firstn_skipn n l). apply in_or_app. now left.
Qed.

End FrameFacts.

(* ===================================================================== *)
(** ** The example tables have no two rows of equal sort key *)
(* ===================================================================== *)

Module ExampleFacts.
Import Js.

Ltac distinct :=
  vm_compute;
  repeat (constructor; [simpl; intuition discriminate|]);
  constructor.

Lemma db2_created_distinct : NoDup (map Row.created_at Examples.db2).
Proof. distinct. Qed.

Lemma db3_created_distinct : NoDup (map Row.created_at Examples.db3).
Proof. distinct. Qed.

Lemma db4_created_distinct : NoDup (map Row.created_at Examples.db4).
Proof. distinct. Qed.

Lemma db6_created_distinct : NoDup (map Row.created_at Examples.db6).
Proof. distinct. Qed.

Lemma db6_due_distinct (now : string) :
  NoDup (map TodoDatabase.due_key
           (List.filter (TodoDatabase.overdue_row now) Examples.db6)).
Proof.
  apply DbFacts.NoDup_map_filter. distinct.
Qed.



End ExampleFacts.

(* ===================================================================== *)
(** ** The enumeration of tags *)
(* ===================================================================== *)

Module EnumerationFacts.
Import Js JsFacts OrderFacts JSONFacts DbFacts TagFacts FrameFacts.

Lemma getAllTags_NoDup (db : TodoDatabase.table) :
  NoDup (TodoDatabase.getAllTags db).
Proof.
  unfold TodoDatabase.getAllTags.
  eapply Permutation_NoDup; [symmetry; apply sort_by_perm|].
  apply collect_NoDup. constructor.
Qed.

Lemma getAllTags_sorted (db : TodoDatabase.table) :
  StronglySorted sort_lt (TodoDatabase.getAllTags db).
Proof.
  apply sorted_strict; [apply getAllTags_NoDup|].
  apply sort_by_sorted; [apply sort_leb_total | apply sort_leb_trans].
Qed.

(** The tags enumerated are those of the texts that parse. *)
Lemma getAllTags_In (db : TodoDatabase.table) (tag : string) :
  In tag (TodoDatabase.getAllTags db) <->
  exists row text tags,
    In row db /\ Row.tags row = Some text /\ text <> "[]" /\
    JSON.parse (TodoDatabase.tags_text (Some text)) = Some tags /\
    In tag tags.
Proof.
  unfold TodoDatabase.getAllTags. rewrite sort_by_In, collect_In. split.
  - intros [[]|[text [tags [Htext [Hparse Hin]]]]].
    apply tag_texts_In in Htext as [row [Hrow [Ht Hne]]].
    exists row, text, tags. auto.
  - intros [row [text [tags [Hrow [Ht [Hne [Hparse Hin]]]]]]].
    right. exists text, tags. split; [|auto].
    apply tag_texts_In. eauto.
Qed.

(** The tags enumerated are those of the tag lists the rows store. *)
Lemma getAllTags_stored (db : TodoDatabase.table)
  (lists : list (list string)) :
  Forall2 Spec.tags_stored db lists ->
  forall tag,
    In tag (TodoDatabase.getAllTags db) <->
    exists tags, In tags lists /\ In tag tags.
Proof.
  intros Hst tag. rewrite getAllTags_In. split.
  - intros [row [text [tags [Hrow [Ht [Hne [Hparse Hin]]]]]]].
    destruct (Forall2_In_l _ _ _ _ Hst Hrow) as [l [Hl Hrl]].
    exists l. split; [exact Hl|].
    destruct Hrl as [Hrl|[Hrl _]]; [|congruence].
    rewrite Ht in Hrl. injection Hrl as ->.
    unfold TodoDatabase.tags_text in Hparse.
    rewrite stringify_not_empty, parse_stringify in Hparse. congruence.
  - intros [l [Hl Hin]].
    destruct (Forall2_In_r _ _ _ _ Hst Hl) as [row [Hrow Hrl]].
    destruct Hrl as [Hrl|[_ ->]]; [|destruct Hin].
    exists row, (JSON.stringify l), l. repeat split; auto.
    + intros E. assert (Hp : JSON.parse (JSON.stringify l) = Some []).
      { now rewrite E. }
      rewrite parse_stringify in Hp. injection Hp as ->. destruct Hin.
    + unfold TodoDatabase.tags_text.
      now rewrite stringify_not_empty, parse_stringify.
Qed.

(** The tags of the stored lists are the tags of the stored records. *)
Lemma stored_records (db : TodoDatabase.table) (lists : list (list string))
  (all : list Todo.t) :
  Forall2 Spec.tags_stored db lists -> Forall2 Spec.record_of db all ->
  forall tag,
    (exists tags, In tags lists /\ In tag tags) <->
    (exists todo tags,
       In todo all /\ Todo.tags todo = Some tags /\ In tag tags).
Proof.
  intros Hst. revert all.
  induction Hst as [|row l db lists Hrl _ IH];
    intros all Hall tag; inversion Hall as [|? todo ? all' Hrec Hall']; subst.
  - split; [intros [l [[] _]] | intros [todo [tags [[] _]]]].
  - destruct Hrec as [_ [_ [_ [_ [_ [_ [Htags _]]]]]]].
    specialize (Htags l Hrl). split.
    + intros [tags [[<-|Hl] Hin]].
      * exists todo, l. repeat split; auto. now left.
      * destruct (proj1 (IH all' Hall' tag) (ex_intro _ tags (conj Hl Hin)))
          as [todo' [tags' [Hin' [Ht' Hi']]]].
        exists todo', tags'. repeat split; auto. now right.
    + intros [todo' [tags [[<-|Hin'] [Ht Hi]]]].
      * exists l. split; [now left|]. congruence.
      * destruct (proj2 (IH all' Hall' tag)
                    (ex_intro _ todo' (ex_intro _ tags
                       (conj Hin' (conj Ht Hi))))) as [l' [Hl' Hi']].
        exists l'. split; [now right | exact Hi'].
Qed.

(** Two lists in strictly ascending order with the same members are
    equal. *)
Lemma ascending_unique (l l' : list string) :
  StronglySorted sort_lt l -> StronglySorted sort_lt l' ->
  NoDup l -> NoDup l' -> (forall x, In x l <-> In x l') -> l = l'.
Proof.
  intros Hs Hs' Hnd Hnd' Hin.
  apply (sorted_perm_eq sort_lt); auto.
  - intros a b _ _ Hab Hba. exfalso.
    apply (sort_lt_irrefl a). eapply sort_lt_trans; eauto.
  - now apply NoDup_Permutation.
Qed.

(** The enumeration does not depend on the order of the rows. *)
Lemma getAllTags_perm (db db' : TodoDatabase.table) :
  Permutation db db' ->
  TodoDatabase.getAllTags db = TodoDatabase.getAllTags db'.
Proof.
  intros Hp.
  apply ascending_unique;
    auto using getAllTags_sorted, getAllTags_NoDup.
  intros tag. rewrite !getAllTags_In.
  split; intros [row [text [tags [Hrow H]]]]; exists row, text, tags;
    (split; [|exact H]).
  - exact (Permutation_in row Hp Hrow).
  - exact (Permutation_in row (Permutation_sym Hp) Hrow).
Qed.

(** *** The tables the service writes *)

Lemma reachable_sound (valid_date : string -> bool)
  (db : TodoDatabase.table) :
  Spec.reachable valid_date db -> Spec.sound db.
Proof.
  induction 1 as [|input uuid now db _ IH|id input now db _ IH|id db _ IH].
  - reflexivity.
  - now apply SoundFacts.createTodo_sound.
  - now apply SoundFacts.updateTodo_sound.
  - now apply SoundFacts.deleteTodo_sound.
Qed.

(** A sound row stores a tag list. *)
Lemma sound_row_stored (row : Row.t) :
  Spec.sound_row row = true -> exists tags, Spec.tags_stored row tags.
Proof.
  unfold Spec.sound_row, Spec.tags_stored.
  rewrite !andb_true_iff. intros [_ Htags].
  destruct (Row.tags row) as [text|]; [|exists []; auto].
  destruct (JSON.parse text) as [tags|]; [|discriminate].
  apply andb_true_iff in Htags as [Htext _].
  apply String.eqb_eq in Htext. exists tags. left. now rewrite Htext.
Qed.

Lemma sound_stored (db : TodoDatabase.table) :
  Spec.sound db -> exists lists, Forall2 Spec.tags_stored db lists.
Proof.
  unfold Spec.sound. induction db as [|row db IH]; cbn [forallb].
  - exists []. constructor.
  - rewrite andb_true_iff. intros [Hrow Hdb].
    destruct (sound_row_stored row Hrow) as [tags Htags].
    destruct (IH Hdb) as [lists Hlists].
    exists (tags :: lists). now constructor.
Qed.

End EnumerationFacts.

(* ===================================================================== *)
(** ** The properties of the specification *)
(* ===================================================================== *)

Import Js JsFacts OrderFacts JSONFacts DbFacts QueryFacts StatsFacts TagFacts.
Import CommandFacts SearchFacts InvariantFacts LikeFacts ExampleFacts.
Import EnumerationFacts.

(** C1.  The tag filter is a LIKE pattern over the JSON text of the tags,
    not a membership test.  On the example table, whatever the plan of the
    engine: the filter [work] also returns the todo whose tags are [Work]
    and [health]; the filter [a_c] returns the todo tagged [abc]; and the
    filter made of a, a double quote and b does not return the todo that
    carries exactly that tag. *)
Theorem tag_filter_is_a_pattern (engine : TodoDatabase.plan) :
  (exists todos todo tags,
     TodoService.getAllTodos engine (Examples.by_tag "work") Examples.db3
       = Ok todos /\
     In todo todos /\ Todo.tags todo = Some tags /\ ~ In "work" tags) /\
  (exists todos todo tags,
     TodoService.getAllTodos engine (Examples.by_tag "a_c") Examples.db3
       = Ok todos /\
     In todo todos /\ Todo.tags todo = Some tags /\ ~ In "a_c" tags) /\
  (exists all todo tags,
     TodoService.getAllTodos engine None Examples.db3 = Ok all /\
     In todo all /\ Todo.tags todo = Some tags /\
     In Examples.quoted_tag tags /\
     TodoService.getAllTodos engine (Examples.by_tag Examples.quoted_tag)
       Examples.db3 = Ok []).
Proof.
  unfold TodoService.getAllTodos.
  rewrite !(getAllTodos_scan engine _ Examples.db3 db3_created_distinct).
  split; [|split].
  - eexists; eexists; exists ["Work"; "health"].
    split; [vm_compute; reflexivity|].
    split; [right; left; reflexivity|].
    split; [reflexivity|].
    intros [H|[H|[]]]; discriminate.
  - eexists; eexists; exists ["abc"; Examples.quoted_tag].
    split; [vm_compute; reflexivity|].
    split; [left; reflexivity|].
    split; [reflexivity|].
    intros [H|[H|[]]]; discriminate.
  - eexists; eexists; exists ["abc"; Examples.quoted_tag].
    split; [vm_compute; reflexivity|].
    split; [left; reflexivity|].
    split; [reflexivity|].
    split; [right; left; reflexivity|].
    vm_compute; reflexivity.
Qed.

(** C2.  A key that is present and holds [undefined], which is how the
    update tool passes every argument its request left out, overrides the
    stored field.  On the example table the request that gives title,
    priority and tags succeeds and, besides [updatedAt], clears the
    description, clears the due date and resets [completed]. *)
Theorem undefined_key_overrides :
  exists before updated after db',
    TodoService.getTodoById "id-2" Examples.db4 = Ok (Some before) /\
    TodoService.updateTodo Examples.any_date "id-2" Examples.retitle
      Examples.friday Examples.db4 = (Ok updated, db') /\
    TodoService.getTodoById "id-2" db' = Ok (Some after) /\
    Todo.description before = val "Read the protocol docs" /\
    Todo.description updated = undefined /\
    Todo.description after = null /\
    Todo.dueDate before = val "2026-03-03T12:00:00.000Z" /\
    Todo.dueDate updated = undefined /\
    Todo.dueDate after = null /\
    Todo.completed before = Some true /\
    Todo.completed updated = None /\
    Todo.completed after = Some false.
Proof.
  do 4 eexists.
  split; [vm_compute; reflexivity|].
  split; [vm_compute; reflexivity|].
  split; [vm_compute; reflexivity|].
  repeat split.
Qed.

(** The request that gives only [completed] reaches the UPDATE statement
    with an [undefined] title, and the statement fails on the NOT NULL
    column; the table is as before. *)
Example update_only_completed_fails :
  TodoService.updateTodo Examples.any_date "id-2" Examples.only_completed
    Examples.friday Examples.db3 =
  (Throw (SqliteError "NOT NULL constraint failed: todos.title"), Examples.db3).
Proof. vm_compute. reflexivity. Qed.

(** With every key missing, the update changes [updatedAt] alone. *)
Example update_with_empty_object :
  exists before,
    TodoService.getTodoById "id-2" Examples.db4 = Ok (Some before) /\
    fst (TodoService.updateTodo Examples.any_date "id-2" UpdateTodoInput.empty
           Examples.friday Examples.db4) =
    Ok {| Todo.id := Todo.id before;
          Todo.title := Todo.title before;
          Todo.description := Todo.description before;
          Todo.completed := Todo.completed before;
          Todo.priority := Todo.priority before;
          Todo.dueDate := Todo.dueDate before;
          Todo.tags := Todo.tags before;
          Todo.createdAt := Todo.createdAt before;
          Todo.updatedAt := Examples.friday |}.
Proof. eexists. split; vm_compute; reflexivity. Qed.

(** C3, as stated, fails: the todo returned by the creation of
    [Examples.exercise], whose description is a blank and whose due date is
    left out, holds the empty string and [undefined] there, and the todo
    fetched by its identifier holds [null] in both. *)
Lemma create_then_fetch_differs :
  exists created db' fetched,
    TodoService.createTodo Examples.any_date Examples.exercise "id-3"
      Examples.wednesday Examples.db2 = (Ok created, db') /\
    TodoService.getTodoById (Todo.id created) db' = Ok (Some fetched) /\
    Todo.description created = val "" /\
    Todo.description fetched = null /\
    Todo.dueDate created = undefined /\
    Todo.dueDate fetched = null /\
    fetched <> created.
Proof.
  do 3 eexists.
  split; [vm_compute; reflexivity|].
  split; [vm_compute; reflexivity|].
  repeat split. discriminate.
Qed.

(** C3, amended.  After a creation that returned, fetching by the returned
    identifier yields the returned todo with [null] in place of a
    description or due date that is [undefined] or empty, and every other
    field equal; so it yields the returned todo itself when both hold a
    non-empty text. *)
Theorem create_then_fetch (valid_date : string -> bool)
  (input : CreateTodoInput.t) (uuid now : string)
  (db db' : TodoDatabase.table) (created : Todo.t) :
  TodoService.createTodo valid_date input uuid now db = (Ok created, db') ->
  TodoDatabase.getTodoById (Todo.id created) db' =
    Ok (Some (Spec.as_stored created)) /\
  (blank (Todo.id created) = false ->
   TodoService.getTodoById (Todo.id created) db' =
     Ok (Some (Spec.as_stored created))) /\
  (forall d e,
     Todo.description created = val d -> d <> "" ->
     Todo.dueDate created = val e -> e <> "" ->
     Spec.as_stored created = created).
Proof.
  intros H. apply createTodo_ok in H as [input' H].
  apply db_createTodo_ok in H as [_ [Hid Hget]].
  rewrite Hid. split; [exact Hget|]. split.
  - intros Hb. unfold TodoService.getTodoById. rewrite Hb. exact Hget.
  - intros d e Hd Hdne He Hene. destruct created; simpl in *. subst.
    unfold Spec.as_stored, or_null, truthy; simpl.
    apply String.eqb_neq in Hdne, Hene. now rewrite Hdne, Hene.
Qed.

Lemma create_then_fetch_witness :
  exists created db',
    TodoService.createTodo Examples.any_date Examples.review "id-2"
      Examples.tuesday Examples.db1 = (Ok created, db') /\
    TodoDatabase.getTodoById (Todo.id created) db' = Ok (Some created).
Proof.
  do 2 eexists. split; [vm_compute; reflexivity|].
  pose proof (create_then_fetch Examples.any_date Examples.review "id-2"
                Examples.tuesday Examples.db1 _ _ eq_refl) as [H [_ Heq]].
  rewrite (Heq _ _ eq_refl ltac:(discriminate) eq_refl ltac:(discriminate))
    in H.
  exact H.
Defined.

(** C4.  On a table whose rows all convert, the full listing [all] holds
    the record of every row, once each.  A query that is empty or made of
    whitespace only returns [all]; any other query returns, in the order
    of [all], exactly the todos for which the lowercased and trimmed query
    is a substring of the lowercased title, or of the lowercased
    description when there is one, or of the lowercased form of one of the
    tags. *)
Theorem search_semantics (engine : TodoDatabase.plan)
  (toLowerCase : string -> string) (query : string)
  (db : TodoDatabase.table) :
  Spec.readable db ->
  exists all,
    Spec.lists_records db all /\
    TodoService.getAllTodos engine None db = Ok all /\
    (whitespace_only query ->
     TodoService.searchTodos engine toLowerCase query db = Ok all) /\
    (~ whitespace_only query ->
     exists found : Todo.t -> bool,
       (forall todo,
          found todo = true <->
          Spec.search_hit toLowerCase (trim (toLowerCase query)) todo) /\
       TodoService.searchTodos engine toLowerCase query db =
         Ok (List.filter found all)).
Proof.
  intros Hr.
  destruct (getAllTodos_total engine None db Hr eq_refl) as [all Hall].
  exists all. split; [now apply (getAllTodos_records engine)|].
  unfold TodoService.searchTodos, TodoService.getAllTodos.
  split; [exact Hall|]. split.
  - intros Hq. apply blank_iff in Hq. rewrite Hq. exact Hall.
  - intros Hq. apply blank_false_iff in Hq. rewrite Hq, Hall. cbn [bind].
    exists (Spec.search_hitb toLowerCase (trim (toLowerCase query))).
    split; [intros todo; apply hit_iff|].
    apply filterM_pure. intros todo Hin.
    destruct (listed_has_tags engine db all todo Hall Hin) as [tags Htags].
    eapply matches_hit; eauto.
Qed.

(** The example table, a query of two blanks and the query [HEAL]. *)
Lemma search_semantics_witness :
  whitespace_only "  " /\ ~ whitespace_only "HEAL" /\
  exists all,
    Spec.lists_records Examples.db3 all /\
    TodoService.getAllTodos Examples.observed None Examples.db3 = Ok all /\
    TodoService.searchTodos Examples.observed Examples.ascii_lower "  "
      Examples.db3 = Ok all /\
    exists found : Todo.t -> bool,
      (forall todo,
         found todo = true <->
         Spec.search_hit Examples.ascii_lower
           (trim (Examples.ascii_lower "HEAL")) todo) /\
      TodoService.searchTodos Examples.observed Examples.ascii_lower "HEAL"
        Examples.db3 = Ok (List.filter found all).
Proof.
  assert (Hb : whitespace_only "  ") by (apply blank_iff; reflexivity).
  assert (Hq : ~ whitespace_only "HEAL")
    by (apply blank_false_iff; reflexivity).
  assert (Hr : Spec.readable Examples.db3) by (vm_compute; reflexivity).
  split; [exact Hb|]. split; [exact Hq|].
  destruct (search_semantics Examples.observed Examples.ascii_lower "HEAL"
              Examples.db3 Hr) as [all [Hrec [Hall [_ Hsome]]]].
  destruct (search_semantics Examples.observed Examples.ascii_lower "  "
              Examples.db3 Hr) as [all' [_ [Hall' [Hblank _]]]].
  assert (E : all' = all) by congruence. subst all'.
  exists all. split; [exact Hrec|]. split; [exact Hall|].
  split; [exact (Hblank Hb) | exact (Hsome Hq)].
Defined.

(** What that search returns: the todo tagged [health]; and a query of
    blanks returns the three todos of the table. *)
Example search_by_tag_substring :
  exists todo a b c,
    TodoService.searchTodos Examples.observed Examples.ascii_lower "HEAL"
      Examples.db3 = Ok [todo] /\
    Todo.id todo = "id-1" /\
    TodoService.searchTodos Examples.observed Examples.ascii_lower "  "
      Examples.db3 = Ok [a; b; c] /\
    map Todo.id [a; b; c] = ["id-3"; "id-2"; "id-1"].
Proof. do 4 eexists. repeat split; vm_compute; reflexivity. Qed.




(** The todo due on Tuesday noon is overdue on Friday while it is open,
    and no longer once it is completed. *)
Example overdue_until_completed :
  (exists todo,
     TodoService.getOverdueTodos Examples.observed Examples.friday Examples.db3
       = Ok [todo] /\
     Todo.id todo = "id-2") /\
  TodoService.getOverdueTodos Examples.observed Examples.friday Examples.db4
    = Ok [].
Proof. split; [eexists; split|]; vm_compute; reflexivity. Qed.

(** C6, as stated, fails: the identifier made of one space matches no row
    of the empty table, and the update does not report it as not found
    but as missing. *)
Lemma update_blank_id_is_not_reported_missing :
  Spec.unknown " " [] /\
  TodoService.updateTodo Examples.any_date " " UpdateTodoInput.empty
    Examples.monday [] = (Throw (Error "Todo ID is required"), []) /\
  Error "Todo ID is required" <> TodoService.not_found " ".
Proof.
  split; [intros row []|]. split; [reflexivity | discriminate].
Qed.

(** C6, amended.  For every identifier that is not empty or made of
    whitespace only and that matches no row, and for every update input,
    whatever its title, priority or due date, the update throws the
    not-found error and leaves the table as it was: the lookup comes
    before every check of a field. *)
Theorem update_unknown_id (valid_date : string -> bool) (id : string)
  (input : UpdateTodoInput.t) (now : string) (db : TodoDatabase.table) :
  ~ whitespace_only id ->
  Spec.unknown id db ->
  TodoService.updateTodo valid_date id input now db =
  (Throw (Error ("Todo with ID " ++ id ++ " not found")), db).
Proof.
  intros Hid Hunknown. unfold TodoService.updateTodo.
  apply blank_false_iff in Hid. rewrite Hid.
  apply unknown_select in Hunknown.
  unfold TodoDatabase.getTodoById. rewrite Hunknown. reflexivity.
Qed.

(** An unknown identifier and an input with an empty title, a priority
    that is none of the three and a due date that does not parse. *)
Lemma update_unknown_id_witness :
  TodoService.updateTodo (fun _ => false) "id-9"
    (McpServer.update_todo_input (Some "") None None (Some "urgent")
       (Some "someday") None)
    Examples.friday Examples.db3 =
  (Throw (Error "Todo with ID id-9 not found"), Examples.db3).
Proof.
  apply (update_unknown_id (fun _ => false) "id-9").
  - apply not_whitespace_only. vm_compute. reflexivity.
  - intros row Hrow. vm_compute in Hrow.
    destruct Hrow as [<-|[<-|[<-|[]]]]; discriminate.
Defined.

(** C7, as stated, fails.  On the table [Examples.db6] at 07:00 UTC both
    todos are overdue, one due at 05:00 UTC and one at 06:00 UTC, and the
    statistics count one. *)
Lemma stats_overdue_differs :
  Spec.count (Spec.past_due Examples.seven)
    [Examples.stored_call; Examples.stored_flight] = 2 /\
  (forall engine,
     TodoService.getAllTodos engine None Examples.db6 =
       Ok [Examples.stored_call; Examples.stored_flight] /\
     exists stats,
       TodoService.getStats engine Examples.seven Examples.db6 = Ok stats /\
       TodoService.overdue stats = 1).
Proof.
  split; [vm_compute; reflexivity|].
  intros engine.
  unfold TodoService.getStats, TodoService.getAllTodos,
    TodoService.getOverdueTodos.
  rewrite (getAllTodos_scan engine None Examples.db6 db6_created_distinct).
  rewrite (getOverdueTodos_scan engine _ Examples.db6 (db6_due_distinct _)).
  split; [vm_compute; reflexivity|].
  eexists. split; vm_compute; reflexivity.
Qed.

(** C7, amended.  On a table whose rows all convert, the statistics are
    returned without an error: [total] counts the todos of the full
    listing, which holds the record of every row; [completed] those that
    are completed; [pending] is their difference; [overdue] is the number
    of todos the overdue query returns at the same instant, which, when
    the creation times, the due dates and the instant are in the form the
    clock writes, is the number of todos that are not completed and have
    a due date earlier than the instant; and [byPriority] holds under
    each of the keys low, medium and high the number of todos of that
    priority, zero included.  On the empty table every count is zero. *)
Theorem stats_counts (engine : TodoDatabase.plan) (now : string)
  (db : TodoDatabase.table) :
  Spec.readable db ->
  exists all late stats,
    Spec.lists_records db all /\
    TodoService.getAllTodos engine None db = Ok all /\
    TodoService.getOverdueTodos engine now db = Ok late /\
    TodoService.getStats engine now db = Ok stats /\
    List.length all = List.length db /\
    TodoService.total stats = List.length all /\
    TodoService.completed stats = Spec.count Spec.is_done all /\
    TodoService.pending stats =
      TodoService.total stats - TodoService.completed stats /\
    TodoService.overdue stats = List.length late /\
    (Spec.stamped db -> Spec.normal now = true ->
     TodoService.overdue stats = Spec.count (Spec.past_due now) all) /\
    TodoService.get "low" (TodoService.byPriority stats) =
      Some (TodoService.Num (Spec.count (Spec.has_priority "low") all)) /\
    TodoService.get "medium" (TodoService.byPriority stats) =
      Some (TodoService.Num (Spec.count (Spec.has_priority "medium") all)) /\
    TodoService.get "high" (TodoService.byPriority stats) =
      Some (TodoService.Num (Spec.count (Spec.has_priority "high") all)) /\
    (db = [] ->
     stats =
     TodoService.mkStats 0 0 0 0
       [("low", TodoService.Num 0); ("medium", TodoService.Num 0);
        ("high", TodoService.Num 0)]).
Proof.
  intros Hr.
  destruct (getAllTodos_total engine None db Hr eq_refl) as [all Hall].
  destruct (getOverdueTodos_total engine now db Hr) as [late Hlate].
  exists all, late. eexists.
  unfold TodoService.getStats, TodoService.getAllTodos,
    TodoService.getOverdueTodos.
  rewrite Hall, Hlate. cbn [bind].
  split; [now apply (getAllTodos_records engine)|].
  split; [reflexivity|]. split; [reflexivity|]. split; [reflexivity|].
  cbn [TodoService.total TodoService.completed TodoService.pending
       TodoService.overdue TodoService.byPriority].
  split.
  { destruct (getAllTodos_None_rows engine db all Hall) as [rows [Hperm H2]].
    rewrite <- (Forall2_length_eq _ _ _ H2). now apply Permutation_length. }
  split; [reflexivity|].
  split; [apply (count_ext _ _ all is_completed_done)|].
  split; [reflexivity|].
  split; [reflexivity|].
  split.
  { intros Hst Hnow.
    rewrite (overdue_count engine now db all late Hall Hlate).
    destruct (getAllTodos_None_rows engine db all Hall) as [rows [Hperm H2]].
    unfold Spec.count. f_equal.
    assert (Hrows : Forall (fun row => Spec.stamped_row row = true) rows).
    { rewrite Forall_forall. intros row Hrow.
      apply (stamped_In db row Hst). eapply Permutation_in; eauto. }
    clear - Hrows H2 Hnow.
    induction H2 as [|row todo rows all Hto _ IH]; [reflexivity|].
    inversion Hrows; subst. cbn [List.filter].
    rewrite <- (overdue_row_todo now row todo Hto).
    rewrite (overdue_row_past_due now row todo) by assumption.
    now rewrite IH. }
  split; [|split; [|split]].
  - rewrite (get_counted "low" all _ 0); [|reflexivity]. simpl. do 2 f_equal.
    apply count_ext. intros todo. apply key_of_priority; discriminate.
  - rewrite (get_counted "medium" all _ 0); [|reflexivity]. simpl. do 2 f_equal.
    apply count_ext. intros todo. apply key_of_priority; discriminate.
  - rewrite (get_counted "high" all _ 0); [|reflexivity]. simpl. do 2 f_equal.
    apply count_ext. intros todo. apply key_of_priority; discriminate.
  - intros ->.
    destruct (getAllTodos_None_rows engine [] all Hall) as [rows [Hperm H2]].
    apply Permutation_sym, Permutation_nil in Hperm. subst rows.
    inversion H2; subst.
    apply mapM_Forall2 in Hlate.
    pose proof (overdue_rows_perm engine now []) as Hp.
    apply Permutation_sym, Permutation_nil in Hp. rewrite Hp in Hlate.
    inversion Hlate; subst. reflexivity.
Qed.

(** The statistics of the example table, on Friday, when one of its three
    todos is overdue; the table and the instant are in the form of the
    clock. *)
Lemma stats_counts_witness :
  Spec.stamped Examples.db3 /\ Spec.normal Examples.friday = true /\
  exists all late stats,
    Spec.lists_records Examples.db3 all /\
    TodoService.getAllTodos Examples.observed None Examples.db3 = Ok all /\
    TodoService.getOverdueTodos Examples.observed Examples.friday Examples.db3
      = Ok late /\
    TodoService.getStats Examples.observed Examples.friday Examples.db3
      = Ok stats /\
    List.length all = List.length Examples.db3 /\
    TodoService.total stats = List.length all /\
    TodoService.completed stats = Spec.count Spec.is_done all /\
    TodoService.pending stats =
      TodoService.total stats - TodoService.completed stats /\
    TodoService.overdue stats = List.length late /\
    TodoService.overdue stats =
      Spec.count (Spec.past_due Examples.friday) all /\
    TodoService.get "low" (TodoService.byPriority stats) =
      Some (TodoService.Num (Spec.count (Spec.has_priority "low") all)) /\
    TodoService.get "medium" (TodoService.byPriority stats) =
      Some (TodoService.Num (Spec.count (Spec.has_priority "medium") all)) /\
    TodoService.get "high" (TodoService.byPriority stats) =
      Some (TodoService.Num (Spec.count (Spec.has_priority "high") all)).
Proof.
  assert (Hst : Spec.stamped Examples.db3) by (vm_compute; reflexivity).
  assert (Hnow : Spec.normal Examples.friday = true)
    by (vm_compute; reflexivity).
  split; [exact Hst|]. split; [exact Hnow|].
  destruct (stats_counts Examples.observed Examples.friday Examples.db3)
    as [all [late [stats [H1 [H2 [H3 [H4 [H5 [H6 [H7 [H8 [H9 [H10 [H11
         [H12 [H13 _]]]]]]]]]]]]]]]].
  { vm_compute. reflexivity. }
  exists all, late, stats.
  exact (conj H1 (conj H2 (conj H3 (conj H4 (conj H5 (conj H6 (conj H7
          (conj H8 (conj H9 (conj (H10 Hst Hnow) (conj H11
          (conj H12 H13)))))))))))).
Defined.

Example stats_of_example_table :
  Spec.stamped Examples.db3 /\ Spec.normal Examples.friday = true /\
  TodoService.getStats Examples.observed Examples.friday Examples.db3 =
  Ok (TodoService.mkStats 3 0 3 1
        [("low", TodoService.Num 1); ("medium", TodoService.Num 1);
         ("high", TodoService.Num 1)]) /\
  TodoService.getStats Examples.observed Examples.friday Examples.db4 =
  Ok (TodoService.mkStats 3 1 2 0
        [("low", TodoService.Num 1); ("medium", TodoService.Num 1);
         ("high", TodoService.Num 1)]) /\
  TodoService.getStats Examples.observed Examples.friday [] =
  Ok (TodoService.mkStats 0 0 0 0
        [("low", TodoService.Num 0); ("medium", TodoService.Num 0);
         ("high", TodoService.Num 0)]).
Proof. repeat split; vm_compute; reflexivity. Qed.

(** C8.  When every row stores a tag list, as the JSON text that
    [JSON.stringify] writes for it or as NULL for none, the enumeration of
    tags holds exactly the tags of these lists, each once, case kept, in
    ascending order of the default sort; and these are the tags of the
    records the rows store. *)
Theorem tag_enumeration (db : TodoDatabase.table)
  (lists : list (list string)) :
  Forall2 Spec.tags_stored db lists ->
  NoDup (TodoService.getAllTags db) /\
  StronglySorted sort_lt (TodoService.getAllTags db) /\
  (forall tag,
     In tag (TodoService.getAllTags db) <->
     exists tags, In tags lists /\ In tag tags) /\
  (forall all,
     Forall2 Spec.record_of db all ->
     forall tag,
       In tag (TodoService.getAllTags db) <->
       exists todo tags,
         In todo all /\ Todo.tags todo = Some tags /\ In tag tags).
Proof.
  intros Hst. unfold TodoService.getAllTags.
  split; [apply getAllTags_NoDup|]. split; [apply getAllTags_sorted|].
  split; [now apply getAllTags_stored|].
  intros all Hall tag.
  rewrite (getAllTags_stored db lists Hst tag).
  now apply (stored_records db lists all).
Qed.

(** The example of the specification: the tag lists [Work], [health] and
    [work] give the enumeration [Work], [health], [work], and these are
    the tags of the two records the table stores. *)
Lemma tag_enumeration_witness :
  TodoService.getAllTags Examples.db2 = ["Work"; "health"; "work"] /\
  NoDup (TodoService.getAllTags Examples.db2) /\
  StronglySorted sort_lt (TodoService.getAllTags Examples.db2) /\
  (forall tag,
     In tag (TodoService.getAllTags Examples.db2) <->
     exists tags, In tags [["Work"; "health"]; ["work"]] /\ In tag tags) /\
  (exists all,
     Forall2 Spec.record_of Examples.db2 all /\
     forall tag,
       In tag (TodoService.getAllTags Examples.db2) <->
       exists todo tags,
         In todo all /\ Todo.tags todo = Some tags /\ In tag tags).
Proof.
  split; [vm_compute; reflexivity|].
  destruct (tag_enumeration Examples.db2 [["Work"; "health"]; ["work"]])
    as [H1 [H2 [H3 H4]]].
  { repeat constructor; left; vm_compute; reflexivity. }
  split; [exact H1|]. split; [exact H2|]. split; [exact H3|].
  assert (H : exists all,
            mapM TodoDatabase.rowToTodo Examples.db2 = Ok all).
  { vm_compute. eexists. reflexivity. }
  destruct H as [all H]. exists all.
  assert (Hrec : Forall2 Spec.record_of Examples.db2 all).
  { apply records_of_rows. now apply mapM_Forall2. }
  split; [exact Hrec | exact (H4 all Hrec)].
Defined.

(** C9.  Completing a todo is the update with the object
    [{ completed: true }]: same result, same table afterwards, for every
    identifier, instant and table.  When it returns a todo, that todo is
    the stored one with [completed] set and [updatedAt] at the instant of
    the call. *)
Theorem complete_is_update (valid_date : string -> bool) (id now : string)
  (db : TodoDatabase.table) :
  TodoService.completeTodo valid_date id now db =
  TodoService.updateTodo valid_date id
    {| UpdateTodoInput.title := missing;
       UpdateTodoInput.description := missing;
       UpdateTodoInput.completed := present (Some true);
       UpdateTodoInput.priority := missing;
       UpdateTodoInput.dueDate := missing;
       UpdateTodoInput.tags := missing |}
    now db /\
  (forall todo db',
     TodoService.completeTodo valid_date id now db = (Ok todo, db') ->
     exists existing,
       TodoDatabase.getTodoById id db = Ok (Some existing) /\
       todo =
       {| Todo.id := Todo.id existing;
          Todo.title := Todo.title existing;
          Todo.description := Todo.description existing;
          Todo.completed := Some true;
          Todo.priority := Todo.priority existing;
          Todo.dueDate := Todo.dueDate existing;
          Todo.tags := Todo.tags existing;
          Todo.createdAt := Todo.createdAt existing;
          Todo.updatedAt := now |}).
Proof.
  split; [reflexivity|].
  intros todo db'.
  unfold TodoService.completeTodo, TodoService.updateTodo.
  destruct (blank id); [discriminate|].
  destruct (TodoDatabase.getTodoById id db) as [[existing|]|e] eqn:Hget;
    try discriminate.
  cbn [TodoService.completed_true UpdateTodoInput.title
       UpdateTodoInput.dueDate UpdateTodoInput.priority read
       TodoService.bad_date TodoService.bad_priority].
  unfold TodoDatabase.updateTodo. rewrite Hget.
  cbn [TodoService.updateData TodoService.completed_true
       UpdateTodoInput.title UpdateTodoInput.description
       UpdateTodoInput.completed UpdateTodoInput.priority
       UpdateTodoInput.dueDate UpdateTodoInput.tags
       TodoDatabase.spread TodoDatabase.spread_js].
  intros [= <- _]. exists existing. split; reflexivity.
Qed.

(** C10.  For an identifier that is empty or made of whitespace only, the
    fetch, the update and the deletion of the service throw the error
    [Todo ID is required]; none of them returns not-found or false, and
    the table is as before. *)
Theorem blank_id_is_rejected (valid_date : string -> bool) (id : string)
  (input : UpdateTodoInput.t) (now : string) (db : TodoDatabase.table) :
  whitespace_only id ->
  TodoService.getTodoById id db = Throw (Error "Todo ID is required") /\
  TodoService.updateTodo valid_date id input now db =
    (Throw (Error "Todo ID is required"), db) /\
  TodoService.deleteTodo id db = (Throw (Error "Todo ID is required"), db).
Proof.
  intros Hid. apply blank_iff in Hid.
  unfold TodoService.getTodoById, TodoService.updateTodo,
    TodoService.deleteTodo.
  rewrite Hid. auto.
Qed.

(** The three calls with an identifier of whitespace. *)
Lemma blank_id_is_rejected_witness :
  TodoService.getTodoById Examples.blank_id Examples.db3 =
    Throw (Error "Todo ID is required") /\
  TodoService.updateTodo Examples.any_date Examples.blank_id Examples.retitle
    Examples.friday Examples.db3 =
    (Throw (Error "Todo ID is required"), Examples.db3) /\
  TodoService.deleteTodo Examples.blank_id Examples.db3 =
    (Throw (Error "Todo ID is required"), Examples.db3).
Proof.
  apply blank_id_is_rejected.
  apply whitespace_only_blank. vm_compute. reflexivity.
Defined.

(* ===================================================================== *)
(** ** Further properties of the commands *)
(* ===================================================================== *)



(** X2.  Whenever an update of the service returns a todo, the identifier
    and the creation time are those of the stored todo, [updatedAt] is the
    instant of the call, and every field whose key is missing from the
    input is that of the stored todo. *)
Theorem update_keeps_missing_keys (valid_date : string -> bool) (id : string)
  (input : UpdateTodoInput.t) (now : string) (db db' : TodoDatabase.table)
  (updated : Todo.t) :
  TodoService.updateTodo valid_date id input now db = (Ok updated, db') ->
  exists existing,
    TodoDatabase.getTodoById id db = Ok (Some existing) /\
    Todo.id updated = Todo.id existing /\
    Todo.createdAt updated = Todo.createdAt existing /\
    Todo.updatedAt updated = now /\
    (UpdateTodoInput.title input = missing ->
     Todo.title updated = Todo.title existing) /\
    (UpdateTodoInput.description input = missing ->
     Todo.description updated = Todo.description existing) /\
    (UpdateTodoInput.completed input = missing ->
     Todo.completed updated = Todo.completed existing) /\
    (UpdateTodoInput.priority input = missing ->
     Todo.priority updated = Todo.priority existing) /\
    (UpdateTodoInput.dueDate input = missing ->
     Todo.dueDate updated = Todo.dueDate existing) /\
    (UpdateTodoInput.tags input = missing ->
     Todo.tags updated = Todo.tags existing).
Proof.
  unfold TodoService.updateTodo.
  destruct (blank id); [discriminate|].
  destruct (TodoDatabase.getTodoById id db) as [[existing|]|e] eqn:Hget;
    try discriminate.
  destruct (match read (UpdateTodoInput.title input) with
            | Some t => blank t
            | None => false
            end); [discriminate|].
  destruct (TodoService.bad_date _ _); [discriminate|].
  destruct (TodoService.bad_priority _); [discriminate|].
  unfold TodoDatabase.updateTodo. rewrite Hget.
  destruct (TodoDatabase.spread _ _) as [title'|] eqn:Htitle;
    [|discriminate].
  intros [= <- <-]. exists existing. split; [reflexivity|].
  cbn [Todo.id Todo.createdAt Todo.updatedAt Todo.title Todo.description
       Todo.completed Todo.priority Todo.dueDate Todo.tags].
  unfold TodoService.updateData in *.
  cbn [UpdateTodoInput.title UpdateTodoInput.description
       UpdateTodoInput.completed UpdateTodoInput.priority
       UpdateTodoInput.dueDate UpdateTodoInput.tags] in *.
  repeat split; intros Hm; rewrite Hm in *; try reflexivity.
  cbn in Htitle. congruence.
Qed.

Lemma update_keeps_missing_keys_witness :
  exists existing,
    TodoDatabase.getTodoById "id-2" Examples.db3 = Ok (Some existing) /\
    Todo.id Examples.completed_review = Todo.id existing /\
    Todo.createdAt Examples.completed_review = Todo.createdAt existing /\
    Todo.updatedAt Examples.completed_review = Examples.thursday /\
    (UpdateTodoInput.title TodoService.completed_true = missing ->
     Todo.title Examples.completed_review = Todo.title existing) /\
    (UpdateTodoInput.description TodoService.completed_true = missing ->
     Todo.description Examples.completed_review = Todo.description existing) /\
    (UpdateTodoInput.completed TodoService.completed_true = missing ->
     Todo.completed Examples.completed_review = Todo.completed existing) /\
    (UpdateTodoInput.priority TodoService.completed_true = missing ->
     Todo.priority Examples.completed_review = Todo.priority existing) /\
    (UpdateTodoInput.dueDate TodoService.completed_true = missing ->
     Todo.dueDate Examples.completed_review = Todo.dueDate existing) /\
    (UpdateTodoInput.tags TodoService.completed_true = missing ->
     Todo.tags Examples.completed_review = Todo.tags existing).
Proof.
  apply (update_keeps_missing_keys Examples.any_date "id-2"
           TodoService.completed_true Examples.thursday Examples.db3
           Examples.db4 Examples.completed_review).
  vm_compute. reflexivity.
Defined.

(** X3.  For a non-empty tag of printable ASCII characters other than the
    double quote and the backslash, and short enough for LIKE (at most
    49996 bytes), the tag filter returns, under every plan, every todo
    whose row holds the JSON text of a list with that tag. *)
Theorem plain_tag_members_are_returned (engine : TodoDatabase.plan)
  (tag : string) (db : TodoDatabase.table) (row : Row.t)
  (tags : list string) :
  Spec.readable db ->
  Spec.plain_tag tag = true -> tag <> "" -> Spec.short tag = true ->
  In row db -> Row.tags row = Some (JSON.stringify tags) -> In tag tags ->
  exists todos todo,
    TodoService.getAllTodos engine
      (Some (TodoFilter.mk None None (Some tag) None None)) db = Ok todos /\
    TodoDatabase.rowToTodo row = Ok todo /\ In todo todos.
Proof.
  intros Hr Hplain Hne Hshort Hrow Htext Hin.
  destruct (getAllTodos_total engine
              (Some (TodoFilter.mk None None (Some tag) None None)) db Hr
              Hshort)
    as [todos Htodos].
  exists todos. unfold TodoService.getAllTodos. rewrite Htodos.
  apply getAllTodos_rows in Htodos.
  assert (Hsel : In row
            (TodoDatabase.select_rows engine
               (Some (TodoFilter.mk None None (Some tag) None None)) db)).
  { apply select_rows_In. split; [exact Hrow|].
    unfold TodoDatabase.where_all, TodoDatabase.conditions.
    cbn [TodoFilter.completed TodoFilter.priority TodoFilter.dueBefore
         TodoFilter.dueAfter TodoFilter.tag app].
    assert (Ht : truthy tag = true).
    { unfold truthy. apply negb_true_iff, String.eqb_neq. exact Hne. }
    rewrite Ht. cbn [forallb]. rewrite Htext, andb_true_r.
    now apply like_written_tags. }
  destruct (Forall2_In_l _ _ _ _ Htodos Hsel) as [todo [Hin' Hto]].
  exists todo. auto.
Qed.

Lemma plain_tag_members_are_returned_witness :
  exists todos todo,
    TodoService.getAllTodos Examples.observed (Examples.by_tag "health")
      Examples.db1 = Ok todos /\
    Todo.id todo = "id-1" /\ In todo todos.
Proof.
  destruct (plain_tag_members_are_returned Examples.observed "health"
              Examples.db1 (hd Examples.no_row Examples.db1)
              ["Work"; "health"])
    as [todos [todo [Htodos [Hto Hin]]]].
  - vm_compute. reflexivity.
  - vm_compute. reflexivity.
  - discriminate.
  - vm_compute. reflexivity.
  - left. reflexivity.
  - vm_compute. reflexivity.
  - right. left. reflexivity.
  - exists todos, todo. split; [exact Htodos|]. split; [|exact Hin].
    vm_compute in Hto. injection Hto as <-. reflexivity.
Defined.

(** X4.  A creation that returns yields a todo that is not completed and
    whose two timestamps are the instant of the call; without a priority
    in the input the priority is medium, and without tags the tags are
    empty. *)
Theorem create_defaults (valid_date : string -> bool)
  (input : CreateTodoInput.t) (uuid now : string)
  (db db' : TodoDatabase.table) (created : Todo.t) :
  TodoService.createTodo valid_date input uuid now db = (Ok created, db') ->
  Todo.id created = uuid /\
  Todo.title created = trim (CreateTodoInput.title input) /\
  Todo.completed created = Some false /\
  Todo.createdAt created = now /\
  Todo.updatedAt created = now /\
  (CreateTodoInput.priority input = None ->
   Todo.priority created = val "medium") /\
  (CreateTodoInput.tags input = None -> Todo.tags created = Some []).
Proof.
  unfold TodoService.createTodo.
  destruct (blank _); [discriminate|].
  destruct (TodoService.bad_date _ _); [discriminate|].
  destruct (TodoService.bad_priority _); [discriminate|].
  unfold TodoDatabase.createTodo.
  destruct (TodoDatabase.select_by_id uuid db); [discriminate|].
  intros [= <- <-]. cbn.
  repeat split; intros H; rewrite H; reflexivity.
Qed.

Lemma create_defaults_witness :
  exists created,
    fst (TodoService.createTodo Examples.any_date Examples.title_only "id-9"
           Examples.friday Examples.db3) = Ok created /\
    Todo.completed created = Some false /\
    Todo.priority created = val "medium" /\
    Todo.tags created = Some [] /\
    Todo.createdAt created = Todo.updatedAt created.
Proof.
  eexists.
  destruct (create_defaults Examples.any_date Examples.title_only "id-9"
              Examples.friday Examples.db3 _ _ eq_refl)
    as [_ [_ [Hc [Hcr [Hup [Hp Ht]]]]]].
  split; [reflexivity|]. split; [exact Hc|].
  split; [exact (Hp eq_refl)|]. split; [exact (Ht eq_refl)|].
  now rewrite Hcr, Hup.
Defined.

(** X5.  After a deletion that returned, the identifier matches no row:
    fetching it yields no todo, and the other rows are as before. *)
Theorem delete_then_fetch (id : string) (db db' : TodoDatabase.table)
  (deleted : bool) :
  TodoService.deleteTodo id db = (Ok deleted, db') ->
  deleted = true /\
  TodoService.getTodoById id db' = Ok None /\
  forall row, In row db' <-> In row db /\ Row.id row <> id.
Proof.
  unfold TodoService.deleteTodo, TodoService.getTodoById.
  destruct (blank id) eqn:Hb; [discriminate|].
  destruct (TodoDatabase.getTodoById id db) as [[existing|]|e] eqn:Hget;
    try discriminate.
  cbn [TodoDatabase.deleteTodo]. intros [= <- <-].
  apply getTodoById_Some in Hget as [row0 [Hin0 [Hid0 _]]].
  split; [|split].
  - apply existsb_exists. exists row0. split; [exact Hin0|].
    unfold TodoDatabase.has_id. now apply String.eqb_eq.
  - unfold TodoDatabase.getTodoById.
    assert (Hnone : TodoDatabase.select_by_id id
              (List.filter (fun row => negb (TodoDatabase.has_id id row)) db)
              = None).
    { apply unknown_select. intros row Hrow.
      apply filter_In in Hrow as [_ Hrow].
      apply negb_true_iff in Hrow. now apply String.eqb_neq in Hrow. }
    now rewrite Hnone.
  - intros row. rewrite filter_In. unfold TodoDatabase.has_id.
    rewrite negb_true_iff, String.eqb_neq. reflexivity.
Qed.

Lemma delete_then_fetch_witness :
  true = true /\
  TodoService.getTodoById "id-2" Examples.db_without_review = Ok None /\
  forall row,
    In row Examples.db_without_review <->
    In row Examples.db3 /\ Row.id row <> "id-2".
Proof.
  apply (delete_then_fetch "id-2" Examples.db3 Examples.db_without_review true).
  vm_compute. reflexivity.
Defined.

Import TrimFacts SoundFacts FrameFacts.

(** X6.  In every table the service reaches from the empty one, each row
    is sound (a title that is not empty and has nothing left to trim; a
    description that is NULL or such a text; 0 or 1 in [completed]; a due
    date that is NULL or not empty; tags that are NULL or the JSON text of
    non-empty, trimmed tags), and no two rows share an identifier. *)
Theorem reachable_tables_are_sound (valid_date : string -> bool)
  (db : TodoDatabase.table) :
  Spec.reachable valid_date db ->
  Spec.sound db /\ NoDup (map Row.id db).
Proof.
  induction 1 as [|input uuid now db _ [IH1 IH2]|id input now db _ [IH1 IH2]
                  |id db _ [IH1 IH2]].
  - split; [reflexivity | constructor].
  - split; [now apply createTodo_sound | now apply createTodo_ids].
  - split; [now apply updateTodo_sound | now rewrite updateTodo_ids].
  - split; [now apply deleteTodo_sound | now apply deleteTodo_ids].
Qed.

Lemma reachable_tables_are_sound_witness :
  Spec.sound Examples.db4 /\ NoDup (map Row.id Examples.db4).
Proof.
  apply (reachable_tables_are_sound Examples.any_date).
  unfold Examples.db4, TodoService.completeTodo. apply Spec.reach_update.
  unfold Examples.db3. apply Spec.reach_create.
  unfold Examples.db2. apply Spec.reach_create.
  unfold Examples.db1. apply Spec.reach_create.
  apply Spec.reach_empty.
Defined.

(** X7.  A creation, an update or a deletion that throws leaves the table
    as it was. *)
Theorem failed_command_changes_nothing (valid_date : string -> bool)
  (db : TodoDatabase.table) :
  (forall input uuid now e db',
     TodoService.createTodo valid_date input uuid now db = (Throw e, db') ->
     db' = db) /\
  (forall id input now e db',
     TodoService.updateTodo valid_date id input now db = (Throw e, db') ->
     db' = db) /\
  (forall id e db',
     TodoService.deleteTodo id db = (Throw e, db') -> db' = db).
Proof.
  split; [|split].
  - intros input uuid now e db'. unfold TodoService.createTodo.
    destruct (blank _); [now intros [= _ <-]|].
    destruct (TodoService.bad_date _ _); [now intros [= _ <-]|].
    destruct (TodoService.bad_priority _); [now intros [= _ <-]|].
    unfold TodoDatabase.createTodo.
    destruct (TodoDatabase.select_by_id uuid db);
      [now intros [= _ <-] | discriminate].
  - intros id input now e db'. unfold TodoService.updateTodo.
    destruct (blank id); [now intros [= _ <-]|].
    destruct (TodoDatabase.getTodoById id db) as [[existing|]|e0] eqn:Hget;
      try (now intros [= _ <-]).
    destruct (match read (UpdateTodoInput.title input) with
              | Some t => blank t
              | None => false
              end); [now intros [= _ <-]|].
    destruct (TodoService.bad_date _ _); [now intros [= _ <-]|].
    destruct (TodoService.bad_priority _); [now intros [= _ <-]|].
    unfold TodoDatabase.updateTodo. rewrite Hget.
    destruct (TodoDatabase.spread _ _);
      [discriminate | now intros [= _ <-]].
  - intros id e db'. unfold TodoService.deleteTodo.
    destruct (blank id); [now intros [= _ <-]|].
    destruct (TodoDatabase.getTodoById id db) as [[existing|]|e0];
      now intros [= _ <-].
Qed.

(** X8.  A creation returns a todo exactly when the title is not empty or
    made of whitespace only, a due date that is given and not empty is a
    valid date, a priority that is given and not empty is low, medium or
    high, and the generated identifier matches no row; the todo it returns
    then has one of the three priorities. *)
Theorem create_succeeds_exactly_when (valid_date : string -> bool)
  (input : CreateTodoInput.t) (uuid now : string) (db : TodoDatabase.table) :
  ((exists todo db',
      TodoService.createTodo valid_date input uuid now db = (Ok todo, db')) <->
   ~ whitespace_only (CreateTodoInput.title input) /\
   (forall d, CreateTodoInput.dueDate input = Some d -> d <> "" ->
              valid_date d = true) /\
   (forall p, CreateTodoInput.priority input = Some p -> p <> "" ->
              p = "low" \/ p = "medium" \/ p = "high") /\
   Spec.unknown uuid db) /\
  (forall todo db',
     TodoService.createTodo valid_date input uuid now db = (Ok todo, db') ->
     Todo.priority todo = val "low" \/ Todo.priority todo = val "medium" \/
     Todo.priority todo = val "high").
Proof.
  assert (Hvalid : forall p, TodoService.valid_priority p = true <->
                             p = "low" \/ p = "medium" \/ p = "high").
  { intros p. unfold TodoService.valid_priority. cbn [existsb].
    rewrite !orb_true_iff, !String.eqb_eq. intuition discriminate. }
  assert (Htruthy : forall s, truthy s = true <-> s <> "").
  { intros s. unfold truthy. rewrite negb_true_iff. apply String.eqb_neq. }
  assert (Hdate : TodoService.bad_date valid_date (CreateTodoInput.dueDate input)
                  = false <->
                  forall d, CreateTodoInput.dueDate input = Some d ->
                            d <> "" -> valid_date d = true).
  { unfold TodoService.bad_date.
    destruct (CreateTodoInput.dueDate input) as [d|].
    - rewrite andb_false_iff, negb_false_iff. split.
      + intros [H|H] d' [= <-] Hne; [|exact H].
        apply Htruthy in Hne. congruence.
      + intros H. destruct (truthy d) eqn:E; [|now left].
        right. apply (H d eq_refl). now apply Htruthy.
    - split; [discriminate | reflexivity]. }
  assert (Hprio : TodoService.bad_priority (CreateTodoInput.priority input)
                  = false <->
                  forall p, CreateTodoInput.priority input = Some p ->
                            p <> "" -> p = "low" \/ p = "medium" \/ p = "high").
  { unfold TodoService.bad_priority.
    destruct (CreateTodoInput.priority input) as [p|].
    - rewrite andb_false_iff, negb_false_iff. split.
      + intros [H|H] p' [= <-] Hne; [|now apply Hvalid].
        apply Htruthy in Hne. congruence.
      + intros H. destruct (truthy p) eqn:E; [|now left].
        right. apply Hvalid, (H p eq_refl). now apply Htruthy.
    - split; [discriminate | reflexivity]. }
  split.
  - rewrite <- blank_false_iff, <- Hdate, <- Hprio, unknown_select.
    unfold TodoService.createTodo, TodoDatabase.createTodo.
    destruct (blank _);
      [split; [intros [? [? ?]]; discriminate | intros [? _]; discriminate]|].
    destruct (TodoService.bad_date _ _);
      [split; [intros [? [? ?]]; discriminate
              | intros [_ [? _]]; discriminate]|].
    destruct (TodoService.bad_priority _);
      [split; [intros [? [? ?]]; discriminate
              | intros [_ [_ [? _]]]; discriminate]|].
    destruct (TodoDatabase.select_by_id uuid db).
    + split; [intros [? [? ?]]; discriminate
             | intros [_ [_ [_ ?]]]; discriminate].
    + split; eauto.
  - intros todo db'. unfold TodoService.createTodo, TodoDatabase.createTodo.
    destruct (blank _); [discriminate|].
    destruct (TodoService.bad_date _ _); [discriminate|].
    destruct (TodoService.bad_priority _) eqn:Hbad; [discriminate|].
    destruct (TodoDatabase.select_by_id uuid db); [discriminate|].
    intros [= <- _]. cbn [Todo.priority CreateTodoInput.priority].
    unfold TodoService.bad_priority in Hbad.
    destruct (CreateTodoInput.priority input) as [p|]; [|auto].
    destruct (truthy p); [|auto].
    cbn [andb] in Hbad. apply negb_false_iff, Hvalid in Hbad.
    destruct Hbad as [-> | [-> | ->]]; auto.
Qed.

(** X9.  A creation that returns appends one row, under the generated
    identifier, and every other identifier fetches what it fetched
    before. *)
Theorem create_adds_one_row (valid_date : string -> bool)
  (input : CreateTodoInput.t) (uuid now : string)
  (db db' : TodoDatabase.table) (created : Todo.t) :
  TodoService.createTodo valid_date input uuid now db = (Ok created, db') ->
  Spec.unknown uuid db /\
  (exists row, db' = (db ++ [row])%list /\ Row.id row = uuid) /\
  (forall id, id <> uuid ->
     TodoDatabase.getTodoById id db' = TodoDatabase.getTodoById id db).
Proof.
  intros H. apply createTodo_ok in H as [input' H].
  unfold TodoDatabase.createTodo in H.
  destruct (TodoDatabase.select_by_id uuid db) eqn:Hsel; [discriminate|].
  injection H as _ <-. split; [now apply unknown_select|]. split.
  - eexists. split; reflexivity.
  - intros id Hne. apply select_getTodoById.
    unfold TodoDatabase.select_by_id. apply find_app_other.
    unfold TodoDatabase.has_id. cbn [Row.id Todo.id].
    apply String.eqb_neq. congruence.
Qed.

Lemma create_adds_one_row_witness :
  Spec.unknown "id-3" Examples.db2 /\
  (exists row, Examples.db3 = (Examples.db2 ++ [row])%list /\
               Row.id row = "id-3") /\
  (forall id, id <> "id-3" ->
     TodoDatabase.getTodoById id Examples.db3 =
     TodoDatabase.getTodoById id Examples.db2).
Proof.
  apply (create_adds_one_row Examples.any_date Examples.exercise "id-3"
           Examples.wednesday Examples.db2 Examples.db3
           (Examples.created_exercise)).
  vm_compute. reflexivity.
Defined.

(** X10.  After an update that returned, fetching the identifier yields the
    returned todo as its row reads back ([null] for a description or due
    date that is [undefined] or empty, [false] for an [undefined]
    [completed], [null] for an [undefined] priority, no tags for
    [undefined] tags); every other identifier fetches what it fetched
    before, and the table has as many rows as before. *)
Theorem update_then_fetch (valid_date : string -> bool) (id : string)
  (input : UpdateTodoInput.t) (now : string) (db db' : TodoDatabase.table)
  (updated : Todo.t) :
  TodoService.updateTodo valid_date id input now db = (Ok updated, db') ->
  TodoService.getTodoById id db' = Ok (Some (Spec.read_back updated)) /\
  (forall id', id' <> id ->
     TodoDatabase.getTodoById id' db' = TodoDatabase.getTodoById id' db) /\
  List.length db' = List.length db.
Proof.
  intros H. apply updateTodo_ok in H as [Hb H].
  apply db_updateTodo_ok in H as [Hget [Hother Hlen]].
  unfold TodoService.getTodoById. rewrite Hb.
  split; [exact Hget|]. split; [|exact Hlen].
  intros id' Hne. apply select_getTodoById. now apply Hother.
Qed.

Lemma update_then_fetch_witness :
  TodoService.getTodoById "id-2" Examples.db5 =
    Ok (Some (Spec.read_back Examples.retitled)) /\
  (forall id', id' <> "id-2" ->
     TodoDatabase.getTodoById id' Examples.db5 =
     TodoDatabase.getTodoById id' Examples.db4) /\
  List.length Examples.db5 = List.length Examples.db4.
Proof.
  apply (update_then_fetch Examples.any_date "id-2" Examples.retitle
           Examples.friday Examples.db4 Examples.db5 Examples.retitled).
  vm_compute. reflexivity.
Defined.

(** X11.  On a sound table, under every plan, a listing under a filter
    without a tag is a rearrangement of the full listing with the todos
    that fail a condition removed, and it comes newest first: the
    conditions on completion, on the priority (ignored when empty) and on
    the two bounds of the due date (compared as texts, ignored when empty,
    and failed by a todo without a due date) are taken together.  When no
    two rows were created at the same instant it is that list itself, in
    the order of the full listing. *)
Theorem filter_selects (engine : TodoDatabase.plan) (filter : TodoFilter.t)
  (db : TodoDatabase.table) :
  Spec.sound db -> Spec.no_tag filter = true ->
  exists all listed,
    TodoService.getAllTodos engine None db = Ok all /\
    TodoService.getAllTodos engine (Some filter) db = Ok listed /\
    Permutation listed (List.filter (Spec.passes filter) all) /\
    StronglySorted Spec.created_ge listed /\
    (NoDup (map Row.created_at db) ->
     listed = List.filter (Spec.passes filter) all).
Proof.
  intros Hs Hno.
  destruct (getAllTodos_total engine None db (sound_readable db Hs) eq_refl)
    as [all Hall].
  destruct (filtered_listing engine filter db all Hs Hno Hall)
    as [listed [Hlisted Hperm]].
  exists all, listed. unfold TodoService.getAllTodos.
  split; [exact Hall|]. split; [exact Hlisted|]. split; [exact Hperm|].
  split; [exact (getAllTodos_sorted engine _ db listed Hlisted)|].
  intros Hnd.
  pose proof (filtered_listing_unique engine filter db all Hs Hno Hnd Hall).
  congruence.
Qed.

(** The table after the completion, whose rows were created on different
    days, and the filter on open todos of low priority. *)
Lemma filter_selects_witness :
  exists all listed,
    TodoService.getAllTodos Examples.observed None Examples.db4 = Ok all /\
    TodoService.getAllTodos Examples.observed (Some Examples.open_and_low)
      Examples.db4 = Ok listed /\
    Permutation listed (List.filter (Spec.passes Examples.open_and_low) all) /\
    StronglySorted Spec.created_ge listed /\
    listed = List.filter (Spec.passes Examples.open_and_low) all.
Proof.
  destruct (filter_selects Examples.observed Examples.open_and_low
              Examples.db4) as [all [listed [H1 [H2 [H3 [H4 H5]]]]]].
  - vm_compute. reflexivity.
  - vm_compute. reflexivity.
  - exists all, listed.
    exact (conj H1 (conj H2 (conj H3 (conj H4
             (H5 ExampleFacts.db4_created_distinct))))).
Defined.

(** On three todos created within the same millisecond the plans of
    [Examples.observed] list the table newest row first and the pending
    todos oldest row first. *)
Example ties_follow_the_plan :
  exists a b c,
    TodoService.getAllTodos Examples.observed None Examples.db7
      = Ok [c; b; a] /\
    TodoService.getPendingTodos Examples.observed Examples.db7
      = Ok [a; b; c] /\
    map Todo.id [a; b; c] = ["t-1"; "t-2"; "t-3"].
Proof. do 3 eexists. repeat split; vm_compute; reflexivity. Qed.

(** X12.  On a sound table, under every plan, the completed listing and
    the pending listing split the full listing: each is a rearrangement
    of the full listing restricted to the todos that are, or are not,
    completed, and the statistics count exactly these: [completed] and
    [pending] are their lengths and add up to [total]. *)
Theorem completed_and_pending_split (engine : TodoDatabase.plan)
  (now : string) (db : TodoDatabase.table) :
  Spec.sound db ->
  exists all done open stats,
    TodoService.getAllTodos engine None db = Ok all /\
    TodoService.getCompletedTodos engine db = Ok done /\
    TodoService.getPendingTodos engine db = Ok open /\
    Permutation done (List.filter Spec.is_done all) /\
    Permutation open (List.filter Spec.is_open all) /\
    TodoService.getStats engine now db = Ok stats /\
    TodoService.completed stats = List.length done /\
    TodoService.pending stats = List.length open /\
    TodoService.completed stats + TodoService.pending stats =
      TodoService.total stats.
Proof.
  intros Hs. pose proof (sound_readable db Hs) as Hr.
  destruct (filter_lists engine db Hs)
    as [all [done [open [Hall [Hdone [Hopen [Hpd [Hpo Hsplit]]]]]]]].
  destruct (getOverdueTodos_total engine now db Hr) as [late Hlate].
  exists all, done, open. eexists.
  split; [exact Hall|]. split; [exact Hdone|]. split; [exact Hopen|].
  split; [exact Hpd|]. split; [exact Hpo|].
  unfold TodoService.getStats, TodoService.getOverdueTodos.
  unfold TodoService.getAllTodos in Hall |- *.
  rewrite Hall, Hlate. cbn [bind].
  split; [reflexivity|].
  cbn [TodoService.completed TodoService.pending TodoService.total].
  assert (Hc : List.length (List.filter TodoService.is_completed all) =
               List.length done).
  { rewrite (Permutation_length Hpd).
    apply (StatsFacts.count_ext _ _ all StatsFacts.is_completed_done). }
  rewrite Hc. split; [reflexivity|]. rewrite <- Hsplit. split; lia.
Qed.

Lemma completed_and_pending_split_witness :
  exists all done open stats,
    TodoService.getAllTodos Examples.observed None Examples.db4 = Ok all /\
    TodoService.getCompletedTodos Examples.observed Examples.db4 = Ok done /\
    TodoService.getPendingTodos Examples.observed Examples.db4 = Ok open /\
    Permutation done (List.filter Spec.is_done all) /\
    Permutation open (List.filter Spec.is_open all) /\
    TodoService.getStats Examples.observed Examples.friday Examples.db4
      = Ok stats /\
    TodoService.completed stats = List.length done /\
    TodoService.pending stats = List.length open /\
    TodoService.completed stats + TodoService.pending stats =
      TodoService.total stats.
Proof.
  apply (completed_and_pending_split Examples.observed Examples.friday
           Examples.db4).
  vm_compute. reflexivity.
Defined.

(** X13.  On a sound table every overdue todo is in the pending listing
    and none is in the completed listing. *)
Theorem overdue_todos_are_pending (engine : TodoDatabase.plan) (now : string)
  (db : TodoDatabase.table) :
  Spec.sound db ->
  exists late open done,
    TodoService.getOverdueTodos engine now db = Ok late /\
    TodoService.getPendingTodos engine db = Ok open /\
    TodoService.getCompletedTodos engine db = Ok done /\
    forall todo, In todo late -> In todo open /\ ~ In todo done.
Proof.
  intros Hs. pose proof (sound_readable db Hs) as Hr.
  destruct (filter_lists engine db Hs)
    as [all [done [open [Hall [Hdone [Hopen [Hpd [Hpo _]]]]]]]].
  destruct (getOverdueTodos_total engine now db Hr) as [late Hlate].
  exists late, open, done.
  split; [exact Hlate|]. split; [exact Hopen|]. split; [exact Hdone|].
  intros todo Hin. apply mapM_Forall2 in Hlate.
  destruct (Forall2_In_r _ _ _ _ Hlate Hin) as [row [Hrow Hto]].
  apply overdue_rows_In in Hrow as [Hrow Hover].
  rewrite (overdue_row_todo now row todo Hto) in Hover.
  assert (Hlisted : In todo all).
  { apply (listed_In engine db all todo Hall). eauto. }
  unfold Spec.text_overdue in Hover.
  assert (Hflag : Spec.is_open todo = true /\ Spec.is_done todo = false).
  { unfold Spec.is_open, Spec.is_done.
    destruct (Todo.completed todo) as [[]|]; try discriminate. auto. }
  destruct Hflag as [Ho Hd]. split.
  - apply (Permutation_in _ (Permutation_sym Hpo)).
    apply filter_In. auto.
  - intros Hind. apply (Permutation_in _ Hpd) in Hind.
    apply filter_In in Hind as [_ Hind]. congruence.
Qed.

Lemma overdue_todos_are_pending_witness :
  exists late open done,
    TodoService.getOverdueTodos Examples.observed Examples.friday Examples.db3
      = Ok late /\
    TodoService.getPendingTodos Examples.observed Examples.db3 = Ok open /\
    TodoService.getCompletedTodos Examples.observed Examples.db3 = Ok done /\
    forall todo, In todo late -> In todo open /\ ~ In todo done.
Proof.
  apply (overdue_todos_are_pending Examples.observed Examples.friday
           Examples.db3).
  vm_compute. reflexivity.
Defined.

(** X14.  The listing by tag of the service ignores whitespace around the
    tag: a tag and its trimmed form give the same result, which is the
    error [Tag is required] when nothing is left. *)
Theorem tag_listing_ignores_outer_whitespace (engine : TodoDatabase.plan)
  (tag : string) (db : TodoDatabase.table) :
  TodoService.getTodosByTag engine tag db =
    TodoService.getTodosByTag engine (trim tag) db /\
  (whitespace_only tag ->
   TodoService.getTodosByTag engine tag db = Throw (Error "Tag is required")).
Proof.
  unfold TodoService.getTodosByTag. rewrite blank_trim, trim_trim.
  split; [reflexivity|].
  intros H. apply blank_iff in H. now rewrite H.
Qed.

(** X15.  On a sound table, completing a todo returns exactly the todo
    that a fetch of the identifier yields afterwards, and that todo is
    completed. *)
Theorem complete_then_fetch (valid_date : string -> bool) (id now : string)
  (db db' : TodoDatabase.table) (todo : Todo.t) :
  Spec.sound db ->
  TodoService.completeTodo valid_date id now db = (Ok todo, db') ->
  TodoService.getTodoById id db' = Ok (Some todo) /\
  Todo.completed todo = Some true.
Proof.
  intros Hs H. unfold TodoService.completeTodo in H.
  pose proof (updateTodo_ok _ _ _ _ _ _ _ H) as [Hb Hdb].
  apply db_updateTodo_ok in Hdb as [Hget _].
  assert (Hex : exists existing,
            TodoDatabase.getTodoById id db = Ok (Some existing)).
  { unfold TodoService.updateTodo in H. rewrite Hb in H.
    destruct (TodoDatabase.getTodoById id db) as [[existing|]|e];
      try discriminate. eauto. }
  destruct Hex as [existing Hex].
  destruct (flag_update valid_date id true now db existing Hb Hex)
    as [db0 Hflag].
  unfold TodoService.completed_true in H. rewrite Hflag in H.
  injection H as <- _.
  destruct (sound_fetched id db existing Hs Hex) as [_ Hrb].
  rewrite (read_back_with_flag existing true now Hrb) in Hget.
  unfold TodoService.getTodoById. rewrite Hb. split; [exact Hget|reflexivity].
Qed.

Lemma complete_then_fetch_witness :
  TodoService.getTodoById "id-2" Examples.db4 =
    Ok (Some Examples.completed_review) /\
  Todo.completed Examples.completed_review = Some true.
Proof.
  apply (complete_then_fetch Examples.any_date "id-2" Examples.thursday
           Examples.db3 Examples.db4 Examples.completed_review).
  - vm_compute. reflexivity.
  - vm_compute. reflexivity.
Defined.

(** X16.  On a sound table, after completing a todo the call that marks it
    not completed returns: it yields the completed todo with [completed]
    false and [updatedAt] at the second instant, every other field as
    before, and a fetch yields the same todo. *)
Theorem complete_then_uncomplete (valid_date : string -> bool)
  (id now later : string) (db db1 : TodoDatabase.table) (done : Todo.t) :
  Spec.sound db ->
  TodoService.completeTodo valid_date id now db = (Ok done, db1) ->
  exists db2,
    TodoService.uncompleteTodo valid_date id later db1 =
      (Ok (Spec.with_flag done false later), db2) /\
    TodoService.getTodoById id db2 =
      Ok (Some (Spec.with_flag done false later)).
Proof.
  intros Hs H. unfold TodoService.completeTodo in H.
  pose proof (updateTodo_ok _ _ _ _ _ _ _ H) as [Hb Hdb].
  apply db_updateTodo_ok in Hdb as [Hget _].
  assert (Hex : exists existing,
            TodoDatabase.getTodoById id db = Ok (Some existing)).
  { unfold TodoService.updateTodo in H. rewrite Hb in H.
    destruct (TodoDatabase.getTodoById id db) as [[existing|]|e];
      try discriminate. eauto. }
  destruct Hex as [existing Hex].
  destruct (flag_update valid_date id true now db existing Hb Hex)
    as [db0 Hflag0].
  unfold TodoService.completed_true in H. rewrite Hflag0 in H.
  injection H as <- _.
  destruct (sound_fetched id db existing Hs Hex) as [_ Hrb].
  pose proof (read_back_with_flag existing true now Hrb) as Hdone.
  rewrite Hdone in Hget.
  destruct (flag_update valid_date id false later db1 _ Hb Hget)
    as [db2 Hflag].
  exists db2. unfold TodoService.uncompleteTodo, TodoService.completed_false.
  split; [exact Hflag|].
  pose proof (updateTodo_ok _ _ _ _ _ _ _ Hflag) as [_ Hdb2].
  apply db_updateTodo_ok in Hdb2 as [Hget2 _].
  rewrite (read_back_with_flag _ false later Hdone) in Hget2.
  unfold TodoService.getTodoById. now rewrite Hb.
Qed.

Lemma complete_then_uncomplete_witness :
  exists db2,
    TodoService.uncompleteTodo Examples.any_date "id-2" Examples.friday
      Examples.db4 =
      (Ok (Spec.with_flag Examples.completed_review false Examples.friday),
       db2) /\
    TodoService.getTodoById "id-2" db2 =
      Ok (Some (Spec.with_flag Examples.completed_review false
                  Examples.friday)).
Proof.
  apply (complete_then_uncomplete Examples.any_date "id-2" Examples.thursday
           Examples.friday Examples.db3 Examples.db4).
  - vm_compute. reflexivity.
  - vm_compute. reflexivity.
Defined.

(** X17.  The tool [list_todos] reports the first [limit] todos of the
    filtered listing, no more than [limit], and those are the most
    recently created: none that is left out was created after one that is
    reported. *)
Theorem list_todos_keeps_the_newest (engine : TodoDatabase.plan)
  (completed : option bool) (priority tag : option string) (limit : nat)
  (db : TodoDatabase.table) (shown : list Todo.t) :
  McpServer.list_todos engine completed priority tag limit db = Ok shown ->
  exists todos,
    TodoService.getAllTodos engine
      (Some (TodoFilter.mk completed priority tag None None)) db = Ok todos /\
    shown = firstn limit todos /\
    List.length shown = Nat.min limit (List.length todos) /\
    forall a b, In a shown -> In b (skipn limit todos) -> Spec.created_ge a b.
Proof.
  unfold McpServer.list_todos, TodoService.getAllTodos.
  destruct (TodoDatabase.getAllTodos engine _ db) as [todos|e] eqn:H;
    [|discriminate].
  cbn [bind]. intros [= <-]. exists todos.
  split; [reflexivity|]. split; [reflexivity|].
  split; [apply length_firstn|].
  apply getAllTodos_sorted in H.
  rewrite <- (firstn_skipn limit todos) in H.
  now apply StronglySorted_app_between.
Qed.

Lemma list_todos_keeps_the_newest_witness :
  exists shown todos,
    McpServer.list_todos Examples.observed (Some false) None None 1
      Examples.db4 = Ok shown /\
    TodoService.getAllTodos Examples.observed
      (Some (TodoFilter.mk (Some false) None None None None)) Examples.db4
      = Ok todos /\
    shown = firstn 1 todos /\
    List.length shown = Nat.min 1 (List.length todos) /\
    forall a b, In a shown -> In b (skipn 1 todos) -> Spec.created_ge a b.
Proof.
  eexists.
  assert (H : McpServer.list_todos Examples.observed (Some false) None None 1
                Examples.db4 = Ok [Examples.created_exercise_stored]).
  { vm_compute. reflexivity. }
  destruct (list_todos_keeps_the_newest _ _ _ _ _ _ _ H) as [todos Htodos].
  exists todos. split; [exact H | exact Htodos].
Defined.

(** X18.  On a sound table the enumeration of tags holds only tags that
    are not empty and have nothing left to trim. *)
Theorem enumerated_tags_are_clean (db : TodoDatabase.table) (tag : string) :
  Spec.sound db -> In tag (TodoService.getAllTags db) ->
  tag <> "" /\ trim tag = tag.
Proof.
  intros Hs Hin.
  unfold TodoService.getAllTags, TodoDatabase.getAllTags in Hin.
  apply sort_by_In, TagFacts.collect_In in Hin.
  destruct Hin as [[]|[text [tags [Htext [Hparse Hin]]]]].
  apply TagFacts.tag_texts_In in Htext as [row [Hrow [Ht _]]].
  pose proof (sound_In db row Hs Hrow) as Hsound.
  unfold Spec.sound_row in Hsound. rewrite Ht in Hsound.
  apply andb_true_iff in Hsound as [_ Hsound].
  destruct (JSON.parse text) as [tags'|] eqn:E; [|discriminate].
  apply andb_true_iff in Hsound as [Hstr Hclean].
  apply String.eqb_eq in Hstr.
  assert (Htags : tags = tags').
  { unfold TodoDatabase.tags_text in Hparse. rewrite <- Hstr in Hparse.
    rewrite stringify_not_empty, parse_stringify in Hparse. congruence. }
  subst tags'. rewrite forallb_forall in Hclean.
  specialize (Hclean tag Hin). unfold Spec.clean_text in Hclean.
  apply andb_true_iff in Hclean as [H1 H2].
  split; [|now apply String.eqb_eq].
  unfold truthy in H1. apply negb_true_iff in H1.
  now apply String.eqb_neq.
Qed.

Lemma enumerated_tags_are_clean_witness :
  "health" <> "" /\ trim "health" = "health".
Proof.
  apply (enumerated_tags_are_clean Examples.db4).
  - vm_compute. reflexivity.
  - vm_compute. repeat ((left; reflexivity) || right).
Defined.

(** X19.  On a sound table, under every plan, the listing by priority is
    a rearrangement of the full listing restricted to the todos of that
    priority, newest first; for the empty string the condition is dropped
    and it is a rearrangement of the full listing.  When no two rows were
    created at the same instant it is that list itself. *)
Theorem priority_listing (engine : TodoDatabase.plan) (priority : string)
  (db : TodoDatabase.table) :
  Spec.sound db ->
  exists all listed,
    TodoService.getAllTodos engine None db = Ok all /\
    TodoService.getTodosByPriority engine priority db = Ok listed /\
    Permutation listed
      (if truthy priority
       then List.filter (Spec.has_priority priority) all
       else all) /\
    StronglySorted Spec.created_ge listed /\
    (NoDup (map Row.created_at db) ->
     listed = if truthy priority
              then List.filter (Spec.has_priority priority) all
              else all).
Proof.
  intros Hs.
  destruct (getAllTodos_total engine None db (sound_readable db Hs) eq_refl)
    as [all Hall].
  destruct (filtered_listing engine
              (TodoFilter.mk None (Some priority) None None None) db all Hs
              eq_refl Hall) as [listed [Hlisted Hperm]].
  assert (E : List.filter
                (Spec.passes
                   (TodoFilter.mk None (Some priority) None None None)) all =
              if truthy priority
              then List.filter (Spec.has_priority priority) all
              else all).
  { unfold Spec.passes.
    cbn [TodoFilter.completed TodoFilter.priority TodoFilter.dueBefore
         TodoFilter.dueAfter andb].
    destruct (truthy priority).
    - apply filter_ext. intros todo. now rewrite !andb_true_r.
    - apply filter_true. }
  exists all, listed.
  unfold TodoService.getAllTodos, TodoService.getTodosByPriority,
    TodoDatabase.getTodosByPriority.
  split; [exact Hall|]. split; [exact Hlisted|].
  split; [now rewrite <- E|].
  split; [exact (getAllTodos_sorted engine _ db listed Hlisted)|].
  intros Hnd. rewrite <- E.
  pose proof (filtered_listing_unique engine
                (TodoFilter.mk None (Some priority) None None None) db all
                Hs eq_refl Hnd Hall).
  congruence.
Qed.

(** The todos of high priority of the table after the completion, whose
    rows were created on different days. *)
Lemma priority_listing_witness :
  exists all listed,
    TodoService.getAllTodos Examples.observed None Examples.db4 = Ok all /\
    TodoService.getTodosByPriority Examples.observed "high" Examples.db4
      = Ok listed /\
    Permutation listed (List.filter (Spec.has_priority "high") all) /\
    StronglySorted Spec.created_ge listed /\
    listed = List.filter (Spec.has_priority "high") all.
Proof.
  destruct (priority_listing Examples.observed "high" Examples.db4)
    as [all [listed [H1 [H2 [H3 [H4 H5]]]]]].
  - vm_compute. reflexivity.
  - exists all, listed.
    exact (conj H1 (conj H2 (conj H3 (conj H4
             (H5 ExampleFacts.db4_created_distinct))))).
Defined.

(** X20.  The tool [search_todos] reports at most [limit] todos.  For a
    query of whitespace only they are the first [limit] todos of the full
    listing; for any other query each of them is a todo of the full
    listing that the lowercased and trimmed query hits, and when fewer
    than [limit] are reported no hit is left out. *)
Theorem search_tool_reports_hits (engine : TodoDatabase.plan)
  (toLowerCase : string -> string) (query : string) (limit : nat)
  (db : TodoDatabase.table) (shown : list Todo.t) :
  McpServer.search_todos engine toLowerCase query limit db = Ok shown ->
  exists all,
    TodoService.getAllTodos engine None db = Ok all /\
    List.length shown <= limit /\
    (whitespace_only query -> shown = firstn limit all) /\
    (~ whitespace_only query ->
     (forall todo,
        In todo shown ->
        In todo all /\
        Spec.search_hit toLowerCase (trim (toLowerCase query)) todo) /\
     (List.length shown < limit ->
      forall todo,
        In todo all ->
        Spec.search_hit toLowerCase (trim (toLowerCase query)) todo ->
        In todo shown)).
Proof.
  unfold McpServer.search_todos, TodoService.searchTodos,
    TodoService.getAllTodos.
  destruct (blank query) eqn:Hq.
  - destruct (TodoDatabase.getAllTodos engine None db) as [all|e];
      [|discriminate].
    cbn [bind]. intros [= <-]. exists all. split; [reflexivity|].
    split; [rewrite length_firstn; lia|]. split; [reflexivity|].
    intros Hn. apply blank_iff in Hq. contradiction.
  - destruct (TodoDatabase.getAllTodos engine None db) as [all|e] eqn:Hall;
      [|discriminate].
    cbn [bind].
    rewrite (filterM_pure _
               (Spec.search_hitb toLowerCase (trim (toLowerCase query))) all).
    2:{ intros todo Hin.
        destruct (listed_has_tags engine db all todo Hall Hin)
          as [tags Htags].
        eapply matches_hit; eauto. }
    cbn [bind]. intros [= <-]. exists all. split; [reflexivity|].
    split; [rewrite length_firstn; lia|].
    split; [intros Hw; apply blank_false_iff in Hq; contradiction|].
    intros _. split.
    + intros todo Hin. apply firstn_In, filter_In in Hin as [Hin Hhit].
      split; [exact Hin | now apply hit_iff].
    + intros Hlen todo Hin Hhit. rewrite length_firstn in Hlen.
      rewrite firstn_all2 by lia.
      apply filter_In. split; [exact Hin | now apply hit_iff].
Qed.

Lemma search_tool_reports_hits_witness :
  exists shown all,
    McpServer.search_todos Examples.observed Examples.ascii_lower "HEAL" 2
      Examples.db3 = Ok shown /\
    TodoService.getAllTodos Examples.observed None Examples.db3 = Ok all /\
    List.length shown <= 2 /\
    (whitespace_only "HEAL" -> shown = firstn 2 all) /\
    (~ whitespace_only "HEAL" ->
     (forall todo,
        In todo shown ->
        In todo all /\
        Spec.search_hit Examples.ascii_lower
          (trim (Examples.ascii_lower "HEAL")) todo) /\
     (List.length shown < 2 ->
      forall todo,
        In todo all ->
        Spec.search_hit Examples.ascii_lower
          (trim (Examples.ascii_lower "HEAL")) todo ->
        In todo shown)).
Proof.
  assert (H : exists shown,
            McpServer.search_todos Examples.observed Examples.ascii_lower
              "HEAL" 2 Examples.db3 = Ok shown).
  { vm_compute. eexists. reflexivity. }
  destruct H as [shown H]. exists shown.
  destruct (search_tool_reports_hits _ _ _ _ _ _ H) as [all Hall].
  exists all. split; [exact H | exact Hall].
Defined.

(** X21.  An update returns a todo exactly when the identifier is not
    empty or made of whitespace only and names a row that converts, the
    title is either missing from the input or a text that is not empty or
    made of whitespace only, a due date that is given and not empty is a
    valid date, and a priority that is given and not empty is low, medium
    or high. *)
Theorem update_succeeds_exactly_when (valid_date : string -> bool)
  (id : string) (input : UpdateTodoInput.t) (now : string)
  (db : TodoDatabase.table) :
  (exists todo db',
     TodoService.updateTodo valid_date id input now db = (Ok todo, db')) <->
  ~ whitespace_only id /\
  (exists existing, TodoDatabase.getTodoById id db = Ok (Some existing)) /\
  (UpdateTodoInput.title input = missing \/
   exists t, UpdateTodoInput.title input = present (Some t) /\
             ~ whitespace_only t) /\
  (forall d, read (UpdateTodoInput.dueDate input) = Some d -> d <> "" ->
             valid_date d = true) /\
  (forall p, read (UpdateTodoInput.priority input) = Some p -> p <> "" ->
             p = "low" \/ p = "medium" \/ p = "high").
Proof.
  assert (Hvalid : forall p, TodoService.valid_priority p = true <->
                             p = "low" \/ p = "medium" \/ p = "high").
  { intros p. unfold TodoService.valid_priority. cbn [existsb].
    rewrite !orb_true_iff, !String.eqb_eq. intuition discriminate. }
  assert (Htruthy : forall s, truthy s = true <-> s <> "").
  { intros s. unfold truthy. rewrite negb_true_iff. apply String.eqb_neq. }
  assert (Hdate : TodoService.bad_date valid_date
                    (read (UpdateTodoInput.dueDate input)) = false <->
                  forall d, read (UpdateTodoInput.dueDate input) = Some d ->
                            d <> "" -> valid_date d = true).
  { unfold TodoService.bad_date.
    destruct (read (UpdateTodoInput.dueDate input)) as [d|].
    - rewrite andb_false_iff, negb_false_iff. split.
      + intros [H|H] d' [= <-] Hne; [|exact H].
        apply Htruthy in Hne. congruence.
      + intros H. destruct (truthy d) eqn:E; [|now left].
        right. apply (H d eq_refl). now apply Htruthy.
    - split; [discriminate | reflexivity]. }
  assert (Hprio : TodoService.bad_priority
                    (read (UpdateTodoInput.priority input)) = false <->
                  forall p, read (UpdateTodoInput.priority input) = Some p ->
                            p <> "" -> p = "low" \/ p = "medium" \/ p = "high").
  { unfold TodoService.bad_priority.
    destruct (read (UpdateTodoInput.priority input)) as [p|].
    - rewrite andb_false_iff, negb_false_iff. split.
      + intros [H|H] p' [= <-] Hne; [|now apply Hvalid].
        apply Htruthy in Hne. congruence.
      + intros H. destruct (truthy p) eqn:E; [|now left].
        right. apply Hvalid, (H p eq_refl). now apply Htruthy.
    - split; [discriminate | reflexivity]. }
  rewrite <- blank_false_iff, <- Hdate, <- Hprio.
  unfold TodoService.updateTodo.
  destruct (blank id);
    [split; [intros [? [? ?]]; discriminate | intros [? _]; discriminate]|].
  destruct (TodoDatabase.getTodoById id db) as [[existing|]|e] eqn:Hget;
    [|split; [intros [? [? ?]]; discriminate
             | intros [_ [[? ?] _]]; discriminate]..].
  unfold TodoDatabase.updateTodo. rewrite Hget.
  destruct (UpdateTodoInput.title input) as [|[t|]] eqn:Ht; cbn [read].
  - destruct (TodoService.bad_date _ _);
      [split; [intros [? [? ?]]; discriminate
              | intros [_ [_ [_ [? _]]]]; discriminate]|].
    destruct (TodoService.bad_priority _);
      [split; [intros [? [? ?]]; discriminate
              | intros [_ [_ [_ [_ ?]]]]; discriminate]|].
    unfold TodoService.updateData. rewrite Ht.
    cbn [UpdateTodoInput.title TodoDatabase.spread].
    split; [intros _|eauto]. repeat split; eauto.
  - destruct (blank t) eqn:Hb.
    + split; [intros [? [? ?]]; discriminate|].
      intros [_ [_ [[H|[t' [[= <-] H]]] _]]]; [discriminate|].
      apply blank_false_iff in H. congruence.
    + destruct (TodoService.bad_date _ _);
        [split; [intros [? [? ?]]; discriminate
                | intros [_ [_ [_ [? _]]]]; discriminate]|].
      destruct (TodoService.bad_priority _);
        [split; [intros [? [? ?]]; discriminate
                | intros [_ [_ [_ [_ ?]]]]; discriminate]|].
      unfold TodoService.updateData. rewrite Ht.
      cbn [UpdateTodoInput.title TodoDatabase.spread].
      split; [intros _|eauto]. repeat split; eauto.
      right. exists t. split; [reflexivity | now apply blank_false_iff].
  - destruct (TodoService.bad_date _ _);
      [split; [intros [? [? ?]]; discriminate
              | intros [_ [_ [_ [? _]]]]; discriminate]|].
    destruct (TodoService.bad_priority _);
      [split; [intros [? [? ?]]; discriminate
              | intros [_ [_ [_ [_ ?]]]]; discriminate]|].
    unfold TodoService.updateData. rewrite Ht.
    cbn [UpdateTodoInput.title TodoDatabase.spread].
    split; [intros [? [? ?]]; discriminate|].
    intros [_ [_ [[H|[t' [H _]]] _]]]; discriminate.
Qed.

Import EnumerationFacts.

(** X22.  Whenever the full listing returns, under whatever plan, the
    enumeration of tags holds exactly the tags of the todos it lists. *)
Theorem enumeration_agrees_with_listing (engine : TodoDatabase.plan)
  (db : TodoDatabase.table) (all : list Todo.t) :
  TodoService.getAllTodos engine None db = Ok all ->
  forall tag,
    In tag (TodoService.getAllTags db) <->
    exists todo tags,
      In todo all /\ Todo.tags todo = Some tags /\ In tag tags.
Proof.
  unfold TodoService.getAllTodos, TodoService.getAllTags.
  intros Hall tag. rewrite getAllTags_In. split.
  - intros [row [text [tags [Hrow [Ht [_ [Hparse Hin]]]]]]].
    destruct (getAllTodos_None_rows engine db all Hall)
      as [rows [Hperm Hrows]].
    apply (Permutation_in _ (Permutation_sym Hperm)) in Hrow.
    destruct (Forall2_In_l _ _ _ _ Hrows Hrow) as [todo [Htodo Hto]].
    apply rowToTodo_fields in Hto as [l [Hl ->]].
    exists {| Todo.id := Row.id row;
              Todo.title := Row.title row;
              Todo.description := TodoDatabase.of_column (Row.description row);
              Todo.completed := Some (negb (Row.completed row =? 0)%Z);
              Todo.priority := TodoDatabase.of_column (Row.priority row);
              Todo.dueDate := TodoDatabase.of_column (Row.due_date row);
              Todo.tags := Some l;
              Todo.createdAt := Row.created_at row;
              Todo.updatedAt := Row.updated_at row |}, tags.
    split; [exact Htodo|]. split; [|exact Hin].
    cbn [Todo.tags]. rewrite Ht in Hl. congruence.
  - intros [todo [tags [Hin [Htags Htag]]]].
    apply (listed_In engine db all todo Hall) in Hin as [row [Hrow Hto]].
    apply rowToTodo_fields in Hto as [l [Hl ->]].
    cbn [Todo.tags] in Htags. injection Htags as ->.
    destruct (Row.tags row) as [text|] eqn:Ht.
    + exists row, text, tags. repeat split; auto.
      intros ->. cbv in Hl. injection Hl as <-. destruct Htag.
    + cbv in Hl. injection Hl as <-. destruct Htag.
Qed.

Lemma enumeration_agrees_with_listing_witness :
  exists all,
    TodoService.getAllTodos Examples.observed None Examples.db3 = Ok all /\
    forall tag,
      In tag (TodoService.getAllTags Examples.db3) <->
      exists todo tags,
        In todo all /\ Todo.tags todo = Some tags /\ In tag tags.
Proof.
  assert (H : exists all,
            TodoService.getAllTodos Examples.observed None Examples.db3 =
              Ok all).
  { vm_compute. eexists. reflexivity. }
  destruct H as [all H]. exists all. split; [exact H|].
  exact (enumeration_agrees_with_listing Examples.observed Examples.db3 all H).
Defined.

(** X23.  The enumeration of tags does not depend on the order in which
    the rows are read: two tables with the same rows, in any order, give
    the same list. *)
Theorem tag_enumeration_ignores_row_order (db db' : TodoDatabase.table) :
  Permutation db db' ->
  TodoService.getAllTags db = TodoService.getAllTags db'.
Proof. apply getAllTags_perm. Qed.

Lemma tag_enumeration_ignores_row_order_witness :
  TodoService.getAllTags Examples.db3 =
  TodoService.getAllTags (rev Examples.db3).
Proof.
  apply (tag_enumeration_ignores_row_order Examples.db3 (rev Examples.db3)).
  apply Permutation_rev.
Defined.

(** X24.  A tag of more than 49996 bytes gives a pattern that LIKE
    refuses: on a table that is not empty the listing by that tag throws
    [LIKE or GLOB pattern too complex], under every plan, and on the empty
    table, where LIKE is never called, it returns no todo. *)
Theorem long_tag_is_refused (engine : TodoDatabase.plan) (tag : string)
  (db : TodoDatabase.table) :
  Spec.short tag = false ->
  TodoService.getAllTodos engine
    (Some (TodoFilter.mk None None (Some tag) None None)) db =
  match db with
  | [] => Ok []
  | _ :: _ => Throw (SqliteError "LIKE or GLOB pattern too complex")
  end.
Proof.
  intros Hlong.
  unfold TodoService.getAllTodos, TodoDatabase.getAllTodos,
    TodoDatabase.refused.
  cbn [TodoFilter.tag].
  assert (Ht : truthy tag = true).
  { destruct tag; [discriminate | reflexivity]. }
  assert (Hp : Sqlite.too_long (TodoDatabase.tag_pattern tag) = true).
  { unfold Sqlite.too_long, Spec.short in *. rewrite length_tag_pattern.
    apply N.leb_gt in Hlong. apply N.ltb_lt.
    unfold Sqlite.like_pattern_limit. lia. }
  rewrite Ht, Hp. cbn [andb].
  destruct db as [|row db].
  - cbn [existsb].
    pose proof (select_rows_perm engine
                  (Some (TodoFilter.mk None None (Some tag) None None)) [])
      as Hperm.
    cbn [List.filter] in Hperm.
    apply Permutation_sym, Permutation_nil in Hperm. now rewrite Hperm.
  - cbn [existsb]. reflexivity.
Qed.

Lemma long_tag_is_refused_witness :
  TodoService.getAllTodos Examples.observed
    (Some (TodoFilter.mk None None (Some Examples.long_tag) None None))
    Examples.db1 =
  match Examples.db1 with
  | [] => Ok []
  | _ :: _ => Throw (SqliteError "LIKE or GLOB pattern too complex")
  end.
Proof.
  apply (long_tag_is_refused Examples.observed Examples.long_tag Examples.db1).
  vm_compute. reflexivity.
Defined.

(** X25.  A due date given as a date alone, [YYYY-MM-DD], the other form
    in which the tools document it.  At an instant in the form of the
    clock the overdue query returns a listed todo with such a due date
    exactly when the todo is not completed and midnight UTC of that day
    is not later than the instant of the call: at that midnight itself
    the todo is already returned. *)
Theorem date_only_is_overdue_from_midnight (engine : TodoDatabase.plan)
  (now : string) (db : TodoDatabase.table) (all late : list Todo.t)
  (todo : Todo.t) (d : string) :
  TodoService.getAllTodos engine None db = Ok all ->
  TodoService.getOverdueTodos engine now db = Ok late ->
  Spec.normal now = true ->
  In todo all -> Todo.dueDate todo = val d -> Spec.date_only d = true ->
  (In todo late <->
   Todo.completed todo = Some false /\ Spec.not_later d now = true).
Proof.
  unfold TodoService.getAllTodos, TodoService.getOverdueTodos,
    TodoDatabase.getOverdueTodos.
  intros Hall Hlate Hnow Hin Hd Hdo.
  apply mapM_Forall2 in Hlate.
  rewrite <- (TimeFacts.date_only_lt d now Hdo Hnow).
  split.
  - intros Hl.
    destruct (Forall2_In_r _ _ _ _ Hlate Hl) as [row [Hrow Hto]].
    apply overdue_rows_In in Hrow as [_ Hover].
    apply rowToTodo_fields in Hto as [l [_ ->]].
    cbn [Todo.dueDate Todo.completed] in Hd |- *.
    unfold TodoDatabase.overdue_row in Hover.
    apply andb_true_iff in Hover as [Hc Hlt]. rewrite Hc.
    destruct (Row.due_date row) as [d'|]; [|discriminate].
    cbn [TodoDatabase.of_column] in Hd. injection Hd as ->. auto.
  - intros [Hc Hlt].
    apply (listed_In engine db all todo Hall) in Hin as [row [Hrow Hto]].
    assert (Hsel : In row (TodoDatabase.overdue_rows engine now db)).
    { apply overdue_rows_In. split; [exact Hrow|].
      apply rowToTodo_fields in Hto as [l [_ ->]].
      cbn [Todo.dueDate Todo.completed] in Hd, Hc.
      unfold TodoDatabase.overdue_row.
      destruct (Row.completed row =? 0)%Z; [|discriminate].
      destruct (Row.due_date row) as [d'|]; [|discriminate].
      cbn [TodoDatabase.of_column] in Hd. injection Hd as ->. exact Hlt. }
    destruct (Forall2_In_l _ _ _ _ Hlate Hsel) as [todo' [Hin' Hto']].
    congruence.
Qed.

(** The todo due on 6 March, at midnight UTC of that day. *)
Lemma date_only_is_overdue_from_midnight_witness :
  In Examples.stored_rent [Examples.stored_rent] <->
  Todo.completed Examples.stored_rent = Some false /\
  Spec.not_later "2026-03-06" Examples.friday_midnight = true.
Proof.
  apply (date_only_is_overdue_from_midnight Sqlite.scan
           Examples.friday_midnight Examples.db8 [Examples.stored_rent]
           [Examples.stored_rent] Examples.stored_rent "2026-03-06").
  - vm_compute. reflexivity.
  - vm_compute. reflexivity.
  - vm_compute. reflexivity.
  - left. reflexivity.
  - reflexivity.
  - vm_compute. reflexivity.
Defined.

(** X26.  Every table the service reaches from the empty one stores a tag
    list in each of its rows, as the JSON text [JSON.stringify] writes
    for it or as NULL for none, and the enumeration of tags holds exactly
    the tags of these lists, each once. *)
Theorem reachable_tables_store_tag_lists (valid_date : string -> bool)
  (db : TodoDatabase.table) :
  Spec.reachable valid_date db ->
  exists lists,
    Forall2 Spec.tags_stored db lists /\
    NoDup (TodoService.getAllTags db) /\
    forall tag,
      In tag (TodoService.getAllTags db) <->
      exists tags, In tags lists /\ In tag tags.
Proof.
  intros Hreach.
  destruct (sound_stored db (reachable_sound valid_date db Hreach))
    as [lists Hlists].
  exists lists. split; [exact Hlists|].
  unfold TodoService.getAllTags. split; [apply getAllTags_NoDup|].
  now apply getAllTags_stored.
Qed.

Lemma reachable_tables_store_tag_lists_witness :
  exists lists,
    Forall2 Spec.tags_stored Examples.db3 lists /\
    NoDup (TodoService.getAllTags Examples.db3) /\
    forall tag,
      In tag (TodoService.getAllTags Examples.db3) <->
      exists tags, In tags lists /\ In tag tags.
Proof.
  apply (reachable_tables_store_tag_lists Examples.any_date Examples.db3).
  unfold Examples.db3. apply Spec.reach_create.
  unfold Examples.db2. apply Spec.reach_create.
  unfold Examples.db1. apply Spec.reach_create.
  apply Spec.reach_empty.
Defined.
